(** * Resume graph ingestion and skill search: a shallow embedding

    The repository holds two single-file Streamlit applications,
    [main4.py] (the base variant) and [with_word_search_only.py] (the
    word-normalizing variant).  Both read uploaded PDF resumes, ask a
    language model for a JSON profile, merge the profile into a Neo4j
    property graph through py2neo, and search candidates by skill.

    This development embeds the ingestion path and the search queries of
    both files and proves the properties stated about them.  External
    collaborators (the language model, [json.loads], the availability of
    the store) are the fields of an environment record; the Python state
    that the scripts mutate (the graph, [st.session_state.processed_files])
    is threaded through a small state-and-exception monad. *)

From Stdlib Require Import ZArith List Ascii String Lia Bool.
From stdpp Require Import base decidable option list gmap strings.

Set Warnings "-register-all".

#[local] Open Scope string_scope.
#[local] Open Scope list_scope.
#[local] Open Scope Z_scope.

(* ===================================================================== *)
(** ** [hashlib.md5(...).hexdigest()] *)
(* ===================================================================== *)

(** MD5 (RFC 1321) on 32-bit words kept in [Z], every addition and
    rotation truncated to 32 bits. *)
Module MD5.

Definition mask32 : Z := 0xffffffff.

Definition add32 (x y : Z) : Z := Z.land (x + y) mask32.

Definition not32 (x : Z) : Z := Z.lxor x mask32.

Definition rotl32 (x c : Z) : Z :=
  Z.land (Z.lor (Z.shiftl x c) (Z.shiftr x (32 - c))) mask32.

Definition K : list Z :=
  [ 0xd76aa478; 0xe8c7b756; 0x242070db; 0xc1bdceee;
    0xf57c0faf; 0x4787c62a; 0xa8304613; 0xfd469501;
    0x698098d8; 0x8b44f7af; 0xffff5bb1; 0x895cd7be;
    0x6b901122; 0xfd987193; 0xa679438e; 0x49b40821;
    0xf61e2562; 0xc040b340; 0x265e5a51; 0xe9b6c7aa;
    0xd62f105d; 0x02441453; 0xd8a1e681; 0xe7d3fbc8;
    0x21e1cde6; 0xc33707d6; 0xf4d50d87; 0x455a14ed;
    0xa9e3e905; 0xfcefa3f8; 0x676f02d9; 0x8d2a4c8a;
    0xfffa3942; 0x8771f681; 0x6d9d6122; 0xfde5380c;
    0xa4beea44; 0x4bdecfa9; 0xf6bb4b60; 0xbebfbc70;
    0x289b7ec6; 0xeaa127fa; 0xd4ef3085; 0x04881d05;
    0xd9d4d039; 0xe6db99e5; 0x1fa27cf8; 0xc4ac5665;
    0xf4292244; 0x432aff97; 0xab9423a7; 0xfc93a039;
    0x655b59c3; 0x8f0ccc92; 0xffeff47d; 0x85845dd1;
    0x6fa87e4f; 0xfe2ce6e0; 0xa3014314; 0x4e0811a1;
    0xf7537e82; 0xbd3af235; 0x2ad7d2bb; 0xeb86d391 ].

Definition shifts : list Z :=
  [ 7; 12; 17; 22; 7; 12; 17; 22; 7; 12; 17; 22; 7; 12; 17; 22;
    5;  9; 14; 20; 5;  9; 14; 20; 5;  9; 14; 20; 5;  9; 14; 20;
    4; 11; 16; 23; 4; 11; 16; 23; 4; 11; 16; 23; 4; 11; 16; 23;
    6; 10; 15; 21; 6; 10; 15; 21; 6; 10; 15; 21; 6; 10; 15; 21 ].

(** The bytes of a text; a [string] is taken to hold the UTF-8 encoding
    that [text.encode('utf-8')] produces. *)
Definition bytes_of_string (s : string) : list Z :=
  map (fun a => Z.of_N (N_of_ascii a)) (list_ascii_of_string s).

(** [n] bytes of [x], least significant first. *)
Fixpoint le_bytes (n : nat) (x : Z) : list Z :=
  match n with
  | O => []
  | S n' => Z.land x 0xff :: le_bytes n' (Z.shiftr x 8)
  end.

Definition pad (msg : list Z) : list Z :=
  let n := Z.of_nat (List.length msg) in
  msg ++ [0x80] ++ repeat 0 (Z.to_nat ((55 - n) mod 64))
      ++ le_bytes 8 (Z.land (8 * n) 0xffffffffffffffff).

(** Little-endian 32-bit words of a byte sequence. *)
Fixpoint words (bs : list Z) : list Z :=
  match bs with
  | b0 :: b1 :: b2 :: b3 :: rest =>
      Z.lor b0 (Z.lor (Z.shiftl b1 8) (Z.lor (Z.shiftl b2 16) (Z.shiftl b3 24)))
      :: words rest
  | _ => []
  end.

(** Blocks of sixteen words. *)
Fixpoint blocks (fuel : nat) (ws : list Z) : list (list Z) :=
  match fuel, ws with
  | O, _ | _, [] => []
  | S fuel', _ => firstn 16 ws :: blocks fuel' (skipn 16 ws)
  end.

Definition regs : Type := Z * Z * Z * Z.

Definition step (M : list Z) (st : regs) (i : Z) : regs :=
  let '(A, B, C, D) := st in
  let '(F, g) :=
    if i <? 16 then (Z.lor (Z.land B C) (Z.land (not32 B) D), i)
    else if i <? 32 then
      (Z.lor (Z.land D B) (Z.land (not32 D) C), (5 * i + 1) mod 16)
    else if i <? 48 then (Z.lxor B (Z.lxor C D), (3 * i + 5) mod 16)
    else (Z.lxor C (Z.lor B (not32 D)), (7 * i) mod 16) in
  let F' :=
    add32 (add32 (add32 F A) (nth (Z.to_nat i) K 0)) (nth (Z.to_nat g) M 0) in
  (D, add32 B (rotl32 F' (nth (Z.to_nat i) shifts 0)), B, C).

Definition compress (st : regs) (M : list Z) : regs :=
  let '(a0, b0, c0, d0) := st in
  let '(A, B, C, D) :=
    fold_left (step M) (map Z.of_nat (seq 0 64)) st in
  (add32 a0 A, add32 b0 B, add32 c0 C, add32 d0 D).

Definition init : regs := (0x67452301, 0xefcdab89, 0x98badcfe, 0x10325476).

Definition digest (msg : list Z) : list Z :=
  let ws := words (pad msg) in
  let '(a, b, c, d) := fold_left compress (blocks (List.length ws) ws) init in
  le_bytes 4 a ++ le_bytes 4 b ++ le_bytes 4 c ++ le_bytes 4 d.

Definition hex_digit (n : Z) : ascii :=
  match String.get (Z.to_nat n) "0123456789abcdef" with
  | Some c => c
  | None => "0"%char
  end.

Fixpoint hex (bs : list Z) : string :=
  match bs with
  | [] => EmptyString
  | b :: rest =>
      String (hex_digit (Z.shiftr b 4)) (String (hex_digit (Z.land b 0xf)) (hex rest))
  end.

Definition hexdigest (s : string) : string := hex (digest (bytes_of_string s)).

End MD5.

(** [get_pdf_hash(text)]: the hexadecimal MD5 digest of the text. *)
Definition get_pdf_hash (text : string) : string := MD5.hexdigest text.


(* ===================================================================== *)
(** ** Python values *)
(* ===================================================================== *)

(** What [json.loads] can return, and what the scripts pass around.  A
    [float] is kept as its IEEE-754 binary64 bit pattern; a [dict] is its
    list of entries in insertion order, keys unique. *)
Inductive pyval : Type :=
  | PNone
  | PBool (b : bool)
  | PInt (z : Z)
  | PFloat (bits : Z)
  | PStr (s : string)
  | PList (items : list pyval)
  | PDict (entries : list (string * pyval)).

Definition pyval_eq_dec : forall x y : pyval, {x = y} + {x <> y}.
Proof.
  fix IH 1. intros x y.
  decide equality.
  - apply bool_eq_dec.
  - apply Z.eq_dec.
  - apply Z.eq_dec.
  - apply String.string_dec.
  - apply (List.list_eq_dec IH).
  - refine (List.list_eq_dec _ _ _). intros [a b] [c d].
    destruct (String.string_dec a c); [|right; congruence].
    destruct (IH b d); [left; congruence | right; congruence].
Defined.

#[global] Instance pyval_eqdec : EqDecision pyval := pyval_eq_dec.

(** The exceptions the scripts can meet; all derive from [Exception]. *)
Inductive exn : Type :=
  | AttributeError
  | TypeError
  | JSONDecodeError
  | LLMError
  | StoreWriteError.

Inductive result (A : Type) : Type :=
  | Ok (a : A)
  | Raise (e : exn).
Arguments Ok {A} a.
Arguments Raise {A} e.

#[global] Instance result_ret : MRet result := fun A a => Ok a.
#[global] Instance result_bind : MBind result := fun A B f r =>
  match r with
  | Ok a => f a
  | Raise e => Raise e
  end.

(** Lookup in the entries of a dict. *)
Fixpoint assoc {V : Type} (k : string) (d : list (string * V)) : option V :=
  match d with
  | [] => None
  | (k', v) :: rest => if String.eqb k' k then Some v else assoc k rest
  end.

(** [data.get(key, default)]: only a dict has the method. *)
Definition py_get (data : pyval) (key : string) (default : pyval) : result pyval :=
  match data with
  | PDict d => Ok (from_option id default (assoc key d))
  | _ => Raise AttributeError
  end.

(** [c.lower()] on the ASCII range; other bytes are left as they are. *)
Definition lower_ascii (c : ascii) : ascii :=
  let n := nat_of_ascii c in
  if ((65 <=? n) && (n <=? 90))%nat then ascii_of_nat (n + 32) else c.

Fixpoint lower (s : string) : string :=
  match s with
  | EmptyString => EmptyString
  | String c rest => String (lower_ascii c) (lower rest)
  end.

(** [v.lower()]: only a str has the method. *)
Definition py_lower (v : pyval) : result pyval :=
  match v with
  | PStr s => Ok (PStr (lower s))
  | _ => Raise AttributeError
  end.

(** A byte that continues a character of a UTF-8 text. *)
Definition is_continuation (c : ascii) : bool :=
  let n := nat_of_ascii c in ((128 <=? n) && (n <? 192))%nat.

(** The continuation bytes a text starts with, and the characters after
    them: each other byte with the continuation bytes that follow it. *)
Fixpoint characters_from (s : string) : string * list string :=
  match s with
  | EmptyString => (EmptyString, [])
  | String c rest =>
      let '(continuation, later) := characters_from rest in
      if is_continuation c then (String c continuation, later)
      else (EmptyString, String c continuation :: later)
  end.

(** The characters of a str, which is held as its UTF-8 bytes (a text
    that starts inside a character is not a str; its first bytes are kept
    as one item). *)
Definition characters (s : string) : list string :=
  match characters_from s with
  | (EmptyString, later) => later
  | (continuation, later) => continuation :: later
  end.

(** What [for x in v] and a comprehension over [v] run through: the items
    of a list, the characters of a str, the keys of a dict; anything else
    is not iterable. *)
Definition py_iter (v : pyval) : result (list pyval) :=
  match v with
  | PList items => Ok items
  | PStr s => Ok (map PStr (characters s))
  | PDict d => Ok (map (fun kv => PStr (fst kv)) d)
  | _ => Raise TypeError
  end.

(** Truth value of [if v:]. *)
Definition py_truthy (v : pyval) : bool :=
  match v with
  | PNone => false
  | PBool b => b
  | PInt z => negb (z =? 0)
  | PFloat bits => negb (Z.land bits 0x7fffffffffffffff =? 0)
  | PStr s => negb (String.eqb s EmptyString)
  | PList items => match items with [] => false | _ => true end
  | PDict d => match d with [] => false | _ => true end
  end.

(** [[f(x) for x in xs]], stopping at the first exception. *)
Fixpoint comprehension {A B : Type} (f : A -> result B) (xs : list A) : result (list B) :=
  match xs with
  | [] => Ok []
  | x :: rest =>
      y ← f x; ys ← comprehension f rest; mret (y :: ys)
  end.

(* ===================================================================== *)
(** ** The property graph behind [py2neo.Graph] *)
(* ===================================================================== *)

(** A node carries one label and a property map; its identity is its
    position in [nodes] (nodes are only ever removed all at once). *)
Record node : Type := Node { label : string; props : list (string * pyval) }.

Record relationship : Type :=
  Relationship { start_node : nat; rel_type : string; end_node : nat }.

Record Graph : Type := mkGraph { nodes : list node; rels : list relationship }.

#[global] Instance node_eqdec : EqDecision node.
Proof. solve_decision. Defined.
#[global] Instance relationship_eqdec : EqDecision relationship.
Proof. solve_decision. Defined.
#[global] Instance Graph_eqdec : EqDecision Graph.
Proof. solve_decision. Defined.

Definition empty_graph : Graph := mkGraph [] [].

(** [n] carries label [l] and the same value under [k] as [m] does. *)
Definition same_key (l k : string) (m n : node) : Prop :=
  label n = l /\ assoc k (props n) = assoc k (props m).

#[global] Instance same_key_dec l k m n : Decision (same_key l k m n).
Proof. unfold same_key. apply _. Defined.

(** [graph.merge(n, l, k)] for a node not yet bound: the first node with
    label [l] and [n]'s value under [k] is reused and takes [n]'s
    properties; without one, [n] is created.  The identity of the node is
    returned (py2neo binds the Python object to it). *)
Definition merge_node (n : node) (l k : string) (g : Graph) : Graph * nat :=
  match list_find (same_key l k n) (nodes g) with
  | Some (i, _) => (mkGraph (<[i := n]> (nodes g)) (rels g), i)
  | None => (mkGraph (nodes g ++ [n]) (rels g), List.length (nodes g))
  end.

(** [graph.merge(Relationship(a, t, b))] between two bound nodes. *)
Definition merge_rel (r : relationship) (g : Graph) : Graph * unit :=
  if decide (r ∈ rels g) then (g, tt)
  else (mkGraph (nodes g) (rels g ++ [r]), tt).

(** [MATCH (n) DETACH DELETE n]. *)
Definition detach_delete_all (g : Graph) : Graph * unit := (empty_graph, tt).

(* ===================================================================== *)
(** ** State, exceptions and the outside world *)
(* ===================================================================== *)

Inductive message : Type :=
  | SystemMessage (content : string)
  | HumanMessage (content : string).

(** The collaborators the scripts call but do not define.  [llm n msgs] is
    the [.content] of the answer to the [n]-th call of the model ([None]
    when the call raises); [json_loads] is [json.loads] ([None] when it
    raises); [store_up n] tells whether the [n]-th request to the store is
    served or raises (an outage, or a value the store refuses). *)
Record env : Type := mkEnv {
  llm : nat -> list message -> option string;
  json_loads : string -> option pyval;
  store_up : nat -> bool
}.

(** What the scripts mutate: the graph in the store, the session's
    [processed_files] set, and the number of requests made so far to the
    model and to the store. *)
Record world : Type := mkWorld {
  graph : Graph;
  processed_files : gset string;
  llm_calls : nat;
  store_calls : nat
}.

Definition M (A : Type) : Type := world -> result A * world.

#[global] Instance M_ret : MRet M := fun A a w => (Ok a, w).
#[global] Instance M_bind : MBind M := fun A B f c w =>
  match c w with
  | (Ok a, w') => f a w'
  | (Raise e, w') => (Raise e, w')
  end.

(** A pure computation that may raise, run inside [M]. *)
Definition lift {A : Type} (r : result A) : M A := fun w => (r, w).

(** [try: body / except Exception: handler]. *)
Definition try_except {A : Type} (body : M A) (handler : exn -> M A) : M A :=
  fun w =>
    match body w with
    | (Ok a, w') => (Ok a, w')
    | (Raise e, w') => handler e w'
    end.

(** [for x in xs: body(x)]. *)
Fixpoint for_each {A : Type} (xs : list A) (body : A -> M unit) : M unit :=
  match xs with
  | [] => mret tt
  | x :: rest => body x;; for_each rest body
  end.

(** An uploaded file: its name and the text of its pages, in page order,
    as [page.get_text()] gives it. *)
Record UploadedFile : Type := mkFile { file_name : string; pages : list string }.

Definition newline : string := String (ascii_of_nat 10) EmptyString.

(** [extract_text_from_pdf(file)]. *)
Definition extract_text_from_pdf (file : UploadedFile) : string :=
  String.concat newline (pages file).

Section Collaborators.

Context (E : env).

(** One request to the store. *)
Definition store_request {A : Type} (op : Graph -> Graph * A) : M A := fun w =>
  if store_up E (store_calls w) then
    let '(g, a) := op (graph w) in
    (Ok a, mkWorld g (processed_files w) (llm_calls w) (S (store_calls w)))
  else
    (Raise StoreWriteError,
     mkWorld (graph w) (processed_files w) (llm_calls w) (S (store_calls w))).

(** [graph.merge(node, label, key)]. *)
Definition graph_merge (n : node) (l k : string) : M nat :=
  store_request (merge_node n l k).

(** [graph.merge(Relationship(a, t, b))]. *)
Definition graph_merge_rel (r : relationship) : M unit :=
  store_request (merge_rel r).

(** [clear_neo4j_database()]. *)
Definition clear_neo4j_database : M unit := store_request detach_delete_all.

(** [llm(messages).content]. *)
Definition llm_call (msgs : list message) : M string := fun w =>
  let w' := mkWorld (graph w) (processed_files w) (S (llm_calls w)) (store_calls w) in
  match llm E (llm_calls w) msgs with
  | Some content => (Ok content, w')
  | None => (Raise LLMError, w')
  end.

(** [json.loads(text)]. *)
Definition py_json_loads (text : string) : result pyval :=
  match json_loads E text with
  | Some v => Ok v
  | None => Raise JSONDecodeError
  end.

End Collaborators.

Definition dq : string := String (ascii_of_nat 34) EmptyString.

(** The f-string prompt of [get_structured_data_from_llm], the same in
    both files. *)
Definition extraction_prompt (resume_text : string) : string :=
  String.concat EmptyString [
    newline;
    "You are an intelligent assistant that converts resumes into structured JSON."; newline;
    newline;
    "Given the following resume:"; newline;
    newline;
    resume_text; newline;
    newline;
    "Extract structured data in this JSON format:"; newline;
    newline;
    "{"; newline;
    "  "; dq; "name"; dq; ": "; dq; "<Full Name>"; dq; ","; newline;
    "  "; dq; "skills"; dq; ": ["; dq; "Skill1"; dq; ", "; dq; "Skill2"; dq; "],"; newline;
    "  "; dq; "education"; dq; ": ["; dq; "Degree in Field from University"; dq; "],"; newline;
    "  "; dq; "projects"; dq; ": ["; dq; "Project title or short description"; dq; "],"; newline;
    "  "; dq; "experience"; dq; ": ["; dq; "Job title at Company - short description"; dq; "],"; newline;
    "  "; dq; "certifications"; dq; ": ["; dq; "Certification Name"; dq; "]"; newline;
    "}"; newline;
    newline;
    "Only return pure JSON. Do not include explanations or any other text."; newline ].

Definition extraction_messages (resume_text : string) : list message :=
  [ SystemMessage "You are a helpful assistant.";
    HumanMessage (extraction_prompt resume_text) ].

(** [st.session_state.processed_files.add(name)]. *)
Definition processed_add (name : string) : M unit := fun w =>
  (Ok tt, mkWorld (graph w) ({[ name ]} ∪ processed_files w) (llm_calls w) (store_calls w)).

(** [st.session_state.processed_files.clear()]. *)
Definition processed_clear : M unit := fun w =>
  (Ok tt, mkWorld (graph w) ∅ (llm_calls w) (store_calls w)).

Definition get_processed : M (gset string) := fun w => (Ok (processed_files w), w).

(** The five attribute categories of [add_candidate_to_neo4j], in the
    order of the list the loop runs through: node label, relationship
    type, field of the profile. *)
Definition categories : list (string * string * string) :=
  [ ("Skill", "HAS_SKILL", "skills");
    ("Education", "HAS_EDUCATION", "education");
    ("Project", "HAS_PROJECT", "projects");
    ("Experience", "HAS_EXPERIENCE", "experience");
    ("Certification", "HAS_CERTIFICATION", "certifications") ].

(** The upload loop, the same text in both files; [extract] and [persist]
    are the file's own [get_structured_data_from_llm] and
    [add_candidate_to_neo4j]. *)
Section UploadLoop.

Context (extract : string -> M pyval) (persist : pyval -> string -> M unit).

(** The body of [for file in uploaded_files]. *)
Definition process_file (file : UploadedFile) : M unit :=
  done_files ← get_processed;
  if decide (file_name file ∈ done_files) then mret tt
  else
    let resume_text := extract_text_from_pdf file in
    structured_data ← extract resume_text;
    if py_truthy structured_data then
      persist structured_data resume_text;;
      processed_add (file_name file)
    else mret tt.

(** [if uploaded_files: ...]; the result is the number shown by
    [st.success], [None] when nothing was uploaded. *)
Definition upload_section (uploaded_files : list UploadedFile) : M (option nat) :=
  match uploaded_files with
  | [] => mret None
  | _ =>
      for_each uploaded_files process_file;;
      done_files ← get_processed;
      mret (Some (size done_files))
  end.

End UploadLoop.

(* ===================================================================== *)
(** ** Reading the graph: what the Cypher patterns bind *)
(* ===================================================================== *)

(** [n.k] in Cypher: [None] is null (no such node, or no such property). *)
Definition prop (g : Graph) (i : nat) (k : string) : option pyval :=
  n ← nodes g !! i; assoc k (props n).

Definition label_of (g : Graph) (i : nat) : option string :=
  label <$> nodes g !! i.

(** The bindings [(c, s)] of [(c:Candidate)-[:HAS_SKILL]->(s:Skill)], one
    per relationship that fits the pattern. *)
Definition match_has_skill (g : Graph) : list (nat * nat) :=
  omap (fun r =>
          if decide (rel_type r = "HAS_SKILL"
                     /\ label_of g (start_node r) = Some "Candidate"
                     /\ label_of g (end_node r) = Some "Skill")
          then Some (start_node r, end_node r) else None)
       (rels g).

(** A row [{name, content}] of a result; [None] is null. *)
Definition row : Type := option pyval * option pyval.

Definition candidate_row (g : Graph) (c : nat) : row :=
  (prop g c "name", prop g c "content").

(* ===================================================================== *)
(** ** main4.py *)
(* ===================================================================== *)

Module Main4.
Section WithEnv.

Context (E : env).

Definition get_structured_data_from_llm (resume_text : string) : M pyval :=
  try_except
    (response ← llm_call E (extraction_messages resume_text);
     lift (py_json_loads E response))
    (fun _ => mret (PDict [])).

Definition add_candidate_to_neo4j (data : pyval) (resume_text : string) : M unit :=
  name ← lift (py_get data "name" (PStr "Unknown"));
  let content_hash := get_pdf_hash resume_text in
  let candidate :=
    Node "Candidate" [ ("name", name); ("content", PStr resume_text);
                       ("content_hash", PStr content_hash) ] in
  c ← graph_merge E candidate "Candidate" "content_hash";
  fields ← lift (comprehension
                   (fun '(l, r, f) => items ← py_get data f (PList []); mret (l, r, items))
                   categories);
  for_each fields (fun '(l, r, items) =>
    its ← lift (py_iter items);
    for_each its (fun item =>
      n ← graph_merge E (Node l [("name", item)]) l "name";
      graph_merge_rel E (Relationship c r n))).

Definition process_file : UploadedFile -> M unit :=
  process_file get_structured_data_from_llm add_candidate_to_neo4j.

Definition upload_section : list UploadedFile -> M (option nat) :=
  upload_section get_structured_data_from_llm add_candidate_to_neo4j.

(** The "Clear Graph DB" button. *)
Definition clear_button : M unit :=
  clear_neo4j_database E;; processed_clear.

(** [MATCH (c:Candidate)-[r:HAS_SKILL]->(s:Skill {name: $skill})
     RETURN c.name, c.content]. *)
Definition skill_rows (skill : string) (g : Graph) : list row :=
  map (fun cs => candidate_row g (fst cs))
      (filter (fun cs => prop g (snd cs) "name" = Some (PStr skill)) (match_has_skill g)).

(** The search section: nothing is asked for an empty input. *)
Definition search_section (skill_query : string) : M (option (list row)) :=
  if String.eqb skill_query EmptyString then mret None
  else
    results ← store_request E (fun g => (g, skill_rows skill_query g));
    mret (Some results).

End WithEnv.
End Main4.

(* ===================================================================== *)
(** ** with_word_search_only.py *)
(* ===================================================================== *)

Module WordSearch.
Section WithEnv.

Context (E : env).

(** [[s.lower() for s in raw_data.get(field, [])]]. *)
Definition lowered_list (raw_data : pyval) (field : string) : result pyval :=
  v ← py_get raw_data field (PList []);
  items ← py_iter v;
  lowered ← comprehension py_lower items;
  mret (PList lowered).

(** The dict literal returned inside the [try] block. *)
Definition lowered_profile (raw_data : pyval) : result pyval :=
  name ← (py_get raw_data "name" (PStr "Unknown") ≫= py_lower);
  skills ← lowered_list raw_data "skills";
  education ← lowered_list raw_data "education";
  projects ← lowered_list raw_data "projects";
  experience ← lowered_list raw_data "experience";
  certifications ← lowered_list raw_data "certifications";
  mret (PDict [ ("name", name); ("skills", skills);
                ("education", education); ("projects", projects);
                ("experience", experience);
                ("certifications", certifications) ]).

Definition get_structured_data_from_llm (resume_text : string) : M pyval :=
  try_except
    (response ← llm_call E (extraction_messages resume_text);
     raw_data ← lift (py_json_loads E response);
     lift (lowered_profile raw_data))
    (fun _ => mret (PDict [])).

Definition add_candidate_to_neo4j (data : pyval) (resume_text : string) : M unit :=
  name ← lift (py_get data "name" (PStr "Unknown") ≫= py_lower);
  let content_hash := get_pdf_hash resume_text in
  let candidate :=
    Node "Candidate" [ ("name", name); ("content", PStr resume_text);
                       ("content_hash", PStr content_hash) ] in
  c ← graph_merge E candidate "Candidate" "content_hash";
  fields ← lift (comprehension
                   (fun '(l, r, f) => items ← py_get data f (PList []); mret (l, r, items))
                   categories);
  for_each fields (fun '(l, r, items) =>
    its ← lift (py_iter items);
    for_each its (fun item =>
      lowered ← lift (py_lower item);
      n ← graph_merge E (Node l [("name", lowered)]) l "name";
      graph_merge_rel E (Relationship c r n))).

Definition process_file : UploadedFile -> M unit :=
  process_file get_structured_data_from_llm add_candidate_to_neo4j.

Definition upload_section : list UploadedFile -> M (option nat) :=
  upload_section get_structured_data_from_llm add_candidate_to_neo4j.

(** The "Clear Graph DB" button. *)
Definition clear_button : M unit :=
  clear_neo4j_database E;; processed_clear.

(** [s.strip()] on the ASCII white space. *)
Definition is_space (c : ascii) : bool :=
  let n := nat_of_ascii c in
  (((9 <=? n) && (n <=? 13)) || ((28 <=? n) && (n <=? 32)))%nat.

Fixpoint lstrip (cs : list ascii) : list ascii :=
  match cs with
  | [] => []
  | c :: rest => if is_space c then lstrip rest else cs
  end.

Definition strip (s : string) : string :=
  string_of_list_ascii (rev (lstrip (rev (lstrip (list_ascii_of_string s))))).

(** [s.split(sep)] for a one-character separator. *)
Fixpoint split_chars (sep : ascii) (cs : list ascii) : list (list ascii) :=
  match cs with
  | [] => [[]]
  | c :: rest =>
      if decide (c = sep) then [] :: split_chars sep rest
      else match split_chars sep rest with
           | h :: t => (c :: h) :: t
           | [] => [[c]]
           end
  end.

Definition split_comma (s : string) : list string :=
  map string_of_list_ascii (split_chars ","%char (list_ascii_of_string s)).

(** [skill_query]: empty unless the input is non-empty, then
    [[s.strip().lower() for s in user_skills_input.split(",") if s.strip()]]. *)
Definition parse_skills (user_skills_input : string) : list string :=
  if String.eqb user_skills_input EmptyString then []
  else
    map (fun s => lower (strip s))
        (filter (fun s => strip s <> EmptyString) (split_comma user_skills_input)).

(** [WHERE s.name IN $skills]. *)
Definition name_in (g : Graph) (skills : list string) (s : nat) : bool :=
  match prop g s "name" with
  | Some (PStr x) => bool_decide (x ∈ skills)
  | _ => false
  end.

(** The rows kept by [WHERE s.name IN $skills]. *)
Definition matched (skills : list string) (g : Graph) : list (nat * nat) :=
  filter (fun cs => name_in g skills (snd cs) = true) (match_has_skill g).

(** [COUNT(DISTINCT s.name)] within the group of candidate [c]. *)
Definition matchedSkills (skills : list string) (g : Graph) (c : nat) : nat :=
  List.length
    (remove_dups
       (omap (fun cs => if decide (fst cs = c) then prop g (snd cs) "name" else None)
             (matched skills g))).

(** [MATCH (c:Candidate)-[:HAS_SKILL]->(s:Skill)
     WHERE s.name IN $skills
     WITH c, COUNT(DISTINCT s.name) AS matchedSkills
     WHERE matchedSkills = SIZE($skills)
     RETURN DISTINCT c.name AS name, c.content AS content]. *)
Definition multi_skill_rows (skills : list string) (g : Graph) : list row :=
  let groups := remove_dups (map fst (matched skills g)) in
  let kept :=
    filter (fun c => matchedSkills skills g c = List.length skills) groups in
  remove_dups (map (candidate_row g) kept).

(** The search section up to [results = graph.run(cypher, ...).data()]:
    nothing is asked when [skill_query] is empty. *)
Definition search_section (user_skills_input : string) : M (option (list row)) :=
  let skill_query := parse_skills user_skills_input in
  match skill_query with
  | [] => mret None
  | _ =>
      results ← store_request E (fun g => (g, multi_skill_rows skill_query g));
      mret (Some results)
  end.

End WithEnv.
End WordSearch.

(* ===================================================================== *)
(** ** Well-typed profiles and the graph an ingestion leaves *)
(* ===================================================================== *)

(** A profile with the six fields at their expected types. *)
Record Profile : Type := mkProfile {
  p_name : string;
  p_skills : list string;
  p_education : list string;
  p_projects : list string;
  p_experience : list string;
  p_certifications : list string
}.

(** The dict that carries a profile. *)
Definition profile_data (P : Profile) : pyval :=
  PDict [ ("name", PStr (p_name P));
          ("skills", PList (map PStr (p_skills P)));
          ("education", PList (map PStr (p_education P)));
          ("projects", PList (map PStr (p_projects P)));
          ("experience", PList (map PStr (p_experience P)));
          ("certifications", PList (map PStr (p_certifications P))) ].

Definition lower_profile (P : Profile) : Profile :=
  mkProfile (lower (p_name P)) (map lower (p_skills P)) (map lower (p_education P))
            (map lower (p_projects P)) (map lower (p_experience P))
            (map lower (p_certifications P)).

(** The profile with [f] applied to the name and to every item of every
    list. *)
Definition map_profile (f : string -> string) (P : Profile) : Profile :=
  mkProfile (f (p_name P)) (map f (p_skills P)) (map f (p_education P))
            (map f (p_projects P)) (map f (p_experience P))
            (map f (p_certifications P)).

(* ===================================================================== *)
(** ** with_word_search_only.py over the method [str.lower] *)
(* ===================================================================== *)

(** [str.lower] is a method of the language, not of the repository.  The
    extraction and the persistence of the second file are written here
    over any function [str_lower] in its place, line for line as in
    [WordSearch], which is this module at [lower]. *)
Module Lowering.
Section WithMethod.

Context (str_lower : string -> string) (E : env).

(** [v.lower()]: only a str has the method. *)
Definition py_lower (v : pyval) : result pyval :=
  match v with
  | PStr s => Ok (PStr (str_lower s))
  | _ => Raise AttributeError
  end.

(** [[s.lower() for s in raw_data.get(field, [])]]. *)
Definition lowered_list (raw_data : pyval) (field : string) : result pyval :=
  v ← py_get raw_data field (PList []);
  items ← py_iter v;
  lowered ← comprehension py_lower items;
  mret (PList lowered).

(** The dict literal returned inside the [try] block. *)
Definition lowered_profile (raw_data : pyval) : result pyval :=
  name ← (py_get raw_data "name" (PStr "Unknown") ≫= py_lower);
  skills ← lowered_list raw_data "skills";
  education ← lowered_list raw_data "education";
  projects ← lowered_list raw_data "projects";
  experience ← lowered_list raw_data "experience";
  certifications ← lowered_list raw_data "certifications";
  mret (PDict [ ("name", name); ("skills", skills);
                ("education", education); ("projects", projects);
                ("experience", experience);
                ("certifications", certifications) ]).

Definition get_structured_data_from_llm (resume_text : string) : M pyval :=
  try_except
    (response ← llm_call E (extraction_messages resume_text);
     raw_data ← lift (py_json_loads E response);
     lift (lowered_profile raw_data))
    (fun _ => mret (PDict [])).

Definition add_candidate_to_neo4j (data : pyval) (resume_text : string) : M unit :=
  name ← lift (py_get data "name" (PStr "Unknown") ≫= py_lower);
  let content_hash := get_pdf_hash resume_text in
  let candidate :=
    Node "Candidate" [ ("name", name); ("content", PStr resume_text);
                       ("content_hash", PStr content_hash) ] in
  c ← graph_merge E candidate "Candidate" "content_hash";
  fields ← lift (comprehension
                   (fun '(l, r, f) => items ← py_get data f (PList []); mret (l, r, items))
                   categories);
  for_each fields (fun '(l, r, items) =>
    its ← lift (py_iter items);
    for_each its (fun item =>
      lowered ← lift (py_lower item);
      n ← graph_merge E (Node l [("name", lowered)]) l "name";
      graph_merge_rel E (Relationship c r n))).

End WithMethod.
End Lowering.

(** The letters of the ASCII range, each small letter at the rank of its
    capital. *)
Definition capital_letters : list ascii :=
  list_ascii_of_string "ABCDEFGHIJKLMNOPQRSTUVWXYZ".
Definition small_letters : list ascii :=
  list_ascii_of_string "abcdefghijklmnopqrstuvwxyz".

(** [c'] is [c] with its case folded: the small letter at the rank of [c]
    when [c] is a capital letter, [c] itself otherwise. *)
Definition folded_char (c c' : ascii) : Prop :=
  (exists i, capital_letters !! i = Some c /\ small_letters !! i = Some c')
  \/ ((c ∉ capital_letters) /\ c' = c).

(** [t] is [s] with the case of every letter folded. *)
Definition folded (s t : string) : Prop :=
  Forall2 folded_char (list_ascii_of_string s) (list_ascii_of_string t).

(** [t] holds no capital letter. *)
Definition no_capital (t : string) : Prop :=
  Forall (fun c => c ∉ capital_letters) (list_ascii_of_string t).

(** The node built by [Node("Candidate", name=..., content=..., content_hash=...)]. *)
Definition candidate_node (name : pyval) (resume_text : string) : node :=
  Node "Candidate" [ ("name", name); ("content", PStr resume_text);
                     ("content_hash", PStr (get_pdf_hash resume_text)) ].

(** The node built by [Node(label, name=item)]. *)
Definition attribute_node (l : string) (item : pyval) : node :=
  Node l [("name", item)].

(** One turn of the inner loop on the graph: merge the attribute node,
    then the relationship from candidate [c]. *)
Definition link (c : nat) (g : Graph) (t : string * string * pyval) : Graph :=
  let '(l, r, item) := t in
  let '(g1, n) := merge_node (attribute_node l item) l "name" g in
  fst (merge_rel (Relationship c r n) g1).

Definition tagged (l r : string) (items : list string) : list (string * string * pyval) :=
  map (fun s => (l, r, PStr s)) items.

(** The turns of the two nested loops for a profile, in order. *)
Definition plan_of (P : Profile) : list (string * string * pyval) :=
  tagged "Skill" "HAS_SKILL" (p_skills P)
  ++ tagged "Education" "HAS_EDUCATION" (p_education P)
  ++ tagged "Project" "HAS_PROJECT" (p_projects P)
  ++ tagged "Experience" "HAS_EXPERIENCE" (p_experience P)
  ++ tagged "Certification" "HAS_CERTIFICATION" (p_certifications P).

(** The graph after the requests of one ingestion, all served. *)
Definition upsert_with (cand : node) (plan : list (string * string * pyval)) (g : Graph) : Graph :=
  let '(g1, c) := merge_node cand "Candidate" "content_hash" g in
  fold_left (link c) plan g1.

Definition upsert (P : Profile) (resume_text : string) (g : Graph) : Graph :=
  upsert_with (candidate_node (PStr (p_name P)) resume_text) (plan_of P) g.

(** The turns the nested loops will take for the field values [fields],
    when every value can be iterated and every item normalised ([norm] is
    the identity in main4.py and [.lower()] in the other file). *)
Fixpoint flat_plan (norm : pyval -> result pyval)
    (fields : list (string * string * pyval)) : result (list (string * string * pyval)) :=
  match fields with
  | [] => Ok []
  | (l, r, items) :: rest =>
      its ← py_iter items;
      normed ← comprehension norm its;
      more ← flat_plan norm rest;
      mret (map (fun item => (l, r, item)) normed ++ more)
  end.

(** The candidate name and the turns of an ingestion of [data], when
    nothing in [data] makes it raise. *)
Definition resolve (norm : pyval -> result pyval) (data : pyval)
    : result (pyval * list (string * string * pyval)) :=
  name ← (py_get data "name" (PStr "Unknown") ≫= norm);
  fields ← comprehension
             (fun '(l, r, f) => items ← py_get data f (PList []); mret (l, r, items))
             categories;
  plan ← flat_plan norm fields;
  mret (name, plan).

(** The candidate a text resolves to: the first Candidate node carrying
    the text's hash. *)
Definition candidate_of (resume_text : string) (g : Graph) : option nat :=
  fst <$> list_find (same_key "Candidate" "content_hash"
                              (candidate_node PNone resume_text)) (nodes g).

(** The names of the Skill nodes that candidate [c] is connected to by
    HAS_SKILL. *)
Definition skill_names (g : Graph) (c : nat) : list pyval :=
  omap (fun cs => if decide (fst cs = c) then prop g (snd cs) "name" else None)
       (match_has_skill g).

(** [row] is the row of a Candidate node whose skill names include every
    required one. *)
Definition superset_match (g : Graph) (required : list string) (row : row) : Prop :=
  exists c,
    label_of g c = Some "Candidate"
    /\ row = candidate_row g c
    /\ forall x, x ∈ required -> PStr x ∈ skill_names g c.

(** The number of Candidate nodes. *)
Definition candidate_count (g : Graph) : nat :=
  List.length (filter (fun l => l = "Candidate") (label <$> nodes g)).

(** The identity key of a label: what [graph.merge] is called with. *)
Definition key_of (l : string) : string :=
  if decide (l = "Candidate") then "content_hash" else "name".

(** No two nodes share label and key value. *)
Definition unique_keys (g : Graph) : Prop :=
  forall i j ni nj,
    nodes g !! i = Some ni -> nodes g !! j = Some nj ->
    label ni = label nj ->
    assoc (key_of (label ni)) (props ni) = assoc (key_of (label nj)) (props nj) ->
    i = j.

(** [m] is the first node with label [l] and its value under [k], at [i]. *)
Definition settled (m : node) (l k : string) (i : nat) (g : Graph) : Prop :=
  list_find (same_key l k m) (nodes g) = Some (i, m).

(** Two merges do not disturb each other when, on a common label, they use
    the same key and agree on the node whenever they agree on the key. *)
Definition compatible (n : node) (l k : string) (n' : node) (l' k' : string) : Prop :=
  l = l' -> k = k' /\ (assoc k (props n') = assoc k (props n) -> n' = n).

(** The turn [t] of the inner loop has been served for candidate [c]: its
    attribute node is settled and the relationship to it exists. *)
Definition linked (c : nat) (g : Graph) (t : string * string * pyval) : Prop :=
  exists n, settled (attribute_node t.1.1 t.2) t.1.1 "name" n g
            /\ Relationship c t.1.2 n ∈ rels g.

(** The labels of a plan are attribute labels. *)
Definition attribute_plan (plan : list (string * string * pyval)) : Prop :=
  Forall (fun t => t.1.1 <> "Candidate") plan.

(** The world after one more call to the model and nothing else. *)
Definition bump_llm (w : world) : world :=
  mkWorld (graph w) (processed_files w) (S (llm_calls w)) (store_calls w).

(** The five list fields of a profile. *)
Definition list_fields : list string :=
  ["skills"; "education"; "projects"; "experience"; "certifications"].

(** The entries of a dict completed with the default of each field it
    lacks: "Unknown" for the name, the empty list for a list field. *)
Definition with_defaults (d : list (string * pyval)) : list (string * pyval) :=
  d ++ (if assoc "name" d is None then [("name", PStr "Unknown")] else [])
    ++ omap (fun f => if assoc f d is None then Some (f, PList []) else None) list_fields.

Definition is_str (v : pyval) : Prop := exists s, v = PStr s.

(** Values a comprehension cannot run through. *)
Definition not_iterable (v : pyval) : Prop :=
  match v with
  | PNone | PBool _ | PInt _ | PFloat _ => True
  | _ => False
  end.

(** The field [f] is present and makes the lower-casing pass raise: its
    value cannot be iterated, or it is a list holding an item that is not
    a str. *)
Definition bad_list (d : list (string * pyval)) (f : string) : Prop :=
  exists v, assoc f d = Some v
    /\ (not_iterable v \/ exists items x, v = PList items /\ x ∈ items /\ ~ is_str x).

(** The name is present and not a str. *)
Definition bad_name (d : list (string * pyval)) : Prop :=
  exists v, assoc "name" d = Some v /\ ~ is_str v.

(** A decoded response that the lower-casing pass rejects. *)
Definition ill_typed (raw : pyval) : Prop :=
  match raw with
  | PDict d => bad_name d \/ exists f, f ∈ list_fields /\ bad_list d f
  | _ => True
  end.

(** The strings a decoded response holds at the places the lower-casing
    pass reads: the name (or its default) and, for each list field, the
    items of a list, the characters of a str or the keys of a dict. *)
Definition py_str (v : pyval) : result string :=
  match v with
  | PStr s => Ok s
  | _ => Raise AttributeError
  end.

Definition read_strings (raw : pyval) (field : string) : result (list string) :=
  v ← py_get raw field (PList []);
  items ← py_iter v;
  comprehension py_str items.

Definition read_profile (raw : pyval) : result Profile :=
  name ← (py_get raw "name" (PStr "Unknown") ≫= py_str);
  skills ← read_strings raw "skills";
  education ← read_strings raw "education";
  projects ← read_strings raw "projects";
  experience ← read_strings raw "experience";
  certifications ← read_strings raw "certifications";
  mret (mkProfile name skills education projects experience certifications).

(** Every string of a profile. *)
Definition all_strings (P : Profile) : list string :=
  p_name P :: p_skills P ++ p_education P ++ p_projects P ++ p_experience P
    ++ p_certifications P.

(** A dict with none of the six fields. *)
Definition no_profile_field (d : list (string * pyval)) : Prop :=
  Forall (fun f => assoc f d = None) ("name" :: list_fields).

(** The profile with a name and nothing else. *)
Definition unknown_profile (name : string) : Profile := mkProfile name [] [] [] [] [].

Definition raises {A : Type} (r : result A) : Prop := exists e, r = Raise e.

(** What two ingestions that both list skill [x] leave when they share its
    node: one Skill node of that name, linked by HAS_SKILL from the two
    distinct candidate nodes. *)
Definition shares_skill (g : Graph) (cand1 cand2 : node) (x : string) : Prop :=
  exists s c1 c2,
    c1 <> c2
    /\ nodes g !! c1 = Some cand1 /\ nodes g !! c2 = Some cand2
    /\ nodes g !! s = Some (attribute_node "Skill" (PStr x))
    /\ (forall j n, nodes g !! j = Some n -> label n = "Skill" ->
          assoc "name" (props n) = Some (PStr x) -> j = s)
    /\ Relationship c1 "HAS_SKILL" s ∈ rels g
    /\ Relationship c2 "HAS_SKILL" s ∈ rels g.

(** The store answers every request. *)
Definition always_up (E : env) : Prop := forall n, store_up E n = true.

(** Test doubles: a model that answers the [n]-th call with the [n]-th
    entry of a script, and a [json.loads] given by a table. *)
Definition scripted_env (responses : list (option string))
    (table : list (string * pyval)) (up : nat -> bool) : env :=
  mkEnv (fun n _ => default None (responses !! n)) (fun s => assoc s table) up.

Definition fresh_world : world := mkWorld empty_graph ∅ 0 0.

(** ** A small scenario

    Two resumes, the answers of the model to the two extraction calls and
    their decoding; [resume_A] lists Python and SQL, [resume_B] Python. *)

Definition file_A : UploadedFile := mkFile "a.pdf" ["resume A"].
Definition file_B : UploadedFile := mkFile "b.pdf" ["resume B"].

Definition alice : Profile := mkProfile "Alice" ["Python"; "SQL"] [] [] [] [].
Definition bob : Profile := mkProfile "Bob" ["Python"] [] [] [] [].

Definition demo_table : list (string * pyval) :=
  [ ("A", profile_data alice); ("B", profile_data bob); ("{}", PDict []);
    ("1", PInt 1);
    ("note", PDict [("note", PStr "n/a")]);
    ("keys", PDict [("skills", PDict [("Python", PInt 1)])]) ].

Definition demo_env : env :=
  scripted_env [Some "A"; Some "B"] demo_table (fun _ => true).

(** The same answers with a store that refuses every request. *)
Definition outage_env : env :=
  scripted_env [Some "A"; Some "B"] demo_table (fun _ => false).

(** A model that gives one answer, the store answering. *)
Definition answer_env (content : string) : env :=
  scripted_env [Some content] demo_table (fun _ => true).

(** The world after the variant has ingested the two resumes. *)
Definition world_AB : world :=
  snd (WordSearch.upload_section demo_env [file_A; file_B] fresh_world).

Definition row_A : row := (Some (PStr "alice"), Some (PStr "resume A")).
Definition row_B : row := (Some (PStr "bob"), Some (PStr "resume B")).

(* ===================================================================== *)
(** ** What an ingestion may change *)
(* ===================================================================== *)

(** [g'] has every node position of [g] with the same label, and every
    relationship of [g]. *)
Definition graph_le (g g' : Graph) : Prop :=
  (List.length (nodes g) <= List.length (nodes g'))%nat
  /\ (forall i l, label_of g i = Some l -> label_of g' i = Some l)
  /\ (forall r, r ∈ rels g -> r ∈ rels g').

(** From [w] to [w'] only the store was asked, and the graph only grew. *)
Definition only_stored (w w' : world) : Prop :=
  processed_files w' = processed_files w
  /\ llm_calls w' = llm_calls w
  /\ (store_calls w <= store_calls w')%nat
  /\ graph_le (graph w) (graph w').

(** From [w] to [w'] the session only moved forward: names were added to
    the processed set, requests were made, the graph only grew. *)
Definition moved_forward (w w' : world) : Prop :=
  processed_files w ⊆ processed_files w'
  /\ (llm_calls w <= llm_calls w')%nat
  /\ (store_calls w <= store_calls w')%nat
  /\ graph_le (graph w) (graph w').

(** Every run of [c] relates the world before to the world after, however
    it ends. *)
Definition respects {A : Type} (R : world -> world -> Prop) (c : M A) : Prop :=
  forall w, R w (snd (c w)).

(** A token as the search of the second file can produce it: not empty,
    lower-case, without white space around it, without comma. *)
Definition clean_token (t : string) : Prop :=
  t <> EmptyString
  /\ lower t = t
  /\ WordSearch.strip t = t
  /\ ","%char ∉ list_ascii_of_string t.

(** The characters left by [strip]. *)
Definition strip_chars (cs : list ascii) : list ascii :=
  rev (WordSearch.lstrip (rev (WordSearch.lstrip cs))).

(** A lower-case hexadecimal digit. *)
Definition is_hex_digit (c : ascii) : Prop :=
  c ∈ list_ascii_of_string "0123456789abcdef".

(* ===================================================================== *)
(** ** What the search sections show *)
(* ===================================================================== *)

(** The Streamlit calls of the search sections, in the order they are
    made. *)
Inductive widget : Type :=
  | Subheader (text : string)
  | Markdown (text : string)
  | Write (text : string)
  | Warning (text : string).

(** The world together with what has been put on the page so far. *)
Record page : Type := mkPage { session : world; screen : list widget }.

Definition UI (A : Type) : Type := page -> result A * page.

#[global] Instance UI_ret : MRet UI := fun A a p => (Ok a, p).
#[global] Instance UI_bind : MBind UI := fun A B f c p =>
  match c p with
  | (Ok a, p') => f a p'
  | (Raise e, p') => (Raise e, p')
  end.

(** A computation of the script run on the world of the page. *)
Definition run {A : Type} (c : M A) : UI A := fun p =>
  let '(r, w) := c (session p) in (r, mkPage w (screen p)).

(** [st.subheader], [st.markdown], [st.write], [st.warning]. *)
Definition show (x : widget) : UI unit := fun p =>
  (Ok tt, mkPage (session p) (screen p ++ [x])).

(** [for x in xs: body(x)] on a page. *)
Fixpoint for_each_shown {A : Type} (xs : list A) (body : A -> UI unit) : UI unit :=
  match xs with
  | [] => mret tt
  | x :: rest => body x;; for_each_shown rest body
  end.

(** [c.upper()] on the ASCII range. *)
Definition is_lower_ascii (c : ascii) : bool :=
  let n := nat_of_ascii c in ((97 <=? n) && (n <=? 122))%nat.

Definition is_upper_ascii (c : ascii) : bool :=
  let n := nat_of_ascii c in ((65 <=? n) && (n <=? 90))%nat.

Definition upper_ascii (c : ascii) : ascii :=
  if is_lower_ascii c then ascii_of_nat (nat_of_ascii c - 32) else c.

(** [s.title()] on the ASCII range: a letter that follows a letter is
    lower-cased, any other letter is upper-cased. *)
Fixpoint title_from (previous_is_cased : bool) (s : string) : string :=
  match s with
  | EmptyString => EmptyString
  | String c rest =>
      if is_lower_ascii c || is_upper_ascii c then
        String (if previous_is_cased then lower_ascii c else upper_ascii c)
               (title_from true rest)
      else String c (title_from false rest)
  end.

Definition title (s : string) : string := title_from false s.

(** [v.title()] for a value of a row: only a str has the method. *)
Definition py_title (v : option pyval) : result string :=
  match v with
  | Some (PStr s) => Ok (title s)
  | _ => Raise AttributeError
  end.

Section Pages.

(** [str(v)] for a value that is not a str, and [str(e)] for an
    exception: the texts Python puts into an f-string. *)
Context (str_of : pyval -> string) (exn_text : exn -> string).

Context (E : env).

(** [f"{v}"] for a value of a row; null is [None]. *)
Definition format_value (v : option pyval) : string :=
  match v with
  | None => "None"
  | Some (PStr s) => s
  | Some other => str_of other
  end.

(** The f-string prompt of the summary. *)
Definition summary_prompt (content : option pyval) : string :=
  String.concat EmptyString [
    newline;
    "You are a professional recruiter assistant."; newline;
    newline;
    "Here is a candidate's resume:"; newline;
    newline;
    format_value content; newline;
    newline;
    "Give a short professional summary (3-4 lines) of this candidate, including key skills, experience, and any notable achievements. Avoid repeating lines from the resume. Be concise and helpful for recruiters."; newline;
    newline;
    "Only provide the summary. Do not include explanations or headers."; newline ].

Definition summary_messages (content : option pyval) : list message :=
  [ SystemMessage "You are a helpful recruiter assistant.";
    HumanMessage (summary_prompt content) ].

(** The [try] block around the summary call. *)
Definition generate_summary (res : row) : M string :=
  try_except
    (summary_response ← llm_call E (summary_messages (snd res));
     mret (WordSearch.strip summary_response))
    (fun e => mret ("Error generating summary: " ++ exn_text e)%string).

(** The body of [for res in results] in with_word_search_only.py. *)
Definition show_candidate (res : row) : UI unit :=
  heading ← run (lift (py_title (fst res)));
  show (Markdown ("### " ++ heading)%string);;
  summary ← run (generate_summary res);
  show (Write summary).

(** The search section of with_word_search_only.py, with what it shows. *)
Definition word_search_page (user_skills_input : string) : UI unit :=
  let skill_query := WordSearch.parse_skills user_skills_input in
  match skill_query with
  | [] => mret tt
  | _ =>
      results ← run (store_request E
                       (fun g => (g, WordSearch.multi_skill_rows skill_query g)));
      show (Subheader ("Candidates matching skills: "
                       ++ String.concat ", " skill_query)%string);;
      match results with
      | [] => show (Warning "No candidates found for the selected skills.")
      | _ => for_each_shown results show_candidate
      end
  end.

(** The search section of main4.py, with what it shows. *)
Definition main4_search_page (skill_query : string) : UI unit :=
  if String.eqb skill_query EmptyString then mret tt
  else
    results ← run (store_request E (fun g => (g, Main4.skill_rows skill_query g)));
    show (Subheader ("Candidates with skill: " ++ skill_query)%string);;
    match results with
    | [] => show (Warning "No candidates found for the selected skill.")
    | _ =>
        for_each_shown results (fun res =>
          show (Markdown ("**" ++ format_value (fst res) ++ "**" ++ newline)%string))
    end.

(** What one row adds to the page when the model is at its [k]-th call,
    for a row whose name is the str [name]. *)
Definition shown_candidate (k : nat) (name : string) (content : option pyval)
    : list widget :=
  [ Markdown ("### " ++ title name)%string;
    Write match llm E k (summary_messages content) with
          | Some answer => WordSearch.strip answer
          | None => ("Error generating summary: " ++ exn_text LLMError)%string
          end ].

End Pages.

(** The str names of rows. *)
Definition row_name (res : row) : option string :=
  match fst res with
  | Some (PStr s) => Some s
  | _ => None
  end.

(** The world after [n] more calls of the model and nothing else. *)
Definition after_llm_calls (n : nat) (w : world) : world :=
  mkWorld (graph w) (processed_files w) (n + llm_calls w) (store_calls w).

(** What the rows add to the page, one after the other, when the model is
    at its [k]-th call. *)
Fixpoint shown_candidates (str_of : pyval -> string) (exn_text : exn -> string)
    (E : env) (k : nat) (rows : list row) : list widget :=
  match rows with
  | [] => []
  | res :: rest =>
      shown_candidate str_of exn_text E k (default EmptyString (row_name res)) (snd res)
      ++ shown_candidates str_of exn_text E (S k) rest
  end.

(** Every Candidate node has a str name. *)
Definition names_are_str (g : Graph) : Prop :=
  forall i n, nodes g !! i = Some n -> label n = "Candidate" ->
    exists s, assoc "name" (props n) = Some (PStr s).

(** From [w] to [w'] the str names were kept. *)
Definition keeps_names (w w' : world) : Prop :=
  names_are_str (graph w) -> names_are_str (graph w').

(** ** The scenario, continued *)


(** The model at the time of the summaries of [world_AB]: its third call
    is answered, its fourth raises. *)
Definition summary_env : env :=
  scripted_env [None; None; Some "  Seasoned data engineer.  "; None]
               demo_table (fun _ => true).

Definition plain_str_of (v : pyval) : string := "?".
Definition plain_exn_text (e : exn) : string := "connection lost".

(** A session in which [a.pdf] has been processed. *)
Definition seen_world : world := mkWorld empty_graph {[ "a.pdf" ]} 0 0.

(* ===================================================================== *)
(** * Properties *)
(* ===================================================================== *)

(** ** Merging nodes and relationships *)

Section MergeLemmas.

Implicit Types (g : Graph) (n m : node) (l k : string) (i j : nat).

Lemma merge_node_rels n l k g : rels (fst (merge_node n l k g)) = rels g.
Proof. unfold merge_node. by destruct (list_find _ _) as [[]|]. Qed.

Lemma merge_rel_nodes r g : nodes (fst (merge_rel r g)) = nodes g.
Proof. unfold merge_rel. by case_decide. Qed.

Lemma merge_rel_elem r g : r ∈ rels (fst (merge_rel r g)).
Proof. unfold merge_rel. case_decide; simpl; [done | set_solver]. Qed.

Lemma merge_rel_mono r r' g : r' ∈ rels g -> r' ∈ rels (fst (merge_rel r g)).
Proof. unfold merge_rel. case_decide; simpl; [done | set_solver]. Qed.

Lemma merge_rel_noop r g : r ∈ rels g -> merge_rel r g = (g, tt).
Proof. intros. unfold merge_rel. by rewrite decide_True. Qed.

(** After a merge the node is settled at the identity returned. *)
Lemma merge_node_settles n l k g :
  label n = l ->
  settled n l k (snd (merge_node n l k g)) (fst (merge_node n l k g)).
Proof.
  intros Hl. unfold settled, merge_node.
  destruct (list_find (same_key l k n) (nodes g)) as [[i m]|] eqn:Hf; simpl.
  - apply list_find_Some in Hf as (Hi & _ & Hleast).
    apply list_find_Some. split_and!.
    + apply list_lookup_insert_eq. by eapply lookup_lt_Some.
    + by split.
    + intros j y Hj Hlt. rewrite list_lookup_insert_ne in Hj by lia. eauto.
  - apply list_find_Some. split_and!.
    + rewrite lookup_app_r by lia. by rewrite Nat.sub_diag.
    + by split.
    + intros j y Hj Hlt. rewrite lookup_app_l in Hj by lia.
      apply list_find_None in Hf. eapply Forall_lookup_1 in Hf; eauto.
Qed.

(** Merging a settled node changes nothing. *)
Lemma settled_noop n l k i g : settled n l k i g -> merge_node n l k g = (g, i).
Proof.
  unfold settled, merge_node. intros Hs. rewrite Hs.
  apply list_find_Some in Hs as (Hi & _). rewrite list_insert_id by done.
  by destruct g.
Qed.

Lemma settled_inj n l k i j g : settled n l k i g -> settled n l k j g -> i = j.
Proof. unfold settled. congruence. Qed.

Lemma settled_lookup n l k i g : settled n l k i g -> nodes g !! i = Some n.
Proof. unfold settled. intros Hs. by apply list_find_Some in Hs as (? & _). Qed.

Lemma settled_preserved n l k i n' l' k' g :
  label n' = l' ->
  compatible n l k n' l' k' ->
  settled n l k i g ->
  settled n l k i (fst (merge_node n' l' k' g)).
Proof.
  intros Hl' Hc Hs. unfold settled in *. unfold merge_node.
  destruct (list_find (same_key l' k' n') _) as [[j m]|] eqn:Hf; simpl.
  - pose proof Hs as Hs0.
    apply list_find_Some in Hs as (Hi & [Hln _] & Hleast).
    pose proof Hf as Hf0.
    apply list_find_Some in Hf as (Hj & [Hlm Hkm] & _).
    apply list_find_Some. split_and!.
    + destruct (decide (j = i)) as [->|Hne].
      * rewrite list_lookup_insert_eq by (by eapply lookup_lt_Some).
        assert (m = n) as -> by congruence.
        destruct Hc as [-> Hsame]; [congruence|]. f_equal. by apply Hsame.
      * by rewrite list_lookup_insert_ne.
    + by split.
    + intros j' y Hj' Hlt.
      destruct (decide (j = j')) as [->|Hne].
      * rewrite list_lookup_insert_eq in Hj' by (by eapply lookup_lt_Some).
        injection Hj' as <-. intros [Hly Hky].
        destruct Hc as [-> Hsame]; [congruence|].
        specialize (Hsame Hky). subst n'.
        assert (l' = l) as -> by congruence.
        rewrite Hs0 in Hf0. injection Hf0 as -> ->. lia.
      * rewrite list_lookup_insert_ne in Hj' by done. eauto.
  - by apply list_find_app_l.
Qed.

End MergeLemmas.

(** ** One ingestion on the graph *)

Section UpsertLemmas.

Implicit Types (g : Graph) (n m : node) (l k : string) (r : relationship) (i j c : nat)
  (t : string * string * pyval) (plan : list (string * string * pyval)).

Lemma attribute_compatible l item l' item' :
  compatible (attribute_node l item) l "name" (attribute_node l' item') l' "name".
Proof. intros ->. split; [done|]. simpl. by intros [= ->]. Qed.

Lemma candidate_attribute_compatible cand l item :
  l <> "Candidate" ->
  compatible cand "Candidate" "content_hash" (attribute_node l item) l "name".
Proof. intros Hl Heq. congruence. Qed.

Lemma settled_merge_rel m l k i r g :
  settled m l k i g -> settled m l k i (fst (merge_rel r g)).
Proof. unfold settled. by rewrite merge_rel_nodes. Qed.

Lemma link_rels_mono c g t r : r ∈ rels g -> r ∈ rels (link c g t).
Proof.
  destruct t as [[l rt] item]. unfold link. intros Hr.
  destruct (merge_node _ _ _ g) as [g1 n] eqn:Hm.
  apply merge_rel_mono. replace g1 with (fst (merge_node (attribute_node l item) l "name" g))
    by (by rewrite Hm). by rewrite merge_node_rels.
Qed.

Lemma link_preserves c g t m l0 k0 i :
  compatible m l0 k0 (attribute_node t.1.1 t.2) t.1.1 "name" ->
  settled m l0 k0 i g -> settled m l0 k0 i (link c g t).
Proof.
  destruct t as [[l rt] item]. simpl. unfold link. intros Hc Hs.
  destruct (merge_node _ _ _ g) as [g1 n] eqn:Hm.
  apply settled_merge_rel.
  replace g1 with (fst (merge_node (attribute_node l item) l "name" g)) by (by rewrite Hm).
  by apply settled_preserved.
Qed.

Lemma link_links c g t : linked c (link c g t) t.
Proof.
  destruct t as [[l rt] item]. unfold link, linked.
  destruct (merge_node _ _ _ g) as [g1 n] eqn:Hm.
  exists n. split.
  - apply settled_merge_rel.
    pose proof (merge_node_settles (attribute_node l item) l "name" g eq_refl) as Hs.
    by rewrite Hm in Hs.
  - apply merge_rel_elem.
Qed.

Lemma link_keeps c g t t0 : linked c g t0 -> linked c (link c g t) t0.
Proof.
  destruct t0 as [[l0 r0] item0]. intros (n & Hs & Hr). exists n. split.
  - apply link_preserves; [|done]. apply attribute_compatible.
  - by apply link_rels_mono.
Qed.

Lemma link_noop c g t : linked c g t -> link c g t = g.
Proof.
  destruct t as [[l rt] item]. intros (n & Hs & Hr). simpl in *. unfold link.
  rewrite (settled_noop _ _ _ _ _ Hs). by rewrite merge_rel_noop.
Qed.

Lemma fold_link_rels_mono c plan g r :
  r ∈ rels g -> r ∈ rels (fold_left (link c) plan g).
Proof.
  revert g. induction plan as [|t plan IH]; intros g Hr; simpl; [done|].
  by apply IH, link_rels_mono.
Qed.

Lemma fold_link_preserves c plan g m l0 k0 i :
  Forall (fun t => compatible m l0 k0 (attribute_node t.1.1 t.2) t.1.1 "name") plan ->
  settled m l0 k0 i g -> settled m l0 k0 i (fold_left (link c) plan g).
Proof.
  revert g. induction plan as [|t plan IH]; intros g Hc Hs; simpl; [done|].
  inversion Hc; subst. apply IH; [done|]. by apply link_preserves.
Qed.

Lemma fold_link_keeps c plan g t0 :
  linked c g t0 -> linked c (fold_left (link c) plan g) t0.
Proof.
  revert g. induction plan as [|t plan IH]; intros g Hl; simpl; [done|].
  by apply IH, link_keeps.
Qed.

Lemma fold_link_links c plan g :
  Forall (linked c (fold_left (link c) plan g)) plan.
Proof.
  revert g. induction plan as [|t plan IH]; intros g; simpl; constructor.
  - apply fold_link_keeps, link_links.
  - apply IH.
Qed.

Lemma fold_link_noop c plan g :
  Forall (linked c g) plan -> fold_left (link c) plan g = g.
Proof.
  induction plan as [|t plan IH]; intros Hl; simpl; [done|].
  inversion Hl; subst. rewrite link_noop by done. by apply IH.
Qed.

Lemma attribute_plan_compatible cand plan :
  attribute_plan plan ->
  Forall (fun t => compatible cand "Candidate" "content_hash"
                     (attribute_node t.1.1 t.2) t.1.1 "name") plan.
Proof.
  intros Hp. eapply Forall_impl; [exact Hp|].
  intros t Ht. by apply candidate_attribute_compatible.
Qed.

(** What an ingestion leaves: the candidate settled, every turn linked. *)
Lemma upsert_with_spec cand plan g :
  label cand = "Candidate" -> attribute_plan plan ->
  let c := snd (merge_node cand "Candidate" "content_hash" g) in
  settled cand "Candidate" "content_hash" c (upsert_with cand plan g)
  /\ Forall (linked c (upsert_with cand plan g)) plan.
Proof.
  intros Hl Hp. unfold upsert_with.
  pose proof (merge_node_settles cand "Candidate" "content_hash" g Hl) as Hs.
  destruct (merge_node cand _ _ g) as [g1 c] eqn:Hm. simpl in *. split.
  - apply fold_link_preserves; [|done]. by apply attribute_plan_compatible.
  - apply fold_link_links.
Qed.

Lemma upsert_with_settled cand plan g c :
  settled cand "Candidate" "content_hash" c g ->
  Forall (linked c g) plan ->
  upsert_with cand plan g = g.
Proof.
  intros Hs Hl. unfold upsert_with. rewrite (settled_noop _ _ _ _ _ Hs).
  by apply fold_link_noop.
Qed.

Lemma upsert_with_idempotent cand plan g :
  label cand = "Candidate" -> attribute_plan plan ->
  upsert_with cand plan (upsert_with cand plan g) = upsert_with cand plan g.
Proof.
  intros Hl Hp. destruct (upsert_with_spec cand plan g Hl Hp) as [Hs Hk].
  by eapply upsert_with_settled.
Qed.

End UpsertLemmas.

(** ** Running the scripts *)

Section RunLemmas.

Context (E : env).

Lemma bind_ok {A B : Type} (c : M A) (f : A -> M B) w a w' :
  c w = (Ok a, w') -> (c ≫= f) w = f a w'.
Proof. intros H. unfold mbind, M_bind. by rewrite H. Qed.

Lemma bind_raise {A B : Type} (c : M A) (f : A -> M B) w e w' :
  c w = (Raise e, w') -> (c ≫= f) w = (Raise e, w').
Proof. intros H. unfold mbind, M_bind. by rewrite H. Qed.

Lemma store_request_up {A : Type} (op : Graph -> Graph * A) w :
  store_up E (store_calls w) = true ->
  store_request E op w =
    (Ok (snd (op (graph w))),
     mkWorld (fst (op (graph w))) (processed_files w) (llm_calls w) (S (store_calls w))).
Proof. intros H. unfold store_request. rewrite H. by destruct (op (graph w)). Qed.

End RunLemmas.

Section RunIngestion.

Context (E : env) (Hup : always_up E).

(** The inner loop with a normalisation of each item before its node is
    built. *)
Lemma inner_loop_norm_run (norm : pyval -> result pyval) (l rt : string) (c : nat)
    (its normed : list pyval) w :
  comprehension norm its = Ok normed ->
  for_each its (fun item =>
      item' ← lift (norm item);
      n ← graph_merge E (Node l [("name", item')]) l "name";
      graph_merge_rel E (Relationship c rt n)) w
  = (Ok tt,
     mkWorld (fold_left (link c) (map (fun item => (l, rt, item)) normed) (graph w))
             (processed_files w) (llm_calls w)
             (store_calls w + 2 * List.length normed)%nat).
Proof.
  revert w normed. induction its as [|item its IH]; intros w normed Hn.
  - injection Hn as <-. destruct w. unfold for_each, mret, M_ret. simpl.
    do 2 f_equal. lia.
  - cbn [comprehension] in Hn.
    destruct (norm item) as [item'|] eqn:Hi; [|done].
    destruct (comprehension norm its) as [normed'|] eqn:Hc; [|done].
    injection Hn as <-.
    cbn [for_each]. erewrite bind_ok; cycle 1.
    { erewrite bind_ok; cycle 1.
      { rewrite Hi. reflexivity. }
      erewrite bind_ok; cycle 1.
      { unfold graph_merge. apply store_request_up, Hup. }
      unfold graph_merge_rel. apply store_request_up, Hup. }
    rewrite (IH _ normed') by done.
    cbn [graph processed_files llm_calls store_calls map fold_left List.length].
    do 2 f_equal.
    + f_equal. unfold link, attribute_node.
      by destruct (merge_node _ l "name" (graph w)).
    + lia.
Qed.

(** The outer loop over the field values. *)
Lemma outer_loop_run (norm : pyval -> result pyval) (c : nat)
    (fields plan : list (string * string * pyval)) w :
  flat_plan norm fields = Ok plan ->
  for_each fields (fun '(l, rt, items) =>
      its ← lift (py_iter items);
      for_each its (fun item =>
        item' ← lift (norm item);
        n ← graph_merge E (Node l [("name", item')]) l "name";
        graph_merge_rel E (Relationship c rt n))) w
  = (Ok tt,
     mkWorld (fold_left (link c) plan (graph w))
             (processed_files w) (llm_calls w)
             (store_calls w + 2 * List.length plan)%nat).
Proof.
  revert w plan. induction fields as [|[[l rt] items] fields IH]; intros w plan Hp.
  - injection Hp as <-. destruct w. unfold for_each, mret, M_ret. simpl.
    do 2 f_equal. lia.
  - cbn [flat_plan] in Hp.
    destruct (py_iter items) as [its|] eqn:Hi; [|done].
    cbn [mbind result_bind] in Hp.
    destruct (comprehension norm its) as [normed|] eqn:Hc; [|done].
    destruct (flat_plan norm fields) as [more|] eqn:Hm; [|done].
    injection Hp as <-.
    cbn [for_each]. erewrite bind_ok; cycle 1.
    { erewrite bind_ok; cycle 1.
      { rewrite Hi. reflexivity. }
      by apply inner_loop_norm_run. }
    rewrite (IH _ more) by done.
    cbn [graph processed_files llm_calls store_calls].
    rewrite fold_left_app, length_app, length_map. do 2 f_equal. lia.
Qed.

End RunIngestion.

Section RunAddCandidate.

Context (E : env) (Hup : always_up E).

(** [Main4.add_candidate_to_neo4j], all requests served. *)
Lemma main4_add_candidate_run data resume_text name plan w :
  resolve Ok data = Ok (name, plan) ->
  Main4.add_candidate_to_neo4j E data resume_text w
  = (Ok tt,
     mkWorld (upsert_with (candidate_node name resume_text) plan (graph w))
             (processed_files w) (llm_calls w)
             (store_calls w + 1 + 2 * List.length plan)%nat).
Proof.
  unfold resolve. intros Hr.
  destruct (py_get data "name" (PStr "Unknown")) as [name0|] eqn:Hn; [|done].
  cbn [mbind result_bind] in Hr.
  destruct (comprehension _ categories) as [fields|] eqn:Hf; [|done].
  cbn [mbind result_bind] in Hr.
  destruct (flat_plan Ok fields) as [plan0|] eqn:Hp; [|done].
  injection Hr as <- <-.
  unfold Main4.add_candidate_to_neo4j.
  erewrite bind_ok; cycle 1.
  { rewrite Hn. reflexivity. }
  erewrite bind_ok; cycle 1.
  { unfold graph_merge. apply store_request_up, Hup. }
  erewrite bind_ok; cycle 1.
  { rewrite Hf. reflexivity. }
  pose proof (outer_loop_run E Hup Ok (merge_node (candidate_node name0 resume_text)
     "Candidate" "content_hash" (graph w)).2 fields plan0) as Hloop.
  unfold lift at 2 in Hloop. unfold mbind at 2, M_bind in Hloop. 
  rewrite Hloop by done.
  cbn [graph processed_files llm_calls store_calls].
  unfold upsert_with, candidate_node.
  destruct (merge_node _ "Candidate" "content_hash" (graph w)). simpl.
  do 2 f_equal. lia.
Qed.

(** [WordSearch.add_candidate_to_neo4j], all requests served. *)
Lemma word_add_candidate_run data resume_text name plan w :
  resolve py_lower data = Ok (name, plan) ->
  WordSearch.add_candidate_to_neo4j E data resume_text w
  = (Ok tt,
     mkWorld (upsert_with (candidate_node name resume_text) plan (graph w))
             (processed_files w) (llm_calls w)
             (store_calls w + 1 + 2 * List.length plan)%nat).
Proof.
  unfold resolve. intros Hr.
  destruct (py_get data "name" (PStr "Unknown") ≫= py_lower) as [name0|] eqn:Hn; [|done].
  cbn [mbind result_bind] in Hr.
  destruct (comprehension _ categories) as [fields|] eqn:Hf; [|done].
  cbn [mbind result_bind] in Hr.
  destruct (flat_plan py_lower fields) as [plan0|] eqn:Hp; [|done].
  injection Hr as <- <-.
  unfold WordSearch.add_candidate_to_neo4j.
  erewrite bind_ok; cycle 1.
  { rewrite Hn. reflexivity. }
  erewrite bind_ok; cycle 1.
  { unfold graph_merge. apply store_request_up, Hup. }
  erewrite bind_ok; cycle 1.
  { rewrite Hf. reflexivity. }
  rewrite (outer_loop_run E Hup py_lower _ fields plan0) by done.
  cbn [graph processed_files llm_calls store_calls].
  unfold upsert_with, candidate_node.
  destruct (merge_node _ "Candidate" "content_hash" (graph w)). simpl.
  do 2 f_equal. lia.
Qed.

End RunAddCandidate.

(** ** Well-typed profiles *)

Lemma comprehension_ok_PStr (ss : list string) :
  comprehension Ok (map PStr ss) = Ok (map PStr ss).
Proof. induction ss as [|s ss IH]; simpl; [done|]. by rewrite IH. Qed.

Lemma comprehension_lower_PStr (ss : list string) :
  comprehension py_lower (map PStr ss) = Ok (map PStr (map lower ss)).
Proof. induction ss as [|s ss IH]; simpl; [done|]. by rewrite IH. Qed.

Lemma tagged_map l rt (ss : list string) :
  map (fun item => (l, rt, item)) (map PStr ss) = tagged l rt ss.
Proof. unfold tagged. by rewrite map_map. Qed.

Lemma resolve_profile (P : Profile) :
  resolve Ok (profile_data P) = Ok (PStr (p_name P), plan_of P).
Proof.
  unfold resolve, profile_data, plan_of. cbn.
  rewrite !comprehension_ok_PStr. cbn.
  by rewrite !tagged_map, app_nil_r.
Qed.

Lemma resolve_profile_lower (P : Profile) :
  resolve py_lower (profile_data P)
  = Ok (PStr (lower (p_name P)), plan_of (lower_profile P)).
Proof.
  unfold resolve, profile_data, plan_of. cbn.
  rewrite !comprehension_lower_PStr. cbn.
  by rewrite !tagged_map, app_nil_r.
Qed.

Lemma attribute_plan_tagged l rt ss :
  l <> "Candidate" -> attribute_plan (tagged l rt ss).
Proof. intros Hl. unfold attribute_plan, tagged. apply Forall_map. by apply Forall_true. Qed.

Lemma attribute_plan_of (P : Profile) : attribute_plan (plan_of P).
Proof.
  unfold plan_of, attribute_plan. rewrite !Forall_app.
  split_and!; by apply attribute_plan_tagged.
Qed.


(** ** Invariants of the graph *)

Section Invariants.

Implicit Types (g : Graph) (n m : node) (l k : string) (i j c : nat)
  (t : string * string * pyval) (plan : list (string * string * pyval)).

Lemma unique_keys_empty : unique_keys empty_graph.
Proof. intros i j ni nj Hi. simpl in Hi. by rewrite lookup_nil in Hi. Qed.

Lemma merge_node_unique n l g :
  label n = l -> unique_keys g -> unique_keys (fst (merge_node n l (key_of l) g)).
Proof.
  intros Hl Hu. unfold merge_node.
  destruct (list_find (same_key l (key_of l) n) (nodes g)) as [[i m]|] eqn:Hf; simpl.
  - apply list_find_Some in Hf as (Hi & [Hlm Hkm] & _).
    assert (forall a na b nb, a = i -> b <> i ->
              <[i:=n]> (nodes g) !! a = Some na -> nodes g !! b = Some nb ->
              label na = label nb ->
              assoc (key_of (label na)) (props na) = assoc (key_of (label nb)) (props nb) ->
              a = b) as Hcase.
    { intros a na b nb -> Hb Ha Hnb Hlab Hkey.
      rewrite list_lookup_insert_eq in Ha by (by eapply lookup_lt_Some).
      injection Ha as Hna. subst na.
      apply (Hu i b m nb); [done|done|congruence|].
      rewrite <- Hlab in Hkey |- *. rewrite Hl in Hkey |- *. rewrite Hlm. congruence. }
    intros a b na nb Ha Hb Hlab Hkey. simpl in Ha, Hb.
    destruct (decide (a = i)) as [Hai|Hai], (decide (b = i)) as [Hbi|Hbi].
    + congruence.
    + rewrite list_lookup_insert_ne in Hb by done. by eapply Hcase.
    + rewrite list_lookup_insert_ne in Ha by done. symmetry. by eapply Hcase.
    + rewrite list_lookup_insert_ne in Ha, Hb by done. by eapply Hu.
  - apply list_find_None in Hf.
    assert (forall a na b nb, a = List.length (nodes g) -> (b < List.length (nodes g))%nat ->
              (nodes g ++ [n]) !! a = Some na -> nodes g !! b = Some nb ->
              label na = label nb ->
              assoc (key_of (label na)) (props na) = assoc (key_of (label nb)) (props nb) ->
              False) as Hcase.
    { intros a na b nb -> Hb Ha Hnb Hlab Hkey.
      rewrite lookup_app_r, Nat.sub_diag in Ha by lia. injection Ha as Hna. subst na.
      eapply Forall_lookup_1 in Hf; [|exact Hnb]. apply Hf. split; [congruence|].
      rewrite <- Hlab in Hkey. rewrite Hl in Hkey. congruence. }
    intros a b na nb Ha Hb Hlab Hkey. simpl in Ha, Hb.
    pose proof (lookup_lt_Some _ _ _ Ha) as Hla.
    pose proof (lookup_lt_Some _ _ _ Hb) as Hlb.
    rewrite length_app in Hla, Hlb. simpl in Hla, Hlb.
    destruct (decide (a = List.length (nodes g))) as [Hai|Hai],
             (decide (b = List.length (nodes g))) as [Hbi|Hbi].
    + congruence.
    + exfalso. rewrite lookup_app_l in Hb by lia. eapply Hcase; eauto. lia.
    + exfalso. rewrite lookup_app_l in Ha by lia. eapply (Hcase b nb a na); eauto. lia.
    + rewrite lookup_app_l in Ha, Hb by lia. by eapply Hu.
Qed.

Lemma merge_rel_unique r g : unique_keys g -> unique_keys (fst (merge_rel r g)).
Proof. unfold unique_keys. by rewrite merge_rel_nodes. Qed.

Lemma merge_rel_NoDup r g : NoDup (rels g) -> NoDup (rels (fst (merge_rel r g))).
Proof.
  intros Hn. unfold merge_rel. case_decide; simpl; [done|].
  apply NoDup_app. split_and!; [done| |apply NoDup_singleton].
  intros x Hx ->%list_elem_of_singleton. done.
Qed.

Lemma key_of_attribute l : l <> "Candidate" -> key_of l = "name".
Proof. intros. unfold key_of. by rewrite decide_False. Qed.

Lemma link_unique c g t :
  t.1.1 <> "Candidate" -> unique_keys g -> unique_keys (link c g t).
Proof.
  destruct t as [[l rt] item]. simpl. intros Hl Hu. unfold link.
  pose proof (merge_node_unique (attribute_node l item) l g eq_refl Hu) as Hm.
  rewrite key_of_attribute in Hm by done.
  destruct (merge_node _ l "name" g) as [g1 n]. by apply merge_rel_unique.
Qed.

Lemma link_NoDup c g t : NoDup (rels g) -> NoDup (rels (link c g t)).
Proof.
  destruct t as [[l rt] item]. intros Hn. unfold link.
  pose proof (merge_node_rels (attribute_node l item) l "name" g) as Hr.
  destruct (merge_node _ l "name" g) as [g1 n]. simpl in Hr.
  apply merge_rel_NoDup. by rewrite Hr.
Qed.

Lemma fold_link_unique c plan g :
  attribute_plan plan -> unique_keys g -> unique_keys (fold_left (link c) plan g).
Proof.
  revert g. induction plan as [|t plan IH]; intros g Hp Hu; simpl; [done|].
  inversion Hp; subst. apply IH; [done|]. by apply link_unique.
Qed.

Lemma fold_link_NoDup c plan g :
  NoDup (rels g) -> NoDup (rels (fold_left (link c) plan g)).
Proof.
  revert g. induction plan as [|t plan IH]; intros g Hn; simpl; [done|].
  by apply IH, link_NoDup.
Qed.

Lemma upsert_with_unique cand plan g :
  label cand = "Candidate" -> attribute_plan plan ->
  unique_keys g -> unique_keys (upsert_with cand plan g).
Proof.
  intros Hl Hp Hu. unfold upsert_with.
  pose proof (merge_node_unique cand "Candidate" g Hl Hu) as Hm.
  change (key_of "Candidate") with "content_hash" in Hm.
  destruct (merge_node cand _ _ g) as [g1 c]. by apply fold_link_unique.
Qed.

Lemma upsert_with_NoDup cand plan g :
  NoDup (rels g) -> NoDup (rels (upsert_with cand plan g)).
Proof.
  intros Hn. unfold upsert_with.
  pose proof (merge_node_rels cand "Candidate" "content_hash" g) as Hr.
  destruct (merge_node cand _ _ g) as [g1 c]. simpl in Hr.
  apply fold_link_NoDup. by rewrite Hr.
Qed.

Lemma upsert_with_rels_mono cand plan g r :
  r ∈ rels g -> r ∈ rels (upsert_with cand plan g).
Proof.
  intros Hr. unfold upsert_with.
  pose proof (merge_node_rels cand "Candidate" "content_hash" g) as Hm.
  destruct (merge_node cand _ _ g) as [g1 c]. simpl in Hm.
  apply fold_link_rels_mono. by rewrite Hm.
Qed.

(** A settled node survives a later ingestion that is compatible with it. *)
Lemma upsert_with_preserves cand plan g m l0 k0 i :
  label cand = "Candidate" ->
  compatible m l0 k0 cand "Candidate" "content_hash" ->
  Forall (fun t => compatible m l0 k0 (attribute_node t.1.1 t.2) t.1.1 "name") plan ->
  settled m l0 k0 i g -> settled m l0 k0 i (upsert_with cand plan g).
Proof.
  intros Hl Hc Hp Hs. unfold upsert_with.
  pose proof (settled_preserved m l0 k0 i cand "Candidate" "content_hash" g Hl Hc Hs) as Hm.
  destruct (merge_node cand _ _ g) as [g1 c]. by apply fold_link_preserves.
Qed.

End Invariants.

(** ** Two ingestions in a row *)

Section TwoIngestions.

Implicit Types (g : Graph) (n m cand : node) (l k : string) (i j c : nat)
  (t : string * string * pyval) (plan : list (string * string * pyval)).

Lemma merge_node_labels_found n l k g i m :
  label n = l ->
  list_find (same_key l k n) (nodes g) = Some (i, m) ->
  label <$> nodes (fst (merge_node n l k g)) = label <$> nodes g.
Proof.
  intros Hl Hf. unfold merge_node. rewrite Hf. simpl.
  apply list_find_Some in Hf as (Hi & [Hlm _] & _).
  rewrite list_fmap_insert. apply list_insert_id.
  rewrite list_lookup_fmap, Hi. simpl. congruence.
Qed.

Lemma merge_node_count_attribute n l k g :
  label n = l -> l <> "Candidate" ->
  candidate_count (fst (merge_node n l k g)) = candidate_count g.
Proof.
  intros Hl Hne. unfold candidate_count.
  destruct (list_find (same_key l k n) (nodes g)) as [[i m]|] eqn:Hf.
  - by erewrite merge_node_labels_found.
  - unfold merge_node. rewrite Hf. simpl.
    rewrite fmap_app, filter_app. simpl.
    rewrite filter_cons_False by congruence. by rewrite filter_nil, app_nil_r.
Qed.

Lemma link_count c g t :
  t.1.1 <> "Candidate" -> candidate_count (link c g t) = candidate_count g.
Proof.
  destruct t as [[l rt] item]. simpl. intros Hl. unfold link.
  pose proof (merge_node_count_attribute (attribute_node l item) l "name" g eq_refl Hl) as Hm.
  destruct (merge_node _ l "name" g) as [g1 n]. simpl in Hm.
  unfold candidate_count in *. by rewrite merge_rel_nodes.
Qed.

Lemma fold_link_count c plan g :
  attribute_plan plan -> candidate_count (fold_left (link c) plan g) = candidate_count g.
Proof.
  revert g. induction plan as [|t plan IH]; intros g Hp; simpl; [done|].
  inversion Hp; subst. rewrite IH by done. by apply link_count.
Qed.

(** Candidates with the same hash are the same merge target. *)
Lemma same_hash_find cand1 cand2 g :
  assoc "content_hash" (props cand1) = assoc "content_hash" (props cand2) ->
  list_find (same_key "Candidate" "content_hash" cand2) (nodes g)
  = list_find (same_key "Candidate" "content_hash" cand1) (nodes g).
Proof.
  intros Hh. apply list_find_ext. intros n. unfold same_key. by rewrite Hh.
Qed.

(** The second ingestion of a text lands on the candidate of the first. *)
Lemma second_ingestion_same_candidate cand1 cand2 plan1 plan2 g :
  label cand1 = "Candidate" -> label cand2 = "Candidate" ->
  attribute_plan plan1 -> attribute_plan plan2 ->
  assoc "content_hash" (props cand1) = assoc "content_hash" (props cand2) ->
  let g1 := upsert_with cand1 plan1 g in
  let g2 := upsert_with cand2 plan2 g1 in
  exists c,
    settled cand1 "Candidate" "content_hash" c g1
    /\ settled cand2 "Candidate" "content_hash" c g2
    /\ candidate_count g2 = candidate_count g1.
Proof.
  intros Hl1 Hl2 Hp1 Hp2 Hh g1 g2.
  destruct (upsert_with_spec cand1 plan1 g Hl1 Hp1) as [Hs1 _].
  destruct (upsert_with_spec cand2 plan2 g1 Hl2 Hp2) as [Hs2 _].
  fold g1 in Hs1. fold g2 in Hs2.
  set (c := snd (merge_node cand1 "Candidate" "content_hash" g)) in *.
  assert (list_find (same_key "Candidate" "content_hash" cand2) (nodes g1) = Some (c, cand1))
    as Hf by (by rewrite (same_hash_find cand1 cand2)).
  assert (snd (merge_node cand2 "Candidate" "content_hash" g1) = c) as Hc.
  { unfold merge_node. by rewrite Hf. }
  rewrite Hc in Hs2. exists c. split_and!; [done|done|].
  unfold g2, upsert_with.
  pose proof (merge_node_labels_found cand2 _ _ g1 c cand1 Hl2 Hf) as Hlab.
  destruct (merge_node cand2 _ _ g1) as [g1' c'].
  rewrite fold_link_count by done. unfold candidate_count. simpl in Hlab. by rewrite Hlab.
Qed.

(** A key value is carried by one node only. *)
Lemma settled_unique m l i g :
  unique_keys g -> label m = l -> settled m l (key_of l) i g ->
  forall j n, nodes g !! j = Some n -> label n = l ->
    assoc (key_of l) (props n) = assoc (key_of l) (props m) -> j = i.
Proof.
  intros Hu Hl Hs j n Hj Hln Hk.
  apply settled_lookup in Hs.
  apply (Hu j i n m); [done|done|congruence|]. by rewrite Hln, Hl.
Qed.

(** Two ingestions of different texts that name the same attribute share
    its node. *)
Lemma shared_attribute cand1 cand2 plan1 plan2 g t :
  label cand1 = "Candidate" -> label cand2 = "Candidate" ->
  attribute_plan plan1 -> attribute_plan plan2 ->
  assoc "content_hash" (props cand1) <> assoc "content_hash" (props cand2) ->
  t ∈ plan1 -> t ∈ plan2 ->
  unique_keys g ->
  let g2 := upsert_with cand2 plan2 (upsert_with cand1 plan1 g) in
  exists s c1 c2,
    c1 <> c2
    /\ nodes g2 !! c1 = Some cand1 /\ nodes g2 !! c2 = Some cand2
    /\ nodes g2 !! s = Some (attribute_node t.1.1 t.2)
    /\ (forall j n, nodes g2 !! j = Some n -> label n = t.1.1 ->
          assoc "name" (props n) = Some t.2 -> j = s)
    /\ Relationship c1 t.1.2 s ∈ rels g2
    /\ Relationship c2 t.1.2 s ∈ rels g2.
Proof.
  intros Hl1 Hl2 Hp1 Hp2 Hh Ht1 Ht2 Hu g2.
  set (g1 := upsert_with cand1 plan1 g) in *.
  destruct (upsert_with_spec cand1 plan1 g Hl1 Hp1) as [Hs1 Hk1].
  destruct (upsert_with_spec cand2 plan2 g1 Hl2 Hp2) as [Hs2 Hk2].
  fold g1 in Hs1, Hk1. fold g2 in Hs2, Hk2.
  set (c1 := snd (merge_node cand1 "Candidate" "content_hash" g)) in *.
  set (c2 := snd (merge_node cand2 "Candidate" "content_hash" g1)) in *.
  assert (t.1.1 <> "Candidate") as Hne.
  { unfold attribute_plan in Hp1. rewrite Forall_forall in Hp1. by apply Hp1. }
  rewrite Forall_forall in Hk1, Hk2.
  destruct (Hk1 t Ht1) as (s & Hss & Hr1).
  destruct (Hk2 t Ht2) as (s' & Hss' & Hr2).
  assert (settled cand1 "Candidate" "content_hash" c1 g2) as Hs1'.
  { apply upsert_with_preserves; [done| |by apply attribute_plan_compatible|done].
    intros _. split; [done|]. intros Heq. by destruct Hh. }
  assert (settled (attribute_node t.1.1 t.2) t.1.1 "name" s g2) as Hss2.
  { apply upsert_with_preserves; [done| | |done].
    - intros Heq. by destruct Hne.
    - apply Forall_forall. intros t' _. apply attribute_compatible. }
  assert (s' = s) as -> by (by eapply settled_inj).
  exists s, c1, c2. split_and!.
  - intros Heq. apply settled_lookup in Hs1', Hs2. rewrite Heq in Hs1'.
    apply Hh. congruence.
  - by eapply settled_lookup.
  - by eapply settled_lookup.
  - by eapply settled_lookup.
  - intros j n Hj Hln Hk.
    assert (unique_keys g2) as Hu2.
    { unfold g2, g1. apply upsert_with_unique; [done|done|].
      by apply upsert_with_unique. }
    rewrite <- (key_of_attribute t.1.1) in Hss2 by done.
    eapply (settled_unique _ _ _ _ Hu2 eq_refl Hss2); eauto.
    rewrite key_of_attribute by done. by rewrite Hk.
  - by apply upsert_with_rels_mono.
  - done.
Qed.

End TwoIngestions.

(** ** Ingestion of well-typed profiles *)

Lemma main4_add_profile_run (E : env) (P : Profile) (resume_text : string) (w : world) :
  always_up E ->
  Main4.add_candidate_to_neo4j E (profile_data P) resume_text w
  = (Ok tt,
     mkWorld (upsert P resume_text (graph w)) (processed_files w) (llm_calls w)
             (store_calls w + 1 + 2 * List.length (plan_of P))%nat).
Proof.
  intros Hup. by rewrite (main4_add_candidate_run E Hup _ _ _ _ w (resolve_profile P)).
Qed.

Lemma word_add_profile_run (E : env) (P : Profile) (resume_text : string) (w : world) :
  always_up E ->
  WordSearch.add_candidate_to_neo4j E (profile_data P) resume_text w
  = (Ok tt,
     mkWorld (upsert (lower_profile P) resume_text (graph w)) (processed_files w)
             (llm_calls w)
             (store_calls w + 1 + 2 * List.length (plan_of (lower_profile P)))%nat).
Proof.
  intros Hup.
  by rewrite (word_add_candidate_run E Hup _ _ _ _ w (resolve_profile_lower P)).
Qed.

Lemma upsert_twice_graph (P : Profile) (resume_text : string) (g : Graph) :
  upsert P resume_text (upsert P resume_text g) = upsert P resume_text g.
Proof. apply upsert_with_idempotent; [done | apply attribute_plan_of]. Qed.

Lemma settled_candidate_of name resume_text c g :
  settled (candidate_node name resume_text) "Candidate" "content_hash" c g ->
  candidate_of resume_text g = Some c.
Proof.
  unfold settled, candidate_of. intros Hs.
  rewrite (same_hash_find (candidate_node name resume_text)) by done.
  by rewrite Hs.
Qed.

Lemma tagged_elem l rt x ss : x ∈ ss -> (l, rt, PStr x) ∈ tagged l rt ss.
Proof. intros Hx. unfold tagged. apply list_elem_of_fmap. by exists x. Qed.

Lemma skill_in_plan x (P : Profile) :
  x ∈ p_skills P -> ("Skill", "HAS_SKILL", PStr x) ∈ plan_of P.
Proof. intros Hx. unfold plan_of. apply elem_of_app. left. by apply tagged_elem. Qed.

Lemma upsert_shares_skill (P1 P2 : Profile) (T1 T2 x : string) (g : Graph) :
  unique_keys g -> NoDup (rels g) ->
  get_pdf_hash T1 <> get_pdf_hash T2 ->
  x ∈ p_skills P1 -> x ∈ p_skills P2 ->
  let g2 := upsert P2 T2 (upsert P1 T1 g) in
  unique_keys g2 /\ NoDup (rels g2)
  /\ shares_skill g2 (candidate_node (PStr (p_name P1)) T1)
                     (candidate_node (PStr (p_name P2)) T2) x.
Proof.
  intros Hu Hn Hh H1 H2 g2. split_and!.
  - apply upsert_with_unique; [done|apply attribute_plan_of|].
    apply upsert_with_unique; [done|apply attribute_plan_of|done].
  - by do 2 apply upsert_with_NoDup.
  - apply (shared_attribute _ _ (plan_of P1) (plan_of P2) g ("Skill", "HAS_SKILL", PStr x));
      try done; try apply attribute_plan_of; try by apply skill_in_plan.
    simpl. congruence.
Qed.

(** C2. Upsert is idempotent: for every profile and every resume text, with
    the store answering, a second [add_candidate_to_neo4j] with the same
    arguments succeeds like the first and leaves the graph of the first
    call unchanged (same nodes, same relationships), in both files. *)
Theorem upsert_idempotent (E : env) (P : Profile) (resume_text : string) (w : world) :
  always_up E ->
  (exists w1 w2,
      Main4.add_candidate_to_neo4j E (profile_data P) resume_text w = (Ok tt, w1)
      /\ Main4.add_candidate_to_neo4j E (profile_data P) resume_text w1 = (Ok tt, w2)
      /\ graph w1 = upsert P resume_text (graph w)
      /\ graph w2 = graph w1)
  /\ (exists w1 w2,
      WordSearch.add_candidate_to_neo4j E (profile_data P) resume_text w = (Ok tt, w1)
      /\ WordSearch.add_candidate_to_neo4j E (profile_data P) resume_text w1 = (Ok tt, w2)
      /\ graph w1 = upsert (lower_profile P) resume_text (graph w)
      /\ graph w2 = graph w1).
Proof.
  intros Hup. split.
  - eexists _, _. split_and!.
    + by apply main4_add_profile_run.
    + by apply main4_add_profile_run.
    + done.
    + simpl. apply upsert_twice_graph.
  - eexists _, _. split_and!.
    + by apply word_add_profile_run.
    + by apply word_add_profile_run.
    + done.
    + simpl. apply upsert_twice_graph.
Qed.

(** C5. Attribute nodes are deduplicated by name within their category:
    ingestion keeps the graph free of two nodes with the same label and
    key and of repeated relationships, and two profiles ingested from
    different texts that both list a skill leave exactly one Skill node of
    that name, linked by HAS_SKILL from the two distinct candidates. *)
Theorem attribute_nodes_deduplicated (E : env) (P1 P2 : Profile) (T1 T2 x : string)
    (w : world) :
  always_up E ->
  unique_keys (graph w) -> NoDup (rels (graph w)) ->
  get_pdf_hash T1 <> get_pdf_hash T2 ->
  x ∈ p_skills P1 -> x ∈ p_skills P2 ->
  exists w1 w2,
    Main4.add_candidate_to_neo4j E (profile_data P1) T1 w = (Ok tt, w1)
    /\ Main4.add_candidate_to_neo4j E (profile_data P2) T2 w1 = (Ok tt, w2)
    /\ unique_keys (graph w2) /\ NoDup (rels (graph w2))
    /\ shares_skill (graph w2) (candidate_node (PStr (p_name P1)) T1)
                    (candidate_node (PStr (p_name P2)) T2) x.
Proof.
  intros Hup Hu Hn Hh H1 H2.
  destruct (upsert_shares_skill P1 P2 T1 T2 x (graph w) Hu Hn Hh H1 H2)
    as (Hu2 & Hn2 & Hshare).
  eexists _, _. split_and!.
  - by apply main4_add_profile_run.
  - by apply main4_add_profile_run.
  - exact Hu2.
  - exact Hn2.
  - exact Hshare.
Qed.

(** C7. The fingerprint depends on the text alone, and two ingestions of
    the same text, whatever the profiles extracted, resolve to one and
    the same Candidate node: the node found by the text's hash is the
    same after both, no other Candidate node carries that hash, and the
    second ingestion adds no Candidate node. *)
Theorem same_text_same_candidate_node (E : env) (P1 P2 : Profile) (resume_text : string)
    (w : world) :
  always_up E ->
  unique_keys (graph w) ->
  exists w1 w2 c,
    Main4.add_candidate_to_neo4j E (profile_data P1) resume_text w = (Ok tt, w1)
    /\ Main4.add_candidate_to_neo4j E (profile_data P2) resume_text w1 = (Ok tt, w2)
    /\ candidate_of resume_text (graph w1) = Some c
    /\ candidate_of resume_text (graph w2) = Some c
    /\ nodes (graph w1) !! c = Some (candidate_node (PStr (p_name P1)) resume_text)
    /\ nodes (graph w2) !! c = Some (candidate_node (PStr (p_name P2)) resume_text)
    /\ (forall j n, nodes (graph w2) !! j = Some n -> label n = "Candidate" ->
          assoc "content_hash" (props n) = Some (PStr (get_pdf_hash resume_text)) ->
          j = c)
    /\ candidate_count (graph w2) = candidate_count (graph w1).
Proof.
  intros Hup Hu.
  destruct (second_ingestion_same_candidate
              (candidate_node (PStr (p_name P1)) resume_text)
              (candidate_node (PStr (p_name P2)) resume_text)
              (plan_of P1) (plan_of P2) (graph w))
    as (c & Hs1 & Hs2 & Hcount); try done; try apply attribute_plan_of.
  assert (unique_keys (upsert P2 resume_text (upsert P1 resume_text (graph w)))) as Hu2.
  { apply upsert_with_unique; [done|apply attribute_plan_of|].
    apply upsert_with_unique; [done|apply attribute_plan_of|done]. }
  eexists _, _, c. split_and!.
  - by apply main4_add_profile_run.
  - by apply main4_add_profile_run.
  - simpl. by eapply settled_candidate_of.
  - simpl. by eapply settled_candidate_of.
  - simpl. by eapply settled_lookup.
  - simpl. by eapply settled_lookup.
  - simpl. intros j n Hj Hl Hk.
    eapply (settled_unique (candidate_node (PStr (p_name P2)) resume_text)
              "Candidate" c _ Hu2); [done|exact Hs2|exact Hj|exact Hl|exact Hk].
  - done.
Qed.

(** ** The multi-skill query *)

Section MultiSkill.

Implicit Types (g : Graph) (c s : nat) (skills : list string).

Lemma match_has_skill_elem g c s :
  (c, s) ∈ match_has_skill g <->
  Relationship c "HAS_SKILL" s ∈ rels g
  /\ label_of g c = Some "Candidate" /\ label_of g s = Some "Skill".
Proof.
  unfold match_has_skill. rewrite list_elem_of_omap. split.
  - intros ([a t b] & Hr & Hm). simpl in Hm.
    case_decide as Hd; [|done]. injection Hm as -> ->.
    destruct Hd as (-> & ? & ?). done.
  - intros (Hr & Hc & Hs). exists (Relationship c "HAS_SKILL" s). split; [done|].
    simpl. by rewrite decide_True.
Qed.

Lemma match_has_skill_candidate g c s :
  (c, s) ∈ match_has_skill g -> label_of g c = Some "Candidate".
Proof. intros H. by apply match_has_skill_elem in H as (_ & ? & _). Qed.

Lemma name_in_true g skills s :
  WordSearch.name_in g skills s = true <->
  exists x, prop g s "name" = Some (PStr x) /\ x ∈ skills.
Proof.
  unfold WordSearch.name_in. split.
  - destruct (prop g s "name") as [[]|]; try done.
    intros H%bool_decide_eq_true. eauto.
  - intros (x & -> & Hx). by apply bool_decide_eq_true.
Qed.

Lemma matched_elem g skills c s :
  (c, s) ∈ WordSearch.matched skills g <->
  (c, s) ∈ match_has_skill g
  /\ exists x, prop g s "name" = Some (PStr x) /\ x ∈ skills.
Proof.
  unfold WordSearch.matched. rewrite list_elem_of_filter. simpl.
  rewrite name_in_true. tauto.
Qed.

(** The names counted for candidate [c]: the required names among its
    skill names. *)
Lemma counted_names_elem g skills c v :
  v ∈ omap (fun cs => if decide (fst cs = c) then prop g (snd cs) "name" else None)
           (WordSearch.matched skills g)
  <-> v ∈ skill_names g c /\ exists x, v = PStr x /\ x ∈ skills.
Proof.
  unfold skill_names. rewrite !list_elem_of_omap. split.
  - intros ([c' s] & Hm & Hv). simpl in Hv. case_decide as Hd; [|done]. simpl in Hd. subst c'.
    apply matched_elem in Hm as (Hm & x & Hx & Hin). split.
    + exists (c, s). split; [done|]. simpl. by rewrite decide_True.
    + exists x. split; [congruence|done].
  - intros (([c' s] & Hm & Hv) & x & -> & Hx). simpl in Hv.
    case_decide as Hd; [|done]. simpl in Hd. subst c'.
    exists (c, s). split.
    + apply matched_elem. eauto.
    + simpl. by rewrite decide_True.
Qed.

Lemma PStr_NoDup skills : NoDup skills -> NoDup (PStr <$> skills).
Proof. apply NoDup_fmap_2. by intros ?? [=]. Qed.

(** The count reaches the number of required names exactly when every
    required name is among the candidate's skill names. *)
Lemma matchedSkills_full g skills c :
  NoDup skills ->
  WordSearch.matchedSkills skills g c = List.length skills
  <-> forall x, x ∈ skills -> PStr x ∈ skill_names g c.
Proof.
  intros Hnd. unfold WordSearch.matchedSkills.
  set (names := omap _ (WordSearch.matched skills g)).
  assert (forall v, v ∈ remove_dups names ->  v ∈ PStr <$> skills) as Hsub.
  { intros v Hv. apply (proj1 (elem_of_remove_dups _ _)) in Hv.
    apply counted_names_elem in Hv as (_ & x & -> & Hx).
    apply list_elem_of_fmap. eauto. }
  split.
  - intros Hlen x Hx.
    assert (PStr x ∈ remove_dups names) as Hin.
    { apply list_elem_of_In.
      apply (NoDup_length_incl (l := remove_dups names) (l' := PStr <$> skills)).
      - apply NoDup_ListNoDup, NoDup_remove_dups.
      - rewrite length_fmap. lia.
      - intros v Hv%list_elem_of_In. by apply list_elem_of_In, Hsub.
      - apply list_elem_of_In, list_elem_of_fmap. eauto. }
    apply (proj1 (elem_of_remove_dups _ _)) in Hin.
    by apply counted_names_elem in Hin as (? & _).
  - intros Hall.
    rewrite <- (length_fmap PStr skills).
    apply Permutation_length, NoDup_Permutation.
    + apply NoDup_remove_dups.
    + by apply PStr_NoDup.
    + intros v. split; [apply Hsub|].
      intros (x & -> & Hx)%list_elem_of_fmap.
      apply elem_of_remove_dups, counted_names_elem. split; [by apply Hall|eauto].
Qed.

Lemma skill_names_candidate g c v :
  v ∈ skill_names g c -> label_of g c = Some "Candidate".
Proof.
  unfold skill_names. intros ([c' s] & Hm & Hv)%list_elem_of_omap. simpl in Hv.
  case_decide as Hd; [|done]. simpl in Hd. subst c'.
  by eapply match_has_skill_candidate.
Qed.

Lemma groups_elem g skills c :
  c ∈ remove_dups (map fst (WordSearch.matched skills g)) <->
  exists x, x ∈ skills /\ PStr x ∈ skill_names g c.
Proof.
  rewrite elem_of_remove_dups. split.
  - intros ([c' s] & -> & Hm)%list_elem_of_fmap. simpl.
    apply matched_elem in Hm as (Hm & x & Hp & Hx). exists x. split; [done|].
    unfold skill_names. apply list_elem_of_omap. exists (c', s). split; [done|].
    simpl. by rewrite decide_True.
  - intros (x & Hx & Hn). unfold skill_names in Hn.
    apply list_elem_of_omap in Hn as ([c' s] & Hm & Hv). simpl in Hv.
    case_decide as Hd; [|done]. simpl in Hd. subst c'.
    apply list_elem_of_fmap. exists (c, s). split; [done|].
    apply matched_elem. eauto.
Qed.

Lemma multi_skill_rows_spec g skills row :
  NoDup skills -> skills <> [] ->
  row ∈ WordSearch.multi_skill_rows skills g <-> superset_match g skills row.
Proof.
  intros Hnd Hne. unfold WordSearch.multi_skill_rows, superset_match.
  rewrite elem_of_remove_dups, list_elem_of_fmap. split.
  - intros (c & -> & Hc). apply list_elem_of_filter in Hc as [Hfull Hg].
    pose proof (proj1 (matchedSkills_full g skills c Hnd) Hfull) as Hall.
    apply groups_elem in Hg as (x & Hx & Hn).
    exists c. split_and!; [by eapply skill_names_candidate|done|exact Hall].
  - intros (c & Hl & -> & Hall). exists c. split; [done|].
    apply list_elem_of_filter. split.
    + by apply (proj2 (matchedSkills_full g skills c Hnd)).
    + apply groups_elem. destruct skills as [|x skills]; [done|].
      exists x. split; [set_solver|]. apply Hall. set_solver.
Qed.

Lemma multi_skill_rows_NoDup g skills : NoDup (WordSearch.multi_skill_rows skills g).
Proof. apply NoDup_remove_dups. Qed.

End MultiSkill.

(** ** Extraction and the upload loop *)

Section Extraction.

Context (E : env).

Lemma llm_call_ok msgs w content :
  llm E (llm_calls w) msgs = Some content ->
  llm_call E msgs w = (Ok content, bump_llm w).
Proof. intros H. unfold llm_call. by rewrite H. Qed.

Lemma llm_call_error msgs w :
  llm E (llm_calls w) msgs = None ->
  llm_call E msgs w = (Raise LLMError, bump_llm w).
Proof. intros H. unfold llm_call. by rewrite H. Qed.

(** [main4.py]: the decoded answer, or the empty dict. *)
Lemma main4_extract_run resume_text w :
  Main4.get_structured_data_from_llm E resume_text w
  = (Ok match llm E (llm_calls w) (extraction_messages resume_text) with
        | Some content => default (PDict []) (json_loads E content)
        | None => PDict []
        end,
     bump_llm w).
Proof.
  unfold Main4.get_structured_data_from_llm, try_except.
  destruct (llm E (llm_calls w) _) as [content|] eqn:Hl.
  - erewrite bind_ok by (by apply llm_call_ok).
    unfold lift, py_json_loads. by destruct (json_loads E content).
  - erewrite bind_raise by (by apply llm_call_error). done.
Qed.

(** The other file: the lower-cased profile of the decoded answer, or the
    empty dict. *)
Lemma word_extract_run resume_text w :
  WordSearch.get_structured_data_from_llm E resume_text w
  = (Ok match llm E (llm_calls w) (extraction_messages resume_text) with
        | Some content =>
            match json_loads E content with
            | Some raw =>
                match WordSearch.lowered_profile raw with
                | Ok profile => profile
                | Raise _ => PDict []
                end
            | None => PDict []
            end
        | None => PDict []
        end,
     bump_llm w).
Proof.
  unfold WordSearch.get_structured_data_from_llm, try_except.
  destruct (llm E (llm_calls w) _) as [content|] eqn:Hl.
  - erewrite bind_ok by (by apply llm_call_ok).
    unfold py_json_loads. destruct (json_loads E content) as [raw|].
    + erewrite bind_ok by reflexivity. unfold lift.
      by destruct (WordSearch.lowered_profile raw).
    + by erewrite bind_raise by reflexivity.
  - erewrite bind_raise by (by apply llm_call_error). done.
Qed.

End Extraction.

Section Loop.

Context (extract : string -> M pyval) (persist : pyval -> string -> M unit).

Lemma process_file_skip file w :
  file_name file ∈ processed_files w ->
  process_file extract persist file w = (Ok tt, w).
Proof.
  intros Hin. unfold process_file.
  erewrite bind_ok by reflexivity. by rewrite decide_True.
Qed.

Lemma process_file_new file w :
  file_name file ∉ processed_files w ->
  process_file extract persist file w
  = (structured_data ← extract (extract_text_from_pdf file);
     if py_truthy structured_data then
       persist structured_data (extract_text_from_pdf file);;
       processed_add (file_name file)
     else mret tt) w.
Proof.
  intros Hin. unfold process_file.
  erewrite bind_ok by reflexivity. by rewrite decide_False.
Qed.

(** A document whose extraction gives a falsy value leaves everything but
    the world of the extraction as it was. *)
Lemma process_file_falsy file w data w1 :
  file_name file ∉ processed_files w ->
  extract (extract_text_from_pdf file) w = (Ok data, w1) ->
  py_truthy data = false ->
  process_file extract persist file w = (Ok tt, w1).
Proof.
  intros Hin He Hf. rewrite process_file_new by done.
  erewrite bind_ok by exact He. by rewrite Hf.
Qed.

Lemma process_file_truthy file w data w1 :
  file_name file ∉ processed_files w ->
  extract (extract_text_from_pdf file) w = (Ok data, w1) ->
  py_truthy data = true ->
  process_file extract persist file w
  = (persist data (extract_text_from_pdf file);; processed_add (file_name file)) w1.
Proof.
  intros Hin He Hf. rewrite process_file_new by done.
  erewrite bind_ok by exact He. by rewrite Hf.
Qed.

Lemma for_each_cons_ok {A : Type} (x : A) xs (body : A -> M unit) w w' :
  body x w = (Ok tt, w') -> for_each (x :: xs) body w = for_each xs body w'.
Proof. intros H. cbn [for_each]. by erewrite bind_ok by exact H. Qed.

Lemma for_each_cons_raise {A : Type} (x : A) xs (body : A -> M unit) w e w' :
  body x w = (Raise e, w') -> for_each (x :: xs) body w = (Raise e, w').
Proof. intros H. cbn [for_each]. by erewrite bind_raise by exact H. Qed.

Lemma upload_section_raise file rest w e w' :
  process_file extract persist file w = (Raise e, w') ->
  upload_section extract persist (file :: rest) w = (Raise e, w').
Proof.
  intros H. unfold upload_section.
  erewrite bind_raise; [done|]. by apply for_each_cons_raise.
Qed.

(** When the body of the loop raises, the exception is the one of the
    persistence of a truthy extraction. *)
Lemma process_file_raise_inv file w e w' :
  (forall t w0, exists d w1, extract t w0 = (Ok d, w1)) ->
  process_file extract persist file w = (Raise e, w') ->
  exists data w1,
    (file_name file ∉ processed_files w)
    /\ extract (extract_text_from_pdf file) w = (Ok data, w1)
    /\ py_truthy data = true
    /\ persist data (extract_text_from_pdf file) w1 = (Raise e, w').
Proof.
  intros Hex Hp.
  destruct (decide (file_name file ∈ processed_files w)) as [Hin|Hin].
  { by rewrite process_file_skip in Hp. }
  destruct (Hex (extract_text_from_pdf file) w) as (data & w1 & He).
  exists data, w1. split_and!; [done|done| |].
  - destruct (py_truthy data) eqn:Ht; [done|].
    by rewrite (process_file_falsy _ _ _ _ Hin He Ht) in Hp.
  - destruct (py_truthy data) eqn:Ht.
    + rewrite (process_file_truthy _ _ _ _ Hin He Ht) in Hp.
      unfold mbind, M_bind in Hp.
      destruct (persist data (extract_text_from_pdf file) w1) as [[[]|e0] w2] eqn:Hpers.
      * by unfold processed_add in Hp.
      * congruence.
    + by rewrite (process_file_falsy _ _ _ _ Hin He Ht) in Hp.
Qed.

End Loop.

(** C3. A document whose oracle response [json.loads] rejects: extraction
    returns the empty dict (no profile) after one call of the model, the
    loop body returns normally with the graph, the processed set and the
    number of store requests unchanged (no Candidate node, no
    persistence, no second call), and the loop goes on with the remaining
    documents; in both files. *)
Theorem unparseable_response_skipped (E : env) (file : UploadedFile)
    (rest : list UploadedFile) (w : world) (content : string) :
  file_name file ∉ processed_files w ->
  llm E (llm_calls w) (extraction_messages (extract_text_from_pdf file)) = Some content ->
  json_loads E content = None ->
  (Main4.get_structured_data_from_llm E (extract_text_from_pdf file) w
     = (Ok (PDict []), bump_llm w)
   /\ Main4.process_file E file w = (Ok tt, bump_llm w)
   /\ for_each (file :: rest) (Main4.process_file E) w
      = for_each rest (Main4.process_file E) (bump_llm w))
  /\ (WordSearch.get_structured_data_from_llm E (extract_text_from_pdf file) w
        = (Ok (PDict []), bump_llm w)
      /\ WordSearch.process_file E file w = (Ok tt, bump_llm w)
      /\ for_each (file :: rest) (WordSearch.process_file E) w
         = for_each rest (WordSearch.process_file E) (bump_llm w)).
Proof.
  intros Hin Hl Hj. split.
  - assert (Main4.get_structured_data_from_llm E (extract_text_from_pdf file) w
            = (Ok (PDict []), bump_llm w)) as He.
    { rewrite main4_extract_run, Hl, Hj. done. }
    assert (Main4.process_file E file w = (Ok tt, bump_llm w)) as Hp.
    { by eapply process_file_falsy. }
    split_and!; [done|done|]. by apply for_each_cons_ok.
  - assert (WordSearch.get_structured_data_from_llm E (extract_text_from_pdf file) w
            = (Ok (PDict []), bump_llm w)) as He.
    { rewrite word_extract_run, Hl, Hj. done. }
    assert (WordSearch.process_file E file w = (Ok tt, bump_llm w)) as Hp.
    { by eapply process_file_falsy. }
    split_and!; [done|done|]. by apply for_each_cons_ok.
Qed.


Lemma main4_extract_total (E : env) t w0 :
  exists d w1, Main4.get_structured_data_from_llm E t w0 = (Ok d, w1).
Proof. eexists _, _. apply main4_extract_run. Qed.

Lemma word_extract_total (E : env) t w0 :
  exists d w1, WordSearch.get_structured_data_from_llm E t w0 = (Ok d, w1).
Proof. eexists _, _. apply word_extract_run. Qed.

(** C9, as the code has it.  Extraction never raises: a failing call of
    the model, an undecodable answer or (in the second file) an ill-typed
    field give a value, and when that value is falsy the document is
    skipped and the loop goes on with the remaining documents.  An
    exception raised while a document is persisted is not caught: it
    leaves the loop and the upload section at once, with the world as it
    was when it was raised, so the remaining documents are not processed;
    and the loop body raises in no other way.  In both files. *)
Theorem failures_scoped_to_extraction (E : env) (file : UploadedFile)
    (rest : list UploadedFile) (w : world) :
  ((exists data, Main4.get_structured_data_from_llm E (extract_text_from_pdf file) w
                 = (Ok data, bump_llm w)
                 /\ ((file_name file ∉ processed_files w) -> py_truthy data = false ->
                     for_each (file :: rest) (Main4.process_file E) w
                     = for_each rest (Main4.process_file E) (bump_llm w)))
   /\ forall e w',
       Main4.process_file E file w = (Raise e, w') ->
       for_each (file :: rest) (Main4.process_file E) w = (Raise e, w')
       /\ Main4.upload_section E (file :: rest) w = (Raise e, w')
       /\ exists data,
            py_truthy data = true
            /\ Main4.add_candidate_to_neo4j E data (extract_text_from_pdf file) (bump_llm w)
               = (Raise e, w'))
  /\ ((exists data, WordSearch.get_structured_data_from_llm E (extract_text_from_pdf file) w
                    = (Ok data, bump_llm w)
                    /\ ((file_name file ∉ processed_files w) -> py_truthy data = false ->
                        for_each (file :: rest) (WordSearch.process_file E) w
                        = for_each rest (WordSearch.process_file E) (bump_llm w)))
      /\ forall e w',
          WordSearch.process_file E file w = (Raise e, w') ->
          for_each (file :: rest) (WordSearch.process_file E) w = (Raise e, w')
          /\ WordSearch.upload_section E (file :: rest) w = (Raise e, w')
          /\ exists data,
               py_truthy data = true
               /\ WordSearch.add_candidate_to_neo4j E data (extract_text_from_pdf file)
                    (bump_llm w)
                  = (Raise e, w')).
Proof.
  split.
  - split.
    + eexists. split; [apply main4_extract_run|].
      intros Hin Hf. apply for_each_cons_ok.
      eapply process_file_falsy; [done|apply main4_extract_run|done].
    + intros e w' Hr. split_and!.
      * by apply for_each_cons_raise.
      * by apply upload_section_raise.
      * apply process_file_raise_inv in Hr as (data & w1 & _ & He & Ht & Hp);
          [|apply main4_extract_total].
        rewrite main4_extract_run in He. injection He as <- <-. eauto.
  - split.
    + eexists. split; [apply word_extract_run|].
      intros Hin Hf. apply for_each_cons_ok.
      eapply process_file_falsy; [done|apply word_extract_run|done].
    + intros e w' Hr. split_and!.
      * by apply for_each_cons_raise.
      * by apply upload_section_raise.
      * apply process_file_raise_inv in Hr as (data & w1 & _ & He & Ht & Hp);
          [|apply word_extract_total].
        rewrite word_extract_run in He. injection He as <- <-. eauto.
Qed.

(** ** Lower-casing and defaults *)

Lemma lower_ascii_idempotent (c : ascii) : lower_ascii (lower_ascii c) = lower_ascii c.
Proof. destruct c as [[] [] [] [] [] [] [] []]; reflexivity. Qed.

Lemma lower_idempotent (s : string) : lower (lower s) = lower s.
Proof.
  induction s as [|c s IH]; simpl; [done|].
  by rewrite lower_ascii_idempotent, IH.
Qed.

Lemma lower_profile_idempotent (P : Profile) :
  lower_profile (lower_profile P) = lower_profile P.
Proof.
  destruct P. unfold lower_profile. simpl.
  rewrite lower_idempotent, !map_map.
  f_equal; apply map_ext; intros; apply lower_idempotent.
Qed.

Lemma lower_profile_lowercase (P : Profile) :
  Forall (fun s => lower s = s) (all_strings (lower_profile P)).
Proof.
  unfold all_strings, lower_profile. simpl. constructor; [apply lower_idempotent|].
  rewrite !Forall_app. split_and!;
    apply Forall_map, Forall_true; intros; apply lower_idempotent.
Qed.

Lemma comprehension_lower_read (items : list pyval) :
  comprehension py_lower items
  = (ss ← comprehension py_str items; mret (map PStr (map lower ss))).
Proof.
  induction items as [|x items IH]; [done|].
  cbn [comprehension]. destruct x; try done. cbn.
  rewrite IH. by destruct (comprehension py_str items).
Qed.

Lemma lowered_list_read (raw : pyval) (field : string) :
  WordSearch.lowered_list raw field
  = (ss ← read_strings raw field; mret (PList (map PStr (map lower ss)))).
Proof.
  unfold WordSearch.lowered_list, read_strings.
  destruct (py_get raw field (PList [])) as [v|]; [|done]. cbn.
  destruct (py_iter v) as [items|]; [|done]. cbn.
  rewrite comprehension_lower_read. by destruct (comprehension py_str items).
Qed.

(** The dict returned by the second file is the lower-cased profile of
    the strings read from the decoded answer, and fails as that reading
    fails. *)
Lemma lowered_profile_read (raw : pyval) :
  WordSearch.lowered_profile raw
  = (P ← read_profile raw; mret (profile_data (lower_profile P))).
Proof.
  unfold WordSearch.lowered_profile, read_profile.
  destruct (py_get raw "name" (PStr "Unknown")) as [v|]; [|done]. cbn.
  destruct v; try done. cbn.
  rewrite !lowered_list_read.
  destruct (read_strings raw "skills"); [|done]. cbn.
  destruct (read_strings raw "education"); [|done]. cbn.
  destruct (read_strings raw "projects"); [|done]. cbn.
  destruct (read_strings raw "experience"); [|done]. cbn.
  destruct (read_strings raw "certifications"); [|done]. done.
Qed.

Lemma lowered_profile_ok (raw prof : pyval) :
  WordSearch.lowered_profile raw = Ok prof ->
  exists P, read_profile raw = Ok P /\ prof = profile_data (lower_profile P).
Proof.
  rewrite lowered_profile_read. destruct (read_profile raw) as [P|]; [|done].
  cbn. intros [= <-]. eauto.
Qed.

Lemma lowered_profile_truthy (raw prof : pyval) :
  WordSearch.lowered_profile raw = Ok prof -> py_truthy prof = true.
Proof. intros (P & _ & ->)%lowered_profile_ok. done. Qed.

Lemma assoc_app {V : Type} (k : string) (d e : list (string * V)) :
  assoc k (d ++ e) = match assoc k d with Some v => Some v | None => assoc k e end.
Proof.
  induction d as [|[k' v] d IH]; simpl; [done|]. by destruct (String.eqb k' k).
Qed.

Lemma py_get_with_defaults_name (d : list (string * pyval)) :
  py_get (PDict (with_defaults d)) "name" (PStr "Unknown")
  = py_get (PDict d) "name" (PStr "Unknown").
Proof.
  unfold py_get, with_defaults. rewrite assoc_app.
  destruct (assoc "name" d); [done|]. simpl.
  by repeat (destruct (assoc _ d); simpl).
Qed.

Lemma py_get_with_defaults_list (d : list (string * pyval)) (f : string) :
  f ∈ list_fields ->
  py_get (PDict (with_defaults d)) f (PList []) = py_get (PDict d) f (PList []).
Proof.
  intros Hf. unfold py_get, with_defaults. rewrite assoc_app.
  destruct (assoc f d) as [v|] eqn:Hv; [done|]. simpl. f_equal.
  rewrite assoc_app.
  assert (assoc f (if assoc "name" d is None then [("name", PStr "Unknown")] else [])
          = None) as ->.
  { destruct (assoc "name" d); [done|]. simpl.
    unfold list_fields in Hf. repeat (apply elem_of_cons in Hf as [->|Hf]; [done|]).
    by apply elem_of_nil in Hf. }
  unfold list_fields in *.
  repeat (apply elem_of_cons in Hf as [->|Hf];
          [simpl; rewrite ?Hv; by repeat (destruct (assoc _ d); simpl)|]).
  by apply elem_of_nil in Hf.
Qed.

(** [main4.py] persists a dict as it persists the dict completed with the
    defaults. *)
Lemma main4_add_with_defaults (E : env) d resume_text w :
  Main4.add_candidate_to_neo4j E (PDict (with_defaults d)) resume_text w
  = Main4.add_candidate_to_neo4j E (PDict d) resume_text w.
Proof.
  unfold Main4.add_candidate_to_neo4j. cbn [comprehension categories].
  rewrite py_get_with_defaults_name.
  rewrite !py_get_with_defaults_list by (unfold list_fields; set_solver).
  done.
Qed.

Lemma lowered_profile_with_defaults d :
  WordSearch.lowered_profile (PDict (with_defaults d))
  = WordSearch.lowered_profile (PDict d).
Proof.
  unfold WordSearch.lowered_profile, WordSearch.lowered_list.
  rewrite py_get_with_defaults_name.
  rewrite !py_get_with_defaults_list by (unfold list_fields; set_solver).
  done.
Qed.

Lemma resolve_no_field d :
  no_profile_field d -> resolve Ok (PDict d) = Ok (PStr "Unknown", []).
Proof.
  intros Hn. unfold no_profile_field, list_fields in Hn.
  repeat (apply Forall_cons in Hn as [? Hn]).
  unfold resolve, py_get. cbn [comprehension categories].
  unfold py_get. by repeat match goal with H : assoc _ d = None |- _ => rewrite H; clear H end.
Qed.

Lemma lowered_profile_no_field d :
  no_profile_field d ->
  WordSearch.lowered_profile (PDict d) = Ok (profile_data (unknown_profile "unknown")).
Proof.
  intros Hn. unfold no_profile_field, list_fields in Hn.
  repeat (apply Forall_cons in Hn as [? Hn]).
  unfold WordSearch.lowered_profile, WordSearch.lowered_list, py_get.
  by repeat match goal with H : assoc _ d = None |- _ => rewrite H; clear H end.
Qed.

Lemma upsert_unknown_rels name resume_text g :
  rels (upsert (unknown_profile name) resume_text g) = rels g.
Proof.
  unfold upsert, upsert_with, plan_of. simpl.
  pose proof (merge_node_rels (candidate_node (PStr name) resume_text)
                "Candidate" "content_hash" g) as Hr.
  by destruct (merge_node _ _ _ g).
Qed.

(** ** When the lower-casing pass raises *)


Lemma comprehension_lower_raises (items : list pyval) :
  raises (comprehension py_lower items) <-> exists x, x ∈ items /\ ~ is_str x.
Proof.
  induction items as [|x items IH].
  - split; [intros [e [=]]|]. intros (x & Hx & _). by apply elem_of_nil in Hx.
  - cbn [comprehension]. destruct x as [| | | |s| |];
      try (split; [intros _; eexists; split; [apply elem_of_cons; left; reflexivity|];
                   by intros [s [=]]
                  | intros _; by eexists]).
    cbn. destruct (comprehension py_lower items) as [ys|e] eqn:Hc.
    + split; [intros [e [=]]|]. intros (x & Hx & Hn).
      apply elem_of_cons in Hx as [->|Hx]; [destruct Hn; by eexists|].
      destruct (proj2 IH) as [e [=]]. eauto.
    + split; [|intros _; by eexists]. intros _.
      destruct (proj1 IH) as (x & Hx & Hn); [by eexists|].
      exists x. split; [by apply elem_of_cons; right|done].
Qed.

Lemma lowered_list_raises (d : list (string * pyval)) (f : string) :
  raises (WordSearch.lowered_list (PDict d) f) <-> bad_list d f.
Proof.
  unfold WordSearch.lowered_list, bad_list, py_get.
  destruct (assoc f d) as [v|]; cbn.
  - destruct v as [| | | |s|items|entries]; cbn;
      try (split; [intros _; eexists; split; [done|]; by left | intros _; by eexists]).
    + (* a str: its characters *)
      rewrite comprehension_lower_PStr. cbn.
      split; [intros [e [=]]|].
      intros (v & [= <-] & [[]|(items & x & [=] & _)]).
    + (* a list *)
      destruct (comprehension py_lower items) as [ys|e] eqn:Hc; cbn.
      * split; [intros [e [=]]|].
        intros (v & [= <-] & [[]|(items' & x & [= <-] & Hx & Hn)]).
        destruct (proj2 (comprehension_lower_raises items)) as [e He]; [eauto|].
        congruence.
      * split; [|intros _; by eexists]. intros _.
        destruct (proj1 (comprehension_lower_raises items)) as (x & Hx & Hn).
        { rewrite Hc. by eexists. }
        eexists. split; [done|]. right. eauto.
    + (* a dict: its keys *)
      rewrite <- (map_map fst PStr), comprehension_lower_PStr. cbn.
      split; [intros [e [=]]|].
      intros (v & [= <-] & [[]|(items & x & [=] & _)]).
  - split; [intros [e [=]]|]. intros (v & [=] & _).
Qed.

Lemma lowered_name_raises (d : list (string * pyval)) :
  raises (py_get (PDict d) "name" (PStr "Unknown") ≫= py_lower) <-> bad_name d.
Proof.
  unfold bad_name, py_get. destruct (assoc "name" d) as [v|]; cbn.
  - destruct v as [| | | |s| |]; cbn;
      try (split; [intros _; eexists; split; [done|]; by intros [s [=]]
                  | intros _; by eexists]).
    split; [intros [e [=]]|]. intros (v & [= <-] & Hn). destruct Hn. by eexists.
  - split; [intros [e [=]]|]. intros (v & [=] & _).
Qed.

(** The lower-casing pass raises exactly on the ill-typed answers. *)
Lemma lowered_profile_raises (raw : pyval) :
  raises (WordSearch.lowered_profile raw) <-> ill_typed raw.
Proof.
  destruct raw as [| | | | | |d]; try (split; [done|intros _; by eexists]).
  unfold ill_typed. unfold WordSearch.lowered_profile.
  pose proof (lowered_name_raises d) as Hname.
  pose proof (lowered_list_raises d "skills") as H1.
  pose proof (lowered_list_raises d "education") as H2.
  pose proof (lowered_list_raises d "projects") as H3.
  pose proof (lowered_list_raises d "experience") as H4.
  pose proof (lowered_list_raises d "certifications") as H5.
  assert ((exists f, f ∈ list_fields /\ bad_list d f) <->
          bad_list d "skills" \/ bad_list d "education" \/ bad_list d "projects"
          \/ bad_list d "experience" \/ bad_list d "certifications") as ->.
  { unfold list_fields. split.
    - intros (f & Hf & Hb). rewrite !elem_of_cons, elem_of_nil in Hf.
      destruct Hf as [Hf|[Hf|[Hf|[Hf|[Hf|[]]]]]]; subst f; tauto.
    - intros [H|[H|[H|[H|H]]]]; eexists; (split; [|exact H]);
        repeat first [apply list_elem_of_here | apply list_elem_of_further]. }
  rewrite <- Hname, <- H1, <- H2, <- H3, <- H4, <- H5. clear Hname H1 H2 H3 H4 H5.
  assert (forall e : exn, raises (A := pyval) (Raise e)) as Hr by (intros; by eexists).
  assert (forall v : pyval, ~ raises (Ok v)) as Hk by (by intros v [e [=]]).
  destruct (py_get (PDict d) "name" (PStr "Unknown") ≫= py_lower) as [name|e0];
    cbn [mbind result_bind]; [|split; auto].
  destruct (WordSearch.lowered_list (PDict d) "skills") as [x1|];
    cbn [mbind result_bind]; [|split; auto].
  destruct (WordSearch.lowered_list (PDict d) "education") as [x2|];
    cbn [mbind result_bind]; [|split; auto].
  destruct (WordSearch.lowered_list (PDict d) "projects") as [x3|];
    cbn [mbind result_bind]; [|split; auto].
  destruct (WordSearch.lowered_list (PDict d) "experience") as [x4|];
    cbn [mbind result_bind]; [|split; auto 6].
  destruct (WordSearch.lowered_list (PDict d) "certifications") as [x5|];
    cbn [mbind result_bind]; [|split; auto 7].
  split; [intros H; by apply Hk in H|].
  intros [H|[H|[H|[H|[H|H]]]]]; by apply Hk in H.
Qed.

(** X22.  For every non-empty duplicate-free list of
    required skill names, the rows of the multi-skill query are exactly
    the [{name, content}] rows of the Candidate nodes whose
    HAS_SKILL-connected Skill names include every required name (string
    equality per name), and no row comes twice. *)
Theorem multi_skill_search_superset (g : Graph) (skills : list string) :
  NoDup skills -> skills <> [] ->
  (forall row, row ∈ WordSearch.multi_skill_rows skills g <-> superset_match g skills row)
  /\ NoDup (WordSearch.multi_skill_rows skills g).
Proof.
  intros Hnd Hne. split.
  - intros row. by apply multi_skill_rows_spec.
  - apply multi_skill_rows_NoDup.
Qed.

(** C4, as the code has it.  For an answer decoded as a dict, a missing
    field is read as its default: [main4.py] persists the dict as it
    persists the dict completed with "Unknown" and empty lists, and the
    second file builds the same profile from both.  When none of the six
    fields is there, the second file persists a candidate named "unknown"
    with no relationship added, and [main4.py] persists a candidate named
    "Unknown" with no relationship added provided the dict is not empty. *)
Theorem missing_fields_defaulted (E : env) (file : UploadedFile) (w : world)
    (content : string) (d : list (string * pyval)) :
  llm E (llm_calls w) (extraction_messages (extract_text_from_pdf file)) = Some content ->
  json_loads E content = Some (PDict d) ->
  (forall w', Main4.add_candidate_to_neo4j E (PDict d) (extract_text_from_pdf file) w'
              = Main4.add_candidate_to_neo4j E (PDict (with_defaults d))
                  (extract_text_from_pdf file) w')
  /\ WordSearch.lowered_profile (PDict d) = WordSearch.lowered_profile (PDict (with_defaults d))
  /\ (no_profile_field d -> (file_name file ∉ processed_files w) -> always_up E ->
      (d <> [] ->
         exists w', Main4.process_file E file w = (Ok tt, w')
           /\ graph w' = upsert (unknown_profile "Unknown") (extract_text_from_pdf file) (graph w)
           /\ rels (graph w') = rels (graph w)
           /\ file_name file ∈ processed_files w')
      /\ (exists w', WordSearch.process_file E file w = (Ok tt, w')
           /\ graph w' = upsert (unknown_profile "unknown") (extract_text_from_pdf file) (graph w)
           /\ rels (graph w') = rels (graph w)
           /\ file_name file ∈ processed_files w')).
Proof.
  intros Hl Hj. split_and!.
  - intros w'. by rewrite main4_add_with_defaults.
  - by rewrite lowered_profile_with_defaults.
  - intros Hn Hin Hup. split.
    + intros Hne. eexists. split_and!.
      * unfold Main4.process_file. erewrite process_file_truthy;
          [|done|rewrite main4_extract_run, Hl, Hj; reflexivity|by destruct d].
        erewrite bind_ok; [reflexivity|].
        by apply (main4_add_candidate_run E Hup _ _ _ _ _ (resolve_no_field d Hn)).
      * done.
      * simpl. apply (upsert_unknown_rels "Unknown").
      * simpl. set_solver.
    + eexists. split_and!.
      * unfold WordSearch.process_file. erewrite process_file_truthy;
          [|done
           |rewrite word_extract_run, Hl, Hj, (lowered_profile_no_field d Hn); reflexivity
           |done].
        erewrite bind_ok; [reflexivity|].
        by apply (word_add_profile_run E (unknown_profile "unknown")).
      * done.
      * simpl. apply (upsert_unknown_rels "unknown").
      * simpl. set_solver.
Qed.

(** ** The second file over any lower-casing method *)

Section OverMethod.

Context (str_lower : string -> string).

Lemma comprehension_method_read (items : list pyval) :
  comprehension (Lowering.py_lower str_lower) items
  = (ss ← comprehension py_str items; mret (map PStr (map str_lower ss))).
Proof.
  induction items as [|x items IH]; [done|].
  cbn [comprehension]. destruct x; try done. cbn.
  rewrite IH. by destruct (comprehension py_str items).
Qed.

Lemma lowered_list_method_read (raw : pyval) (field : string) :
  Lowering.lowered_list str_lower raw field
  = (ss ← read_strings raw field; mret (PList (map PStr (map str_lower ss)))).
Proof.
  unfold Lowering.lowered_list, read_strings.
  destruct (py_get raw field (PList [])) as [v|]; [|done]. cbn.
  destruct (py_iter v) as [items|]; [|done]. cbn.
  rewrite comprehension_method_read. by destruct (comprehension py_str items).
Qed.

(** The dict returned is the profile of the strings read from the decoded
    answer with the method applied to each, and the extraction fails as
    that reading fails. *)
Lemma lowered_profile_method_read (raw : pyval) :
  Lowering.lowered_profile str_lower raw
  = (P ← read_profile raw; mret (profile_data (map_profile str_lower P))).
Proof.
  unfold Lowering.lowered_profile, read_profile.
  destruct (py_get raw "name" (PStr "Unknown")) as [v|]; [|done]. cbn.
  destruct v; try done. cbn.
  rewrite !lowered_list_method_read.
  destruct (read_strings raw "skills"); [|done]. cbn.
  destruct (read_strings raw "education"); [|done]. cbn.
  destruct (read_strings raw "projects"); [|done]. cbn.
  destruct (read_strings raw "experience"); [|done]. cbn.
  destruct (read_strings raw "certifications"); [|done]. done.
Qed.

Lemma comprehension_method_PStr (ss : list string) :
  comprehension (Lowering.py_lower str_lower) (map PStr ss)
  = Ok (map PStr (map str_lower ss)).
Proof. induction ss as [|s ss IH]; simpl; [done|]. by rewrite IH. Qed.

Lemma resolve_profile_method (P : Profile) :
  resolve (Lowering.py_lower str_lower) (profile_data P)
  = Ok (PStr (str_lower (p_name P)), plan_of (map_profile str_lower P)).
Proof.
  unfold resolve, profile_data, plan_of. cbn.
  rewrite !comprehension_method_PStr. cbn.
  by rewrite !tagged_map, app_nil_r.
Qed.

Context (E : env).

Lemma method_extract_run resume_text w :
  Lowering.get_structured_data_from_llm str_lower E resume_text w
  = (Ok match llm E (llm_calls w) (extraction_messages resume_text) with
        | Some content =>
            match json_loads E content with
            | Some raw =>
                match Lowering.lowered_profile str_lower raw with
                | Ok profile => profile
                | Raise _ => PDict []
                end
            | None => PDict []
            end
        | None => PDict []
        end,
     bump_llm w).
Proof.
  unfold Lowering.get_structured_data_from_llm, try_except.
  destruct (llm E (llm_calls w) _) as [content|] eqn:Hl.
  - erewrite bind_ok by (by apply llm_call_ok).
    unfold lift, py_json_loads. destruct (json_loads E content) as [raw|]; [|done].
    unfold mbind, M_bind. by destruct (Lowering.lowered_profile str_lower raw).
  - erewrite bind_raise by (by apply llm_call_error). done.
Qed.

Lemma method_add_profile_run (P : Profile) (resume_text : string) (w : world) :
  always_up E ->
  Lowering.add_candidate_to_neo4j str_lower E (profile_data P) resume_text w
  = (Ok tt,
     mkWorld (upsert (map_profile str_lower P) resume_text (graph w)) (processed_files w)
             (llm_calls w)
             (store_calls w + 1 + 2 * List.length (plan_of (map_profile str_lower P)))%nat).
Proof.
  intros Hup. pose proof (resolve_profile_method P) as Hr.
  unfold resolve in Hr.
  destruct (py_get (profile_data P) "name" (PStr "Unknown") ≫= Lowering.py_lower str_lower)
    as [name0|] eqn:Hn; [|done].
  cbn [mbind result_bind] in Hr.
  destruct (comprehension _ categories) as [fields|] eqn:Hf; [|done].
  cbn [mbind result_bind] in Hr.
  destruct (flat_plan (Lowering.py_lower str_lower) fields) as [plan0|] eqn:Hp; [|done].
  injection Hr as -> ->.
  unfold Lowering.add_candidate_to_neo4j.
  erewrite bind_ok; cycle 1.
  { rewrite Hn. reflexivity. }
  erewrite bind_ok; cycle 1.
  { unfold graph_merge. apply store_request_up, Hup. }
  erewrite bind_ok; cycle 1.
  { rewrite Hf. reflexivity. }
  rewrite (outer_loop_run E Hup (Lowering.py_lower str_lower) _ fields _ _ Hp).
  cbn [graph processed_files llm_calls store_calls].
  unfold upsert, upsert_with, candidate_node. cbn [p_name map_profile].
  destruct (merge_node _ "Candidate" "content_hash" (graph w)). simpl.
  do 2 f_equal. lia.
Qed.

End OverMethod.

(** The model of [str.lower] folds the case of every letter of the ASCII
    range and leaves no capital letter. *)
Lemma lower_ascii_folded (c : ascii) : folded_char c (lower_ascii c).
Proof.
  destruct (decide (c ∈ capital_letters)) as [Hc|Hc].
  - left. apply list_elem_of_lookup_1 in Hc as [i Hi]. exists i. split; [done|].
    assert (i < 26)%nat as Hlt by (apply lookup_lt_Some in Hi; exact Hi).
    do 26 (destruct i as [|i]; [by injection Hi as <-|]). lia.
  - right. split; [done|]. unfold lower_ascii.
    destruct ((65 <=? nat_of_ascii c) && (nat_of_ascii c <=? 90))%nat eqn:Hr; [|done].
    exfalso. apply Hc.
    apply andb_true_iff in Hr as [Hlo Hhi].
    apply Nat.leb_le in Hlo. apply Nat.leb_le in Hhi.
    rewrite <- (ascii_nat_embedding c).
    assert (exists k, nat_of_ascii c = 65 + k /\ k < 26)%nat as (k & -> & Hk)
      by (exists (nat_of_ascii c - 65)%nat; lia).
    do 26 (destruct k as [|k];
           [vm_compute; repeat first [apply list_elem_of_here | apply list_elem_of_further]|]).
    lia.
Qed.

Lemma lower_ascii_no_capital (c : ascii) : lower_ascii c ∉ capital_letters.
Proof.
  destruct c as [[] [] [] [] [] [] [] []];
    apply (bool_decide_unpack _); vm_compute; exact I.
Qed.

Lemma lower_folds (s : string) : folded s (lower s) /\ no_capital (lower s).
Proof.
  unfold folded, no_capital. induction s as [|c s [IH1 IH2]]; simpl.
  - split; constructor.
  - split; constructor; auto using lower_ascii_folded, lower_ascii_no_capital.
Qed.

(** C6. Whatever function stands for the method [str.lower], and so for
    the method itself on every string: a successful extraction of the
    second file returns the profile of the strings read from the decoded
    answer (the name and every item of skills, education, projects,
    experience and certifications) with the method applied to each, and
    persisting it applies the method once more and writes the result.
    [main4.py] returns the decoded answer as it is and persists the
    strings of a profile unchanged.  [WordSearch] is the second file at
    [lower], which replaces every capital letter of the ASCII range by
    its small letter, leaves no capital letter, and leaves a lower-cased
    string as it is. *)
Theorem case_folding_per_variant (str_lower : string -> string) (E : env)
    (resume_text content : string) (raw profile : pyval) (w : world) :
  llm E (llm_calls w) (extraction_messages resume_text) = Some content ->
  json_loads E content = Some raw ->
  Lowering.lowered_profile str_lower raw = Ok profile ->
  always_up E ->
  (exists P, read_profile raw = Ok P
     /\ profile = profile_data (map_profile str_lower P)
     /\ Lowering.get_structured_data_from_llm str_lower E resume_text w
        = (Ok profile, bump_llm w)
     /\ forall w', exists w'',
          Lowering.add_candidate_to_neo4j str_lower E profile resume_text w' = (Ok tt, w'')
          /\ graph w''
             = upsert (map_profile str_lower (map_profile str_lower P)) resume_text
                 (graph w'))
  /\ (Main4.get_structured_data_from_llm E resume_text w = (Ok raw, bump_llm w)
      /\ forall P w', exists w'',
           Main4.add_candidate_to_neo4j E (profile_data P) resume_text w' = (Ok tt, w'')
           /\ graph w'' = upsert P resume_text (graph w'))
  /\ (WordSearch.get_structured_data_from_llm E
        = Lowering.get_structured_data_from_llm lower E
      /\ WordSearch.add_candidate_to_neo4j E = Lowering.add_candidate_to_neo4j lower E
      /\ forall s, folded s (lower s) /\ no_capital (lower s) /\ lower (lower s) = lower s).
Proof.
  intros Hl Hj Hp Hup. split_and!.
  - rewrite lowered_profile_method_read in Hp.
    destruct (read_profile raw) as [P|] eqn:Hr; [|done].
    cbn in Hp. injection Hp as <-.
    exists P. split_and!; [done|done| |].
    + rewrite method_extract_run, Hl, Hj, lowered_profile_method_read, Hr. done.
    + intros w'. eexists. split; [by apply method_add_profile_run|done].
  - rewrite main4_extract_run, Hl, Hj. done.
  - intros P w'. eexists. split; [by apply main4_add_profile_run|done].
  - reflexivity.
  - reflexivity.
  - intros s. destruct (lower_folds s). split_and!; [done|done|apply lower_idempotent].
Qed.

(** C10, as the code has it.  In the second file, for an answer that
    [json.loads] accepts, extraction returns the failure result (the empty
    dict) exactly when the answer is ill-typed: it is not a dict, or its
    name is present and not a str, or a list field is present and cannot
    be iterated (null, a boolean, a number) or is a list holding an item
    that is not a str.  Such a document is skipped. *)
Theorem variant_rejects_ill_typed (E : env) (file : UploadedFile) (w : world)
    (content : string) (raw : pyval) :
  llm E (llm_calls w) (extraction_messages (extract_text_from_pdf file)) = Some content ->
  json_loads E content = Some raw ->
  (ill_typed raw <->
     WordSearch.get_structured_data_from_llm E (extract_text_from_pdf file) w
     = (Ok (PDict []), bump_llm w))
  /\ (ill_typed raw -> (file_name file ∉ processed_files w) ->
      WordSearch.process_file E file w = (Ok tt, bump_llm w)).
Proof.
  intros Hl Hj.
  assert (ill_typed raw <->
     WordSearch.get_structured_data_from_llm E (extract_text_from_pdf file) w
     = (Ok (PDict []), bump_llm w)) as Hiff.
  { rewrite word_extract_run, Hl, Hj. rewrite <- lowered_profile_raises. split.
    - by intros [e ->].
    - destruct (WordSearch.lowered_profile raw) as [prof|e] eqn:Hp; [|by eexists].
      intros [= ->]. by apply lowered_profile_truthy in Hp. }
  split; [done|]. intros Hill Hin.
  eapply process_file_falsy; [done|by apply Hiff|done].
Qed.

(** ** The scenario, evaluated *)

Example md5_empty : get_pdf_hash EmptyString = "d41d8cd98f00b204e9800998ecf8427e".
Proof. vm_compute. reflexivity. Qed.

Example md5_abc : get_pdf_hash "abc" = "900150983cd24fb0d6963f7d28e17f72".
Proof. vm_compute. reflexivity. Qed.

Example md5_two_blocks :
  get_pdf_hash "aaaaaaaaaaaaaaaaaaaaaaaaaaaaaaaaaaaaaaaaaaaaaaaaaaaaaaaaaaaa"
  = "cc7ed669cf88f201c3297c6a91e1d18d".
Proof. vm_compute. reflexivity. Qed.

Example parse_skills_example :
  WordSearch.parse_skills " Python ,SQL,, machine learning ,"
  = ["python"; "sql"; "machine learning"].
Proof. vm_compute. reflexivity. Qed.

(** Candidate A has skills python and sql, candidate B has python. *)
Example match_all_example :
  graph world_AB
  = mkGraph
      [ candidate_node (PStr "alice") "resume A";
        attribute_node "Skill" (PStr "python");
        attribute_node "Skill" (PStr "sql");
        candidate_node (PStr "bob") "resume B" ]
      [ Relationship 0 "HAS_SKILL" 1; Relationship 0 "HAS_SKILL" 2;
        Relationship 3 "HAS_SKILL" 1 ]
  /\ WordSearch.multi_skill_rows ["python"; "sql"] (graph world_AB) = [row_A]
  /\ WordSearch.multi_skill_rows ["python"] (graph world_AB) = [row_A; row_B]
  /\ fst (WordSearch.search_section demo_env "PYTHON, Sql" world_AB) = Ok (Some [row_A]).
Proof. vm_compute. done. Qed.

(** A name given twice counts twice in [SIZE($skills)] and once in
    [COUNT(DISTINCT s.name)]: nothing matches. *)
Example repeated_name_example :
  WordSearch.multi_skill_rows ["python"; "python"] (graph world_AB) = [].
Proof. vm_compute. reflexivity. Qed.

(** C1.  The search at an input that names a skill twice.  The input
    "python, python" is sent to the store as the list [python; python];
    candidates A and B both have every required name, and the search
    returns no row, while the input "python", the same set of names,
    returns both. *)
Theorem duplicate_skill_input_divergence :
  WordSearch.parse_skills "python, python" = ["python"; "python"]
  /\ superset_match (graph world_AB) ["python"; "python"] row_A
  /\ superset_match (graph world_AB) ["python"; "python"] row_B
  /\ fst (WordSearch.search_section demo_env "python, python" world_AB) = Ok (Some [])
  /\ fst (WordSearch.search_section demo_env "python" world_AB)
     = Ok (Some [row_A; row_B]).
Proof.
  assert (forall x, x ∈ ["python"; "python"] -> x = "python") as Hx.
  { intros x H. repeat (apply elem_of_cons in H as [H|H]; [done|]).
    by apply elem_of_nil in H. }
  split_and!.
  - vm_compute. reflexivity.
  - exists 0%nat. split_and!; [vm_compute; reflexivity..|].
    intros x ->%Hx. vm_compute. apply list_elem_of_here.
  - exists 3%nat. split_and!; [vm_compute; reflexivity..|].
    intros x ->%Hx. vm_compute. apply list_elem_of_here.
  - vm_compute. reflexivity.
  - vm_compute. reflexivity.
Qed.

(** A str is iterated character by character. *)
Example characters_example :
  py_iter (PStr "SQL") = Ok [PStr "S"; PStr "Q"; PStr "L"]
  /\ List.length (characters "née") = 3%nat.
Proof. vm_compute. done. Qed.

(** The same pages under a second name are extracted and sent to the
    store again; other pages under a processed name are not looked at. *)
Example same_content_other_name_example :
  let E := scripted_env [Some "A"; Some "A"] demo_table (fun _ => true) in
  let w1 := snd (Main4.upload_section E [file_A] fresh_world) in
  let w2 := snd (Main4.upload_section E [file_A; mkFile "copy.pdf" ["resume A"]] w1) in
  let w3 := snd (Main4.upload_section E [mkFile "a.pdf" ["another resume"]] w2) in
  (llm_calls w1, store_calls w1) = (1, 5)%nat
  /\ (llm_calls w2, store_calls w2) = (2, 10)%nat
  /\ graph w2 = graph w1
  /\ w3 = w2.
Proof. vm_compute. done. Qed.

(** After the "Clear Graph DB" button no skill query finds anything. *)
Example clear_button_example :
  let w := snd (WordSearch.clear_button demo_env world_AB) in
  graph w = empty_graph
  /\ processed_files w = ∅
  /\ WordSearch.multi_skill_rows ["python"] (graph w) = [].
Proof. vm_compute. done. Qed.

(** ** Counterexamples to the claims as first stated *)

(** C4 as stated fails on the empty object: it is decoded, has every field
    missing, and [main4.py] skips it (no Candidate node, nothing recorded);
    the second file does persist it, under the name "unknown". *)
Lemma empty_object_skipped_counterexample :
  json_loads (answer_env "{}") "{}" = Some (PDict [])
  /\ Main4.process_file (answer_env "{}") file_A fresh_world
     = (Ok tt, bump_llm fresh_world)
  /\ candidate_of "resume A" (graph (bump_llm fresh_world)) = None
  /\ nodes (graph (snd (WordSearch.process_file (answer_env "{}") file_A fresh_world)))
     = [candidate_node (PStr "unknown") "resume A"].
Proof. vm_compute. done. Qed.

(** C9 as stated fails when the store refuses a request: the exception
    leaves the upload section, and the second document is never
    extracted. *)
Lemma persistence_failure_aborts_batch_counterexample :
  Main4.upload_section outage_env [file_A; file_B] fresh_world
  = (Raise StoreWriteError, mkWorld empty_graph ∅ 1 1)
  /\ WordSearch.upload_section outage_env [file_A; file_B] fresh_world
     = (Raise StoreWriteError, mkWorld empty_graph ∅ 1 1).
Proof. vm_compute. done. Qed.

(** C10 as stated fails on a list field holding an object: it is not a
    sequence, its keys are iterated and lower-cased, and extraction
    succeeds. *)
Lemma object_valued_field_counterexample :
  json_loads (answer_env "keys") "keys"
  = Some (PDict [("skills", PDict [("Python", PInt 1)])])
  /\ WordSearch.get_structured_data_from_llm (answer_env "keys") "resume A" fresh_world
     = (Ok (profile_data (mkProfile "unknown" ["python"] [] [] [] [])),
        bump_llm fresh_world).
Proof. vm_compute. done. Qed.

(** ** The theorems at the scenario *)

Lemma demo_always_up : always_up demo_env.
Proof. intros n. reflexivity. Defined.

Lemma answer_always_up content : always_up (answer_env content).
Proof. intros n. reflexivity. Defined.

Lemma multi_skill_search_superset_witness :
  (forall row, row ∈ WordSearch.multi_skill_rows ["python"; "sql"] (graph world_AB)
               <-> superset_match (graph world_AB) ["python"; "sql"] row)
  /\ NoDup (WordSearch.multi_skill_rows ["python"; "sql"] (graph world_AB)).
Proof.
  apply (multi_skill_search_superset (graph world_AB) ["python"; "sql"]).
  - apply NoDup_cons. split; [|apply NoDup_singleton].
    intros H. apply list_elem_of_singleton in H. discriminate H.
  - discriminate.
Defined.

Lemma upsert_idempotent_witness :
  always_up demo_env
  /\ exists w1 w2,
      Main4.add_candidate_to_neo4j demo_env (profile_data alice) "resume A" fresh_world
        = (Ok tt, w1)
      /\ Main4.add_candidate_to_neo4j demo_env (profile_data alice) "resume A" w1
         = (Ok tt, w2)
      /\ graph w1 = upsert alice "resume A" (graph fresh_world)
      /\ graph w2 = graph w1.
Proof.
  split; [exact demo_always_up|].
  exact (proj1 (upsert_idempotent demo_env alice "resume A" fresh_world demo_always_up)).
Defined.

Lemma unparseable_response_skipped_witness :
  Main4.process_file (answer_env "not json") file_A fresh_world
    = (Ok tt, bump_llm fresh_world)
  /\ WordSearch.process_file (answer_env "not json") file_A fresh_world
     = (Ok tt, bump_llm fresh_world).
Proof.
  destruct (unparseable_response_skipped (answer_env "not json") file_A [file_B]
              fresh_world "not json") as [(_ & Hb & _) (_ & Hv & _)].
  - apply not_elem_of_empty.
  - reflexivity.
  - reflexivity.
  - split; [exact Hb|exact Hv].
Defined.

Lemma missing_fields_defaulted_witness :
  no_profile_field [("note", PStr "n/a")]
  /\ exists w', Main4.process_file (answer_env "note") file_A fresh_world = (Ok tt, w')
       /\ graph w' = upsert (unknown_profile "Unknown") "resume A" empty_graph
       /\ rels (graph w') = []
       /\ "a.pdf" ∈ processed_files w'.
Proof.
  assert (no_profile_field [("note", PStr "n/a")]) as Hn.
  { unfold no_profile_field, list_fields. repeat constructor. }
  split; [exact Hn|].
  destruct (missing_fields_defaulted (answer_env "note") file_A fresh_world "note"
              [("note", PStr "n/a")] eq_refl eq_refl) as (_ & _ & H).
  destruct (H Hn (not_elem_of_empty (C := gset string) "a.pdf") (answer_always_up "note"))
    as [Hb _].
  apply Hb. discriminate.
Defined.

Lemma attribute_nodes_deduplicated_witness :
  get_pdf_hash "resume A" <> get_pdf_hash "resume B"
  /\ exists w1 w2,
      Main4.add_candidate_to_neo4j demo_env (profile_data alice) "resume A" fresh_world
        = (Ok tt, w1)
      /\ Main4.add_candidate_to_neo4j demo_env (profile_data bob) "resume B" w1
         = (Ok tt, w2)
      /\ unique_keys (graph w2) /\ NoDup (rels (graph w2))
      /\ shares_skill (graph w2) (candidate_node (PStr "Alice") "resume A")
                      (candidate_node (PStr "Bob") "resume B") "Python".
Proof.
  assert (get_pdf_hash "resume A" <> get_pdf_hash "resume B") as Hh.
  { vm_compute. discriminate. }
  split; [exact Hh|].
  apply (attribute_nodes_deduplicated demo_env alice bob "resume A" "resume B" "Python"
           fresh_world demo_always_up unique_keys_empty (NoDup_nil_2 (A := relationship)) Hh).
  - apply list_elem_of_here.
  - apply list_elem_of_here.
Defined.

Lemma case_folding_per_variant_witness :
  Lowering.get_structured_data_from_llm lower demo_env "resume A" fresh_world
    = (Ok (profile_data (mkProfile "alice" ["python"; "sql"] [] [] [] [])),
       bump_llm fresh_world)
  /\ Main4.get_structured_data_from_llm demo_env "resume A" fresh_world
     = (Ok (profile_data (mkProfile "Alice" ["Python"; "SQL"] [] [] [] [])),
        bump_llm fresh_world).
Proof.
  destruct (case_folding_per_variant lower demo_env "resume A" "A" (profile_data alice)
              (profile_data (map_profile lower alice)) fresh_world
              eq_refl eq_refl eq_refl demo_always_up)
    as [(P & _ & _ & Hv & _) [[Hb _] _]].
  split; [exact Hv|exact Hb].
Defined.

Lemma same_text_same_candidate_node_witness :
  always_up demo_env /\ unique_keys (graph fresh_world)
  /\ exists w1 w2 c,
      Main4.add_candidate_to_neo4j demo_env (profile_data alice) "resume A" fresh_world
        = (Ok tt, w1)
      /\ Main4.add_candidate_to_neo4j demo_env (profile_data bob) "resume A" w1
         = (Ok tt, w2)
      /\ candidate_of "resume A" (graph w1) = Some c
      /\ candidate_of "resume A" (graph w2) = Some c
      /\ nodes (graph w1) !! c = Some (candidate_node (PStr "Alice") "resume A")
      /\ nodes (graph w2) !! c = Some (candidate_node (PStr "Bob") "resume A")
      /\ (forall j n, nodes (graph w2) !! j = Some n -> label n = "Candidate" ->
            assoc "content_hash" (props n) = Some (PStr (get_pdf_hash "resume A")) ->
            j = c)
      /\ candidate_count (graph w2) = candidate_count (graph w1).
Proof.
  split; [exact demo_always_up|]. split; [exact unique_keys_empty|].
  exact (same_text_same_candidate_node demo_env alice bob "resume A" fresh_world
           demo_always_up unique_keys_empty).
Defined.


Lemma failures_scoped_to_extraction_witness :
  Main4.process_file outage_env file_A fresh_world
    = (Raise StoreWriteError, mkWorld empty_graph ∅ 1 1)
  /\ Main4.upload_section outage_env [file_A; file_B] fresh_world
     = (Raise StoreWriteError, mkWorld empty_graph ∅ 1 1).
Proof.
  assert (Main4.process_file outage_env file_A fresh_world
          = (Raise StoreWriteError, mkWorld empty_graph ∅ 1 1)) as Hr.
  { vm_compute. reflexivity. }
  split; [exact Hr|].
  destruct (failures_scoped_to_extraction outage_env file_A [file_B] fresh_world)
    as [[_ Hb] _].
  exact (proj1 (proj2 (Hb _ _ Hr))).
Defined.

Lemma variant_rejects_ill_typed_witness :
  ill_typed (PInt 1)
  /\ WordSearch.process_file (answer_env "1") file_A fresh_world
     = (Ok tt, bump_llm fresh_world).
Proof.
  split; [exact I|].
  apply (proj2 (variant_rejects_ill_typed (answer_env "1") file_A fresh_world "1" (PInt 1)
                  eq_refl eq_refl)).
  - exact I.
  - apply not_elem_of_empty.
Defined.

(** ** What the scripts leave untouched *)

Section Respects.

Context (R : world -> world -> Prop) (R_refl : forall w, R w w)
  (R_trans : forall w1 w2 w3, R w1 w2 -> R w2 w3 -> R w1 w3).

Lemma respects_ret {A : Type} (a : A) : respects R (mret a).
Proof. intros w. apply R_refl. Qed.

Lemma respects_lift {A : Type} (r : result A) : respects R (lift r).
Proof. intros w. apply R_refl. Qed.

Lemma respects_bind {A B : Type} (c : M A) (f : A -> M B) :
  respects R c -> (forall a, respects R (f a)) -> respects R (c ≫= f).
Proof.
  intros Hc Hf w. unfold mbind, M_bind. specialize (Hc w).
  destruct (c w) as [[a|e] w1]; simpl in *; [|done].
  eapply R_trans; [exact Hc|apply Hf].
Qed.

Lemma respects_try {A : Type} (body : M A) (handler : exn -> M A) :
  respects R body -> (forall e, respects R (handler e)) ->
  respects R (try_except body handler).
Proof.
  intros Hb Hh w. unfold try_except. specialize (Hb w).
  destruct (body w) as [[a|e] w1]; simpl in *; [done|].
  eapply R_trans; [exact Hb|apply Hh].
Qed.

Lemma respects_for_each {A : Type} (xs : list A) (body : A -> M unit) :
  (forall x, respects R (body x)) -> respects R (for_each xs body).
Proof.
  intros Hb. induction xs as [|x xs IH]; cbn [for_each].
  - apply respects_ret.
  - apply respects_bind; [apply Hb|]. intros _. exact IH.
Qed.

End Respects.

Section GraphGrowth.

Implicit Types (g : Graph) (n : node) (l k : string).

Lemma graph_le_refl g : graph_le g g.
Proof. by split_and!. Qed.

Lemma graph_le_trans g1 g2 g3 : graph_le g1 g2 -> graph_le g2 g3 -> graph_le g1 g3.
Proof.
  intros (Hn1 & Hl1 & Hr1) (Hn2 & Hl2 & Hr2). split_and!; [lia|eauto|eauto].
Qed.

Lemma merge_node_grows n l k g :
  label n = l -> graph_le g (fst (merge_node n l k g)).
Proof.
  intros Hl. unfold graph_le.
  destruct (list_find (same_key l k n) (nodes g)) as [[i m]|] eqn:Hf.
  - pose proof (merge_node_labels_found n l k g i m Hl Hf) as Hlab.
    split_and!.
    + rewrite <- (length_fmap label (nodes g)), <- Hlab, length_fmap. lia.
    + intros j lj. unfold label_of. rewrite <- !list_lookup_fmap. by rewrite Hlab.
    + by rewrite merge_node_rels.
  - unfold merge_node. rewrite Hf. simpl. split_and!.
    + rewrite length_app. lia.
    + intros j lj. unfold label_of. simpl. intros Hj.
      destruct (nodes g !! j) as [nj|] eqn:Hnj; [|done].
      by rewrite (lookup_app_l_Some _ _ _ _ Hnj).
    + done.
Qed.

Lemma merge_rel_grows r g : graph_le g (fst (merge_rel r g)).
Proof.
  unfold graph_le, label_of. rewrite merge_rel_nodes. split_and!; [lia|done|].
  intros r'. apply merge_rel_mono.
Qed.

End GraphGrowth.

Lemma only_stored_refl w : only_stored w w.
Proof. split_and!; [done|done|lia|apply graph_le_refl]. Qed.

Lemma only_stored_trans w1 w2 w3 :
  only_stored w1 w2 -> only_stored w2 w3 -> only_stored w1 w3.
Proof.
  intros (Hp1 & Hl1 & Hs1 & Hg1) (Hp2 & Hl2 & Hs2 & Hg2).
  split_and!; [congruence|congruence|lia|by eapply graph_le_trans].
Qed.

Lemma only_stored_request (E : env) {A : Type} (op : Graph -> Graph * A) :
  (forall g, graph_le g (fst (op g))) -> respects only_stored (store_request E op).
Proof.
  intros Hop w. unfold store_request.
  destruct (store_up E (store_calls w)).
  - pose proof (Hop (graph w)) as Hg. destruct (op (graph w)) as [g a].
    unfold only_stored. simpl in *. split_and!; [done|done|lia|done].
  - unfold only_stored. simpl. split_and!; [done|done|lia|apply graph_le_refl].
Qed.

Lemma only_stored_inner_loop (E : env) (norm : pyval -> result pyval) l rt c its :
  respects only_stored
    (for_each its (fun item =>
       item' ← lift (norm item);
       n ← graph_merge E (Node l [("name", item')]) l "name";
       graph_merge_rel E (Relationship c rt n))).
Proof.
  apply respects_for_each; [apply only_stored_refl|apply only_stored_trans|].
  intros item.
  apply respects_bind; [apply only_stored_trans|apply respects_lift, only_stored_refl|].
  intros item'.
  apply respects_bind; [apply only_stored_trans| |].
  - apply only_stored_request. intros g. by apply merge_node_grows.
  - intros n. apply only_stored_request. intros g. apply merge_rel_grows.
Qed.

Lemma only_stored_outer_loop (E : env) (norm : pyval -> result pyval) c
    (fields : list (string * string * pyval)) :
  respects only_stored
    (for_each fields (fun '(l, rt, items) =>
       its ← lift (py_iter items);
       for_each its (fun item =>
         item' ← lift (norm item);
         n ← graph_merge E (Node l [("name", item')]) l "name";
         graph_merge_rel E (Relationship c rt n)))).
Proof.
  apply respects_for_each; [apply only_stored_refl|apply only_stored_trans|].
  intros [[l rt] items].
  apply respects_bind; [apply only_stored_trans|apply respects_lift, only_stored_refl|].
  intros its. apply only_stored_inner_loop.
Qed.

Lemma main4_add_respects (E : env) (data : pyval) (resume_text : string) :
  respects only_stored (Main4.add_candidate_to_neo4j E data resume_text).
Proof.
  unfold Main4.add_candidate_to_neo4j.
  apply respects_bind; [apply only_stored_trans|apply respects_lift, only_stored_refl|].
  intros name.
  apply respects_bind; [apply only_stored_trans| |].
  { apply only_stored_request. intros g. by apply merge_node_grows. }
  intros c.
  apply respects_bind; [apply only_stored_trans|apply respects_lift, only_stored_refl|].
  intros fields. apply (only_stored_outer_loop E Ok c fields).
Qed.

Lemma word_add_respects (E : env) (data : pyval) (resume_text : string) :
  respects only_stored (WordSearch.add_candidate_to_neo4j E data resume_text).
Proof.
  unfold WordSearch.add_candidate_to_neo4j.
  apply respects_bind; [apply only_stored_trans|apply respects_lift, only_stored_refl|].
  intros name.
  apply respects_bind; [apply only_stored_trans| |].
  { apply only_stored_request. intros g. by apply merge_node_grows. }
  intros c.
  apply respects_bind; [apply only_stored_trans|apply respects_lift, only_stored_refl|].
  intros fields. apply (only_stored_outer_loop E py_lower c fields).
Qed.

(** X1. [add_candidate_to_neo4j], whatever the data, the answers of the
    store and the way it ends (normally or by an exception), never calls
    the model and never touches the processed set, and it only grows the
    graph: every node keeps its position and label, every relationship
    stays.  In both files. *)
Theorem add_candidate_only_grows (E : env) (data : pyval) (resume_text : string)
    (w : world) :
  only_stored w (snd (Main4.add_candidate_to_neo4j E data resume_text w))
  /\ only_stored w (snd (WordSearch.add_candidate_to_neo4j E data resume_text w)).
Proof. split; [apply main4_add_respects | apply word_add_respects]. Qed.

Lemma moved_forward_refl w : moved_forward w w.
Proof. unfold moved_forward. split_and!; [done|lia|lia|apply graph_le_refl]. Qed.

Lemma moved_forward_trans w1 w2 w3 :
  moved_forward w1 w2 -> moved_forward w2 w3 -> moved_forward w1 w3.
Proof.
  intros (Hp1 & Hl1 & Hs1 & Hg1) (Hp2 & Hl2 & Hs2 & Hg2).
  split_and!; [set_solver|lia|lia|by eapply graph_le_trans].
Qed.

Lemma only_stored_moved_forward w w' : only_stored w w' -> moved_forward w w'.
Proof. intros (Hp & Hl & Hs & Hg). split_and!; [by rewrite Hp|lia|lia|done]. Qed.

Section UploadGrowth.

Context (extract : string -> M pyval) (persist : pyval -> string -> M unit).
Context (Hextract : forall t w, exists d, extract t w = (Ok d, bump_llm w)).
Context (Hpersist : forall d t, respects only_stored (persist d t)).

Lemma process_file_moves file w :
  moved_forward w (snd (process_file extract persist file w))
  /\ (llm_calls (snd (process_file extract persist file w)) <= S (llm_calls w))%nat.
Proof.
  destruct (decide (file_name file ∈ processed_files w)) as [Hin|Hin].
  { rewrite process_file_skip by done. simpl. split; [apply moved_forward_refl|lia]. }
  destruct (Hextract (extract_text_from_pdf file) w) as [d He].
  destruct (py_truthy d) eqn:Ht.
  - rewrite (process_file_truthy _ _ _ _ _ _ Hin He Ht).
    pose proof (Hpersist d (extract_text_from_pdf file) (bump_llm w)) as Hps.
    unfold only_stored in Hps. unfold moved_forward, mbind, M_bind.
    destruct (persist d (extract_text_from_pdf file) (bump_llm w)) as [[[]|e] w1];
      simpl in *; destruct Hps as (Hp & Hl & Hs & Hg).
    + split; [|lia]. split_and!; [rewrite Hp; apply union_subseteq_r|lia|lia|done].
    + split; [|lia]. split_and!; [by rewrite Hp|lia|lia|done].
  - rewrite (process_file_falsy _ _ _ _ _ _ Hin He Ht). unfold moved_forward. simpl.
    split; [|lia]. split_and!; [done|lia|lia|apply graph_le_refl].
Qed.

Lemma upload_loop_moves files w :
  moved_forward w (snd (for_each files (process_file extract persist) w))
  /\ (llm_calls (snd (for_each files (process_file extract persist) w))
      <= llm_calls w + List.length files)%nat.
Proof.
  revert w. induction files as [|file files IH]; intros w.
  - simpl. split; [apply moved_forward_refl|lia].
  - cbn [for_each]. unfold mbind, M_bind.
    destruct (process_file_moves file w) as [Hm Hc].
    destruct (process_file extract persist file w) as [[[]|e] w1]; simpl in *.
    + destruct (IH w1) as [Hm' Hc']. split; [by eapply moved_forward_trans|lia].
    + split; [done|lia].
Qed.

Lemma upload_section_moves files w :
  moved_forward w (snd (upload_section extract persist files w))
  /\ (llm_calls (snd (upload_section extract persist files w))
      <= llm_calls w + List.length files)%nat.
Proof.
  unfold upload_section. destruct files as [|file files].
  { simpl. split; [apply moved_forward_refl|lia]. }
  destruct (upload_loop_moves (file :: files) w) as [Hm Hc].
  destruct (for_each (file :: files) (process_file extract persist) w)
    as [[[]|e] w1] eqn:Hloop.
  - erewrite bind_ok by exact Hloop. by split.
  - erewrite bind_raise by exact Hloop. by split.
Qed.

(** A second run over files that are all recorded does nothing. *)
Lemma upload_loop_all_processed files w :
  Forall (fun file => file_name file ∈ processed_files w) files ->
  for_each files (process_file extract persist) w = (Ok tt, w).
Proof.
  induction 1 as [|file files Hin _ IH]; [done|].
  erewrite for_each_cons_ok; [exact IH|]. by apply process_file_skip.
Qed.

Lemma upload_section_all_processed file files w :
  Forall (fun f => file_name f ∈ processed_files w) (file :: files) ->
  upload_section extract persist (file :: files) w
  = (Ok (Some (size (processed_files w))), w).
Proof.
  intros Hall. unfold upload_section.
  erewrite bind_ok by (by apply upload_loop_all_processed). done.
Qed.

End UploadGrowth.

Lemma main4_extract_bump (E : env) t w :
  exists d, Main4.get_structured_data_from_llm E t w = (Ok d, bump_llm w).
Proof. eexists. apply main4_extract_run. Qed.

Lemma word_extract_bump (E : env) t w :
  exists d, WordSearch.get_structured_data_from_llm E t w = (Ok d, bump_llm w).
Proof. eexists. apply word_extract_run. Qed.

(** X2. An upload run, whatever the files, the answers of the model and of
    the store and the way it ends, only moves the session forward: names
    are only added to the processed set, the graph only grows, and the
    model is called at most once per uploaded file.  In both files. *)
Theorem upload_only_moves_forward (E : env) (files : list UploadedFile) (w : world) :
  (moved_forward w (snd (Main4.upload_section E files w))
   /\ (llm_calls (snd (Main4.upload_section E files w))
       <= llm_calls w + List.length files)%nat)
  /\ (moved_forward w (snd (WordSearch.upload_section E files w))
      /\ (llm_calls (snd (WordSearch.upload_section E files w))
          <= llm_calls w + List.length files)%nat).
Proof.
  split.
  - apply upload_section_moves; [apply main4_extract_bump|apply main4_add_respects].
  - apply upload_section_moves; [apply word_extract_bump|apply word_add_respects].
Qed.

(** X3. A run over files whose names are all in the processed set (the
    rerun of the script after a successful upload) calls neither the model
    nor the store, changes nothing, and shows the size of the set.  In
    both files. *)
Theorem rerun_of_processed_files_is_noop (E : env) (file : UploadedFile)
    (files : list UploadedFile) (w : world) :
  Forall (fun f => file_name f ∈ processed_files w) (file :: files) ->
  Main4.upload_section E (file :: files) w = (Ok (Some (size (processed_files w))), w)
  /\ WordSearch.upload_section E (file :: files) w
     = (Ok (Some (size (processed_files w))), w).
Proof. intros Hall. split; by apply upload_section_all_processed. Qed.

(** X4. When the call of the model raises, extraction returns the empty
    dict, the document is skipped with graph, processed set and store
    untouched, and the loop goes on with the remaining files.  In both
    files. *)
Theorem model_failure_skipped (E : env) (file : UploadedFile)
    (rest : list UploadedFile) (w : world) :
  file_name file ∉ processed_files w ->
  llm E (llm_calls w) (extraction_messages (extract_text_from_pdf file)) = None ->
  (Main4.get_structured_data_from_llm E (extract_text_from_pdf file) w
     = (Ok (PDict []), bump_llm w)
   /\ for_each (file :: rest) (Main4.process_file E) w
      = for_each rest (Main4.process_file E) (bump_llm w))
  /\ (WordSearch.get_structured_data_from_llm E (extract_text_from_pdf file) w
        = (Ok (PDict []), bump_llm w)
      /\ for_each (file :: rest) (WordSearch.process_file E) w
         = for_each rest (WordSearch.process_file E) (bump_llm w)).
Proof.
  intros Hin Hl. split.
  - assert (Main4.get_structured_data_from_llm E (extract_text_from_pdf file) w
            = (Ok (PDict []), bump_llm w)) as He.
    { rewrite main4_extract_run, Hl. done. }
    split; [done|]. apply for_each_cons_ok. by eapply process_file_falsy.
  - assert (WordSearch.get_structured_data_from_llm E (extract_text_from_pdf file) w
            = (Ok (PDict []), bump_llm w)) as He.
    { rewrite word_extract_run, Hl. done. }
    split; [done|]. apply for_each_cons_ok. by eapply process_file_falsy.
Qed.

(** X5. A document whose extraction gave a falsy value is not recorded in
    the processed set: when the script runs again over the same upload the
    model is called for it once more.  In both files. *)
Theorem skipped_document_is_retried (E : env) (file : UploadedFile) (w : world)
    (data : pyval) :
  file_name file ∉ processed_files w ->
  py_truthy data = false ->
  (Main4.get_structured_data_from_llm E (extract_text_from_pdf file) w
     = (Ok data, bump_llm w) ->
   Main4.process_file E file w = (Ok tt, bump_llm w)
   /\ llm_calls (snd (Main4.process_file E file (bump_llm w))) = S (S (llm_calls w)))
  /\ (WordSearch.get_structured_data_from_llm E (extract_text_from_pdf file) w
        = (Ok data, bump_llm w) ->
      WordSearch.process_file E file w = (Ok tt, bump_llm w)
      /\ llm_calls (snd (WordSearch.process_file E file (bump_llm w)))
         = S (S (llm_calls w))).
Proof.
  intros Hin Hf. split.
  - intros He. split; [by eapply process_file_falsy|].
    unfold Main4.process_file. rewrite process_file_new by done.
    unfold mbind at 1, M_bind at 1. rewrite main4_extract_run.
    match goal with |- context [py_truthy ?d] => destruct (py_truthy d) end.
    + pose proof (main4_add_respects E
        match llm E (llm_calls (bump_llm w))
                (extraction_messages (extract_text_from_pdf file)) with
        | Some content => default (PDict []) (json_loads E content)
        | None => PDict []
        end (extract_text_from_pdf file) (bump_llm (bump_llm w))) as (_ & Hl & _).
      unfold mbind, M_bind.
      destruct (Main4.add_candidate_to_neo4j E _ _ (bump_llm (bump_llm w)))
        as [[[]|e] w1]; simpl in *; by rewrite Hl.
    + done.
  - intros He. split; [by eapply process_file_falsy|].
    unfold WordSearch.process_file. rewrite process_file_new by done.
    unfold mbind at 1, M_bind at 1. rewrite word_extract_run.
    match goal with |- context [py_truthy ?d] => set (d0 := d); destruct (py_truthy d0) end.
    + pose proof (word_add_respects E d0 (extract_text_from_pdf file)
                    (bump_llm (bump_llm w))) as (_ & Hl & _).
      unfold mbind, M_bind.
      destruct (WordSearch.add_candidate_to_neo4j E _ _ (bump_llm (bump_llm w)))
        as [[[]|e] w1]; simpl in *; by rewrite Hl.
    + done.
Qed.

(** ** Answers of the wrong shape in main4.py *)

Lemma lowered_profile_non_dict (raw : pyval) :
  (forall d, raw <> PDict d) -> raises (WordSearch.lowered_profile raw).
Proof.
  intros Hnd. apply lowered_profile_raises.
  destruct raw; try exact I. by destruct (Hnd entries).
Qed.

Lemma py_get_non_dict (raw : pyval) key default :
  (forall d, raw <> PDict d) -> py_get raw key default = Raise AttributeError.
Proof. intros Hnd. destruct raw; try done. by destruct (Hnd entries). Qed.

(** X6. An answer that decodes to a truthy value that is not a dict (a
    non-empty list or string, a non-zero number, [true]) makes [main4.py]
    raise [AttributeError] at [data.get], before any request to the store,
    and the exception leaves the upload section; the second file skips
    the same document. *)
Theorem non_object_answer_aborts_base (E : env) (file : UploadedFile)
    (rest : list UploadedFile) (w : world) (content : string) (raw : pyval) :
  file_name file ∉ processed_files w ->
  llm E (llm_calls w) (extraction_messages (extract_text_from_pdf file)) = Some content ->
  json_loads E content = Some raw ->
  (forall d, raw <> PDict d) ->
  py_truthy raw = true ->
  Main4.process_file E file w = (Raise AttributeError, bump_llm w)
  /\ Main4.upload_section E (file :: rest) w = (Raise AttributeError, bump_llm w)
  /\ WordSearch.process_file E file w = (Ok tt, bump_llm w).
Proof.
  intros Hin Hl Hj Hnd Ht.
  assert (Main4.process_file E file w = (Raise AttributeError, bump_llm w)) as Hp.
  { unfold Main4.process_file.
    erewrite process_file_truthy; [|done|rewrite main4_extract_run, Hl, Hj; reflexivity|done].
    apply bind_raise. unfold Main4.add_candidate_to_neo4j.
    apply bind_raise. by rewrite py_get_non_dict. }
  split_and!; [done|by apply upload_section_raise|].
  apply (process_file_falsy _ _ file w (PDict []) (bump_llm w)); [done| |reflexivity].
  rewrite word_extract_run, Hl, Hj.
  by destruct (lowered_profile_non_dict raw Hnd) as [e ->].
Qed.

(** X7. In [main4.py], a dict whose "skills" value cannot be iterated (null,
    a boolean, a number) raises [TypeError] after the Candidate node has
    been merged: one request was served, the candidate is in the graph
    without any relationship added, and nothing else was done. *)
Theorem non_iterable_skills_partial_write (E : env) (d : list (string * pyval))
    (resume_text : string) (w : world) (v : pyval) :
  store_up E (store_calls w) = true ->
  assoc "skills" d = Some v ->
  not_iterable v ->
  let name := default (PStr "Unknown") (assoc "name" d) in
  let g := fst (merge_node (candidate_node name resume_text)
                  "Candidate" "content_hash" (graph w)) in
  Main4.add_candidate_to_neo4j E (PDict d) resume_text w
    = (Raise TypeError,
       mkWorld g (processed_files w) (llm_calls w) (S (store_calls w)))
  /\ candidate_of resume_text g <> None
  /\ rels g = rels (graph w).
Proof.
  intros Hup Hs Hv name g. split_and!.
  - unfold Main4.add_candidate_to_neo4j.
    erewrite bind_ok by reflexivity.
    erewrite bind_ok; cycle 1.
    { unfold graph_merge. by apply store_request_up. }
    unfold categories. cbn [comprehension]. unfold py_get.
    cbn [mbind result_bind mret result_ret]. rewrite Hs.
    erewrite bind_ok by reflexivity.
    cbn [for_each]. apply bind_raise. apply bind_raise.
    unfold lift. f_equal. by destruct v.
  - pose proof (merge_node_settles (candidate_node name resume_text)
                  "Candidate" "content_hash" (graph w) eq_refl) as Hst.
    unfold g. by rewrite (settled_candidate_of _ _ _ _ Hst).
  - apply merge_node_rels.
Qed.

(** ** The "Clear Graph DB" button and the search sections *)

(** X8. The "Clear Graph DB" button: when the store serves the request the
    graph is emptied and the processed set with it, and no query finds a
    row in the emptied graph; when the store
    refuses, the exception leaves before [processed_files.clear()], and
    graph and processed set stay as they were.  In both files. *)
Theorem clear_button_wipes_or_keeps (E : env) (w : world) :
  (store_up E (store_calls w) = true ->
     Main4.clear_button E w
       = (Ok tt, mkWorld empty_graph ∅ (llm_calls w) (S (store_calls w)))
     /\ WordSearch.clear_button E w
        = (Ok tt, mkWorld empty_graph ∅ (llm_calls w) (S (store_calls w)))
     /\ (forall skill, Main4.skill_rows skill empty_graph = [])
     /\ (forall skills, WordSearch.multi_skill_rows skills empty_graph = []))
  /\ (store_up E (store_calls w) = false ->
        Main4.clear_button E w
          = (Raise StoreWriteError,
             mkWorld (graph w) (processed_files w) (llm_calls w) (S (store_calls w)))
        /\ WordSearch.clear_button E w
           = (Raise StoreWriteError,
              mkWorld (graph w) (processed_files w) (llm_calls w) (S (store_calls w)))).
Proof.
  split; intros Hup.
  - split_and!.
    + unfold Main4.clear_button, clear_neo4j_database.
      erewrite bind_ok by (by apply store_request_up). done.
    + unfold WordSearch.clear_button, clear_neo4j_database.
      erewrite bind_ok by (by apply store_request_up). done.
    + done.
    + done.
  - split.
    + unfold Main4.clear_button, clear_neo4j_database.
      apply bind_raise. unfold store_request. by rewrite Hup.
    + unfold WordSearch.clear_button, clear_neo4j_database.
      apply bind_raise. unfold store_request. by rewrite Hup.
Qed.

Lemma store_read_frame (E : env) {A : Type} (q : Graph -> A) w :
  graph (snd (store_request E (fun g => (g, q g)) w)) = graph w
  /\ processed_files (snd (store_request E (fun g => (g, q g)) w)) = processed_files w
  /\ llm_calls (snd (store_request E (fun g => (g, q g)) w)) = llm_calls w
  /\ store_calls (snd (store_request E (fun g => (g, q g)) w)) = S (store_calls w).
Proof. unfold store_request. by destruct (store_up E (store_calls w)). Qed.

(** X9. The search sections only read: whatever the input and the answer
    of the store, graph, processed set and model calls are as before.  An
    input that gives no skill to look for (empty, or in the second file
    made of commas and white space only) makes no request to the store at
    all; any other input makes exactly one. *)
Theorem search_only_reads (E : env) (input : string) (w : world) :
  (let w' := snd (Main4.search_section E input w) in
   graph w' = graph w /\ processed_files w' = processed_files w
   /\ llm_calls w' = llm_calls w
   /\ store_calls w' = if String.eqb input EmptyString then store_calls w
                       else S (store_calls w))
  /\ (let w' := snd (WordSearch.search_section E input w) in
      graph w' = graph w /\ processed_files w' = processed_files w
      /\ llm_calls w' = llm_calls w
      /\ store_calls w' = match WordSearch.parse_skills input with
                          | [] => store_calls w
                          | _ => S (store_calls w)
                          end).
Proof.
  split.
  - unfold Main4.search_section. destruct (String.eqb input EmptyString); [done|].
    pose proof (store_read_frame E (Main4.skill_rows input) w) as Hf.
    unfold mbind, M_bind.
    by destruct (store_request E _ w) as [[rows|e] w1].
  - unfold WordSearch.search_section.
    destruct (WordSearch.parse_skills input) as [|x skills]; [done|].
    pose proof (store_read_frame E (WordSearch.multi_skill_rows (x :: skills)) w) as Hf.
    unfold mbind, M_bind.
    by destruct (store_request E _ w) as [[rows|e] w1].
Qed.

(** ** The queries of the two files *)

Section Queries.

Implicit Types (g : Graph) (c s : nat) (skills : list string).

Lemma skill_rows_elem g x (row : row) :
  row ∈ Main4.skill_rows x g <->
  exists c s, (c, s) ∈ match_has_skill g
              /\ prop g s "name" = Some (PStr x)
              /\ row = candidate_row g c.
Proof.
  unfold Main4.skill_rows. rewrite list_elem_of_fmap. split.
  - intros ([c s] & -> & Hin). apply list_elem_of_filter in Hin as [Hn Hm].
    exists c, s. done.
  - intros (c & s & Hm & Hn & ->). exists (c, s). split; [done|].
    by apply list_elem_of_filter.
Qed.

Lemma skill_names_elem g c v :
  v ∈ skill_names g c <-> exists s, (c, s) ∈ match_has_skill g /\ prop g s "name" = Some v.
Proof.
  unfold skill_names. rewrite list_elem_of_omap. split.
  - intros ([c' s] & Hm & Hv). simpl in Hv. case_decide as Hd; [|done].
    simpl in Hd. subst c'. eauto.
  - intros (s & Hm & Hv). exists (c, s). split; [done|]. simpl. by rewrite decide_True.
Qed.

Lemma single_skill_rows g x (row : row) :
  row ∈ WordSearch.multi_skill_rows [x] g <-> row ∈ Main4.skill_rows x g.
Proof.
  rewrite multi_skill_rows_spec; [|apply NoDup_singleton|done].
  rewrite skill_rows_elem. unfold superset_match. split.
  - intros (c & Hl & -> & Hall).
    destruct (proj1 (skill_names_elem g c (PStr x))) as (s & Hm & Hn).
    { apply Hall, list_elem_of_here. }
    eauto.
  - intros (c & s & Hm & Hn & ->). exists c. split_and!.
    + by eapply match_has_skill_candidate.
    + done.
    + intros y Hy. apply list_elem_of_singleton in Hy as ->.
      apply skill_names_elem. eauto.
Qed.

Lemma remove_dups_length_le {A : Type} `{EqDecision A} (l : list A) :
  (List.length (remove_dups l) <= List.length l)%nat.
Proof.
  induction l as [|x l IH]; simpl; [lia|]. case_decide; simpl; lia.
Qed.

Lemma remove_dups_length_eq {A : Type} `{EqDecision A} (l : list A) :
  List.length (remove_dups l) = List.length l -> NoDup l.
Proof.
  induction l as [|x l IH]; simpl; [constructor|].
  pose proof (remove_dups_length_le l). case_decide as Hx; simpl; intros Hlen; [lia|].
  constructor; [done|]. apply IH. lia.
Qed.

Lemma matchedSkills_bound g skills c :
  (WordSearch.matchedSkills skills g c <= List.length (remove_dups skills))%nat.
Proof.
  unfold WordSearch.matchedSkills.
  rewrite <- (length_fmap PStr (remove_dups skills)).
  apply submseteq_length, NoDup_submseteq; [apply NoDup_remove_dups|].
  intros v Hv. apply (proj1 (elem_of_remove_dups _ _)) in Hv.
  apply counted_names_elem in Hv as (_ & x & -> & Hx).
  apply list_elem_of_fmap. exists x. split; [done|]. by apply elem_of_remove_dups.
Qed.

Lemma multi_skill_rows_repeated g skills :
  ~ NoDup skills -> WordSearch.multi_skill_rows skills g = [].
Proof.
  intros Hnd. unfold WordSearch.multi_skill_rows.
  assert (filter (fun c => WordSearch.matchedSkills skills g c = List.length skills)
            (remove_dups (map fst (WordSearch.matched skills g))) = []) as ->; [|done].
  apply elem_of_nil_inv. intros c Hc. apply list_elem_of_filter in Hc as [Hfull _].
  pose proof (matchedSkills_bound g skills c) as Hb.
  pose proof (remove_dups_length_le skills) as Hle.
  apply Hnd, remove_dups_length_eq. lia.
Qed.

End Queries.

(** X10. The single-skill query of [main4.py] and the multi-skill query of
    the second file asked for one name return the same rows, on every
    graph (the first may repeat a row, the second does not). *)
Theorem single_skill_queries_agree (g : Graph) (x : string) (r : row) :
  r ∈ WordSearch.multi_skill_rows [x] g <-> r ∈ Main4.skill_rows x g.
Proof. apply single_skill_rows. Qed.

(** X11. A skill name given twice in the input of the second file's search
    finds nobody, on every graph: [SIZE($skills)] counts it twice and
    [COUNT(DISTINCT s.name)] once. *)
Theorem repeated_skill_finds_nobody (g : Graph) (skills : list string) :
  ~ NoDup skills -> WordSearch.multi_skill_rows skills g = [].
Proof. apply multi_skill_rows_repeated. Qed.

(** ** From ingestion to search *)

Section RoundTrip.

Lemma settled_label (m : node) l k i g :
  settled m l k i g -> label_of g i = Some (label m).
Proof. intros Hs%settled_lookup. unfold label_of. by rewrite Hs. Qed.

Lemma settled_prop (m : node) l k i g key :
  settled m l k i g -> prop g i key = assoc key (props m).
Proof. intros Hs%settled_lookup. unfold prop. by rewrite Hs. Qed.

(** After an ingestion, the candidate is matched with the node of each
    skill of the plan. *)
Lemma upsert_with_binds cand plan g x :
  label cand = "Candidate" -> attribute_plan plan ->
  ("Skill", "HAS_SKILL", PStr x) ∈ plan ->
  let g' := upsert_with cand plan g in
  exists c s,
    nodes g' !! c = Some cand
    /\ (c, s) ∈ match_has_skill g'
    /\ prop g' s "name" = Some (PStr x).
Proof.
  intros Hl Hp Hx g'.
  destruct (upsert_with_spec cand plan g Hl Hp) as [Hs Hk].
  rewrite Forall_forall in Hk. destruct (Hk _ Hx) as (s & Hss & Hr). simpl in *.
  unfold g'. exists (snd (merge_node cand "Candidate" "content_hash" g)), s. split_and!.
  - by eapply settled_lookup.
  - apply match_has_skill_elem. split_and!.
    + exact Hr.
    + rewrite (settled_label _ _ _ _ _ Hs). by rewrite Hl.
    + by rewrite (settled_label _ _ _ _ _ Hss).
  - by rewrite (settled_prop _ _ _ _ _ _ Hss).
Qed.

Lemma candidate_row_of name resume_text c g :
  nodes g !! c = Some (candidate_node name resume_text) ->
  candidate_row g c = (Some name, Some (PStr resume_text)).
Proof. intros Hc. unfold candidate_row, prop. by rewrite Hc. Qed.

Lemma word_search_run (E : env) input w :
  WordSearch.parse_skills input <> [] ->
  store_up E (store_calls w) = true ->
  WordSearch.search_section E input w
  = (Ok (Some (WordSearch.multi_skill_rows (WordSearch.parse_skills input) (graph w))),
     mkWorld (graph w) (processed_files w) (llm_calls w) (S (store_calls w))).
Proof.
  intros Hne Hup. unfold WordSearch.search_section.
  destruct (WordSearch.parse_skills input) as [|y ys]; [done|].
  erewrite bind_ok by (by apply store_request_up). done.
Qed.

End RoundTrip.

(** X12. In [main4.py], once a profile has been persisted, the single-skill
    query for any of its skills, spelled as it was extracted, returns the
    row of the candidate: its name and the text of the resume. *)
Theorem ingested_candidate_is_found (E : env) (P : Profile) (resume_text x : string)
    (w : world) :
  always_up E ->
  x ∈ p_skills P ->
  exists w',
    Main4.add_candidate_to_neo4j E (profile_data P) resume_text w = (Ok tt, w')
    /\ (Some (PStr (p_name P)), Some (PStr resume_text))
         ∈ Main4.skill_rows x (graph w').
Proof.
  intros Hup Hx. eexists. split; [by apply main4_add_profile_run|]. simpl.
  destruct (upsert_with_binds (candidate_node (PStr (p_name P)) resume_text)
              (plan_of P) (graph w) x eq_refl (attribute_plan_of P) (skill_in_plan x P Hx))
    as (c & s & Hc & Hm & Hn).
  apply skill_rows_elem. exists c, s. split_and!; [done|done|].
  symmetry. by apply candidate_row_of.
Qed.

(** X13. In the second file, once a profile has been persisted, a search
    whose input parses to a non-empty duplicate-free list of names that
    are all lower-cased skills of the profile returns the row of the
    candidate (lower-cased name, text of the resume), whatever the case
    the skills were extracted in. *)
Theorem search_finds_ingested_candidate (E : env) (P : Profile)
    (resume_text input : string) (w : world) :
  always_up E ->
  WordSearch.parse_skills input <> [] ->
  NoDup (WordSearch.parse_skills input) ->
  (forall y, y ∈ WordSearch.parse_skills input -> y ∈ map lower (p_skills P)) ->
  exists w' rows w'',
    WordSearch.add_candidate_to_neo4j E (profile_data P) resume_text w = (Ok tt, w')
    /\ WordSearch.search_section E input w' = (Ok (Some rows), w'')
    /\ (Some (PStr (lower (p_name P))), Some (PStr resume_text)) ∈ rows.
Proof.
  intros Hup Hne Hnd Hsub. eexists _, _, _. split_and!.
  - by apply word_add_profile_run.
  - by apply word_search_run.
  - simpl. apply multi_skill_rows_spec; [done|done|].
    set (cand := candidate_node (PStr (lower (p_name P))) resume_text).
    set (g' := upsert (lower_profile P) resume_text (graph w)).
    destruct (upsert_with_spec cand (plan_of (lower_profile P)) (graph w) eq_refl
                (attribute_plan_of _)) as [Hs Hk].
    fold cand in Hs.
    set (c := snd (merge_node cand "Candidate" "content_hash" (graph w))) in *.
    exists c. split_and!.
    + exact (settled_label _ _ _ _ _ Hs).
    + symmetry. apply candidate_row_of. by eapply settled_lookup.
    + intros y Hy. apply skill_names_elem.
      rewrite Forall_forall in Hk.
      destruct (Hk ("Skill", "HAS_SKILL", PStr y)) as (s & Hss & Hr).
      { apply skill_in_plan. simpl. by apply Hsub. }
      simpl in *. exists s. split.
      * apply match_has_skill_elem. split_and!.
        -- exact Hr.
        -- exact (settled_label _ _ _ _ _ Hs).
        -- exact (settled_label _ _ _ _ _ Hss).
      * exact (settled_prop _ _ _ _ _ "name" Hss).
Qed.


(** ** The strings of the search input *)

Section Strings.

Implicit Types (cs l : list ascii) (s t : string) (c : ascii).

Lemma lstrip_split cs :
  exists sp, cs = sp ++ WordSearch.lstrip cs /\ Forall (fun c => WordSearch.is_space c = true) sp.
Proof.
  induction cs as [|c cs (sp & Heq & Hsp)]; [by exists []|].
  simpl. destruct (WordSearch.is_space c) eqn:Hc.
  - exists (c :: sp). split; [simpl; by f_equal|by constructor].
  - by exists [].
Qed.

Lemma lstrip_head cs c r :
  WordSearch.lstrip cs = c :: r -> WordSearch.is_space c = false.
Proof.
  induction cs as [|c' cs IH]; [done|]. simpl.
  destruct (WordSearch.is_space c') eqn:Hc; [done|]. by intros [= <- _].
Qed.

Lemma lstrip_fixed cs :
  match cs with c :: _ => WordSearch.is_space c = false | [] => True end ->
  WordSearch.lstrip cs = cs.
Proof. destruct cs as [|c cs]; [done|]. simpl. by intros ->. Qed.

Lemma lstrip_idempotent cs :
  WordSearch.lstrip (WordSearch.lstrip cs) = WordSearch.lstrip cs.
Proof.
  apply lstrip_fixed. destruct (WordSearch.lstrip cs) as [|c r] eqn:H; [done|].
  by eapply lstrip_head.
Qed.

Lemma lstrip_elem cs c : c ∈ WordSearch.lstrip cs -> c ∈ cs.
Proof.
  destruct (lstrip_split cs) as (sp & Heq & _). intros Hc.
  rewrite Heq. apply elem_of_app. by right.
Qed.

Lemma strip_chars_elem cs c : c ∈ strip_chars cs -> c ∈ cs.
Proof.
  unfold strip_chars. intros H. apply list_elem_of_In, in_rev, list_elem_of_In in H.
  apply lstrip_elem, list_elem_of_In, in_rev, list_elem_of_In in H.
  by apply lstrip_elem.
Qed.

Lemma strip_chars_idempotent cs : strip_chars (strip_chars cs) = strip_chars cs.
Proof.
  unfold strip_chars.
  set (m := WordSearch.lstrip cs). set (n := WordSearch.lstrip (rev m)).
  assert (WordSearch.lstrip (rev n) = rev n) as ->.
  { apply lstrip_fixed. destruct (rev n) as [|c r] eqn:Hr; [done|].
    destruct (lstrip_split (rev m)) as (sp & Heq & _). fold n in Heq.
    assert (m = rev n ++ rev sp) as Hm.
    { rewrite <- (rev_involutive m), Heq, rev_app_distr. done. }
    rewrite Hr in Hm. simpl in Hm. by eapply (lstrip_head cs c). }
  rewrite rev_involutive. unfold n. by rewrite lstrip_idempotent.
Qed.

Lemma strip_unfold s :
  WordSearch.strip s = string_of_list_ascii (strip_chars (list_ascii_of_string s)).
Proof. done. Qed.

Lemma strip_idempotent s : WordSearch.strip (WordSearch.strip s) = WordSearch.strip s.
Proof.
  rewrite !strip_unfold, list_ascii_of_string_of_list_ascii.
  by rewrite strip_chars_idempotent.
Qed.

Lemma is_space_lower c : WordSearch.is_space (lower_ascii c) = WordSearch.is_space c.
Proof. destruct c as [[] [] [] [] [] [] [] []]; reflexivity. Qed.

Lemma lower_chars s :
  list_ascii_of_string (lower s) = map lower_ascii (list_ascii_of_string s).
Proof. induction s as [|c s IH]; simpl; [done|]. by rewrite IH. Qed.

Lemma lower_of_chars cs :
  string_of_list_ascii (map lower_ascii cs) = lower (string_of_list_ascii cs).
Proof. induction cs as [|c cs IH]; simpl; [done|]. by rewrite IH. Qed.

Lemma lstrip_lower cs :
  WordSearch.lstrip (map lower_ascii cs) = map lower_ascii (WordSearch.lstrip cs).
Proof.
  induction cs as [|c cs IH]; [done|]. simpl. rewrite is_space_lower.
  by destruct (WordSearch.is_space c).
Qed.

Lemma strip_chars_lower cs :
  strip_chars (map lower_ascii cs) = map lower_ascii (strip_chars cs).
Proof.
  unfold strip_chars. by rewrite lstrip_lower, <- map_rev, lstrip_lower, map_rev.
Qed.

Lemma strip_lower s : WordSearch.strip (lower s) = lower (WordSearch.strip s).
Proof. by rewrite !strip_unfold, lower_chars, strip_chars_lower, lower_of_chars. Qed.

Lemma lower_empty s : lower s = EmptyString -> s = EmptyString.
Proof. by destruct s. Qed.

Lemma lower_ascii_comma c : lower_ascii c = ","%char -> c = ","%char.
Proof. destruct c as [[] [] [] [] [] [] [] []]; (done || discriminate). Qed.

Lemma split_chars_no_sep sep cs piece :
  piece ∈ WordSearch.split_chars sep cs -> sep ∉ piece.
Proof.
  revert piece. induction cs as [|c cs IH]; intros piece; simpl.
  - intros ->%list_elem_of_singleton. apply not_elem_of_nil.
  - case_decide as Hc.
    + intros [->|H]%elem_of_cons; [apply not_elem_of_nil|by apply IH].
    + destruct (WordSearch.split_chars sep cs) as [|h t].
      * intros ->%list_elem_of_singleton. intros [->|H]%elem_of_cons; [done|].
        by apply elem_of_nil in H.
      * intros [->|H]%elem_of_cons.
        -- intros [->|H]%elem_of_cons; [done|]. revert H. apply IH, list_elem_of_here.
        -- by apply IH, list_elem_of_further.
Qed.

Lemma parsed_token_clean input t :
  t ∈ WordSearch.parse_skills input -> clean_token t.
Proof.
  unfold WordSearch.parse_skills.
  destruct (String.eqb input EmptyString); [by intros H%elem_of_nil|].
  intros (s & -> & Hs)%list_elem_of_fmap.
  apply list_elem_of_filter in Hs as [Hne Hs].
  unfold WordSearch.split_comma in Hs.
  apply list_elem_of_fmap in Hs as (piece & -> & Hp).
  split_and!.
  - intros H%lower_empty. done.
  - apply lower_idempotent.
  - by rewrite strip_lower, strip_idempotent.
  - rewrite lower_chars. intros (c & Hc & Hin)%list_elem_of_fmap.
    symmetry in Hc. apply lower_ascii_comma in Hc as ->.
    rewrite strip_unfold, !list_ascii_of_string_of_list_ascii in Hin.
    apply strip_chars_elem in Hin. by apply split_chars_no_sep in Hp.
Qed.

End Strings.

(** X15. Every skill name the search of the second file asks the store for
    is non-empty, lower-case, free of surrounding white space and of
    commas; hence a Skill node whose name is not of that form (for
    instance a skill extracted with a trailing space or holding a comma)
    is matched by no search input. *)
Theorem search_tokens_are_clean (input : string) :
  Forall clean_token (WordSearch.parse_skills input)
  /\ forall g s x,
       prop g s "name" = Some (PStr x) -> ~ clean_token x ->
       WordSearch.name_in g (WordSearch.parse_skills input) s = false.
Proof.
  split.
  - apply Forall_forall. intros t. apply parsed_token_clean.
  - intros g s x Hp Hx. apply not_true_is_false. intros Hn.
    apply name_in_true in Hn as (x' & Hp' & Hin).
    rewrite Hp in Hp'. injection Hp' as <-. by apply Hx, (parsed_token_clean input).
Qed.

(** ** The text and the hash of a document *)

Lemma append_assoc (a b c : string) : ((a ++ b) ++ c)%string = (a ++ (b ++ c))%string.
Proof.
  induction a as [|x a IH]; [reflexivity|].
  change (String x ((a ++ b) ++ c) = String x (a ++ (b ++ c)))%string. by rewrite IH.
Qed.

(** X16. The text of a document is its pages joined by a newline: a
    document without page has the empty text, a one-page document the text
    of its page, and a page break reads as a newline inside a page, so
    that two documents with the same joined text have the same text and
    the same hash, whatever their names and page breaks. *)
Theorem page_breaks_are_newlines (name name' : string) (p q : string)
    (rest : list string) :
  extract_text_from_pdf (mkFile name []) = EmptyString
  /\ extract_text_from_pdf (mkFile name [p]) = p
  /\ extract_text_from_pdf (mkFile name (p :: q :: rest))
     = extract_text_from_pdf (mkFile name' ((p ++ newline ++ q)%string :: rest))
  /\ get_pdf_hash (extract_text_from_pdf (mkFile name (p :: q :: rest)))
     = get_pdf_hash (extract_text_from_pdf (mkFile name' ((p ++ newline ++ q)%string :: rest))).
Proof.
  assert (extract_text_from_pdf (mkFile name (p :: q :: rest))
          = extract_text_from_pdf (mkFile name' ((p ++ newline ++ q)%string :: rest))) as H.
  { unfold extract_text_from_pdf. simpl. destruct rest as [|r rest]; [done|].
    by rewrite !append_assoc. }
  split_and!; [done|done|exact H|by rewrite H].
Qed.

Section HashFormat.

Lemma le_bytes_length n x : List.length (MD5.le_bytes n x) = n.
Proof. revert x. induction n as [|n IH]; intros x; simpl; [done|]. by rewrite IH. Qed.

Lemma le_bytes_range n x : Forall (fun b => 0 <= b < 256) (MD5.le_bytes n x).
Proof.
  revert x. induction n as [|n IH]; intros x; simpl; constructor; [|apply IH].
  change 255 with (Z.ones 8). rewrite Z.land_ones by lia.
  apply Z.mod_pos_bound. lia.
Qed.

Lemma digest_length msg : List.length (MD5.digest msg) = 16%nat.
Proof.
  unfold MD5.digest.
  destruct (fold_left MD5.compress _ MD5.init) as [[[a b] c] d].
  by rewrite !length_app, !le_bytes_length.
Qed.

Lemma digest_range msg : Forall (fun b => 0 <= b < 256) (MD5.digest msg).
Proof.
  unfold MD5.digest.
  destruct (fold_left MD5.compress _ MD5.init) as [[[a b] c] d].
  rewrite !Forall_app. split_and!; apply le_bytes_range.
Qed.

Lemma hex_digit_is_hex n : 0 <= n < 16 -> is_hex_digit (MD5.hex_digit n).
Proof.
  intros Hn. rewrite <- (Z2Nat.id n) by lia.
  assert (Z.to_nat n < 16)%nat as Hk by lia.
  revert Hk. generalize (Z.to_nat n) as k. clear n Hn. intros k Hk.
  unfold is_hex_digit.
  do 16 (destruct k as [|k];
         [vm_compute; repeat first [apply list_elem_of_here | apply list_elem_of_further]|]).
  lia.
Qed.

Lemma hex_length bs : String.length (MD5.hex bs) = (2 * List.length bs)%nat.
Proof. induction bs as [|b bs IH]; simpl; [done|]. rewrite IH. lia. Qed.

Lemma hex_is_hex bs :
  Forall (fun b => 0 <= b < 256) bs ->
  Forall is_hex_digit (list_ascii_of_string (MD5.hex bs)).
Proof.
  induction 1 as [|b bs Hb _ IH]; simpl; [constructor|].
  constructor; [|constructor; [|exact IH]].
  - apply hex_digit_is_hex. rewrite Z.shiftr_div_pow2 by lia.
    change (2 ^ 4) with 16. split; [apply Z.div_pos; lia|].
    apply Z.div_lt_upper_bound; lia.
  - apply hex_digit_is_hex. change 15 with (Z.ones 4). rewrite Z.land_ones by lia.
    apply Z.mod_pos_bound. lia.
Qed.

End HashFormat.

(** X17. The content hash of every text is a string of exactly 32
    lower-case hexadecimal digits. *)
Theorem content_hash_is_32_hex_digits (text : string) :
  String.length (get_pdf_hash text) = 32%nat
  /\ Forall is_hex_digit (list_ascii_of_string (get_pdf_hash text)).
Proof.
  unfold get_pdf_hash, MD5.hexdigest. split.
  - by rewrite hex_length, digest_length.
  - apply hex_is_hex, digest_range.
Qed.

(** ** What the search sections show *)

Section PageLemmas.

Context (str_of : pyval -> string) (exn_text : exn -> string) (E : env).

Lemma ui_bind_ok {A B : Type} (c : UI A) (f : A -> UI B) p a p' :
  c p = (Ok a, p') -> (c ≫= f) p = f a p'.
Proof. intros H. unfold mbind, UI_bind. by rewrite H. Qed.

Lemma ui_bind_raise {A B : Type} (c : UI A) (f : A -> UI B) p e p' :
  c p = (Raise e, p') -> (c ≫= f) p = (Raise e, p').
Proof. intros H. unfold mbind, UI_bind. by rewrite H. Qed.

Lemma run_result {A : Type} (c : M A) p r w :
  c (session p) = (r, w) -> run c p = (r, mkPage w (screen p)).
Proof. intros H. unfold run. by rewrite H. Qed.

(** The summary call never raises: the answer stripped, or the error
    text. *)
Lemma generate_summary_run (res : row) w :
  generate_summary str_of exn_text E res w
  = (Ok match llm E (llm_calls w) (summary_messages str_of (snd res)) with
        | Some answer => WordSearch.strip answer
        | None => ("Error generating summary: " ++ exn_text LLMError)%string
        end,
     bump_llm w).
Proof.
  unfold generate_summary, try_except.
  destruct (llm E (llm_calls w) _) as [answer|] eqn:Hl.
  - by erewrite bind_ok by (by apply llm_call_ok).
  - by erewrite bind_raise by (by apply llm_call_error).
Qed.

Lemma show_candidate_named (res : row) name p :
  row_name res = Some name ->
  show_candidate str_of exn_text E res p
  = (Ok tt,
     mkPage (bump_llm (session p))
            (screen p ++ shown_candidate str_of exn_text E (llm_calls (session p))
                           name (snd res))).
Proof.
  intros Hn. destruct res as [[[| | | |s| |]|] content]; try done.
  injection Hn as ->. unfold show_candidate.
  erewrite ui_bind_ok by reflexivity.
  erewrite ui_bind_ok by reflexivity.
  erewrite ui_bind_ok; cycle 1.
  { apply run_result. apply generate_summary_run. }
  unfold show, shown_candidate. simpl. by rewrite <- app_assoc.
Qed.

Lemma show_candidate_unnamed (res : row) p :
  row_name res = None ->
  show_candidate str_of exn_text E res p = (Raise AttributeError, p).
Proof.
  intros Hn. unfold show_candidate. apply ui_bind_raise.
  destruct p. by destruct res as [[[| | | |s| |]|] content].
Qed.

Lemma after_llm_calls_bump n w :
  after_llm_calls n (bump_llm w) = after_llm_calls (S n) w.
Proof. unfold after_llm_calls, bump_llm. simpl. f_equal. lia. Qed.

Lemma show_candidates_named (rows : list row) p :
  Forall (fun res => is_Some (row_name res)) rows ->
  for_each_shown rows (show_candidate str_of exn_text E) p
  = (Ok tt,
     mkPage (after_llm_calls (List.length rows) (session p))
            (screen p ++ shown_candidates str_of exn_text E (llm_calls (session p)) rows)).
Proof.
  intros Hall. revert p. induction Hall as [|res rows [name Hn] _ IH]; intros p.
  - destruct p as [[g pf lc sc] scr]. unfold for_each_shown, mret, UI_ret.
    simpl. by rewrite app_nil_r.
  - cbn [for_each_shown]. erewrite ui_bind_ok by (by apply show_candidate_named).
    rewrite IH. cbn [session screen List.length shown_candidates].
    rewrite after_llm_calls_bump, Hn, <- app_assoc. done.
Qed.

Lemma show_candidates_stop (before after : list row) (res : row) p :
  Forall (fun res => is_Some (row_name res)) before ->
  row_name res = None ->
  for_each_shown (before ++ res :: after) (show_candidate str_of exn_text E) p
  = (Raise AttributeError,
     mkPage (after_llm_calls (List.length before) (session p))
            (screen p ++ shown_candidates str_of exn_text E (llm_calls (session p)) before)).
Proof.
  intros Hall Hn. revert p. induction Hall as [|r rows [name Hr] _ IH]; intros p.
  - simpl. erewrite ui_bind_raise by (by apply show_candidate_unnamed).
    destruct p as [[g pf lc sc] scr]. simpl. by rewrite app_nil_r.
  - simpl. erewrite ui_bind_ok by (by apply show_candidate_named).
    rewrite IH. cbn [session screen List.length shown_candidates].
    rewrite after_llm_calls_bump, Hr, <- app_assoc. done.
Qed.

Lemma main4_rows_shown (rows : list row) p :
  for_each_shown rows (fun res =>
    show (Markdown ("**" ++ format_value str_of (fst res) ++ "**" ++ newline)%string)) p
  = (Ok tt,
     mkPage (session p)
            (screen p ++ map (fun res => Markdown ("**" ++ format_value str_of (fst res)
                                                   ++ "**" ++ newline)%string) rows)).
Proof.
  revert p. induction rows as [|res rows IH]; intros p.
  - destruct p. unfold for_each_shown, mret, UI_ret. simpl. by rewrite app_nil_r.
  - cbn [for_each_shown]. erewrite ui_bind_ok by reflexivity.
    rewrite IH. simpl. by rewrite <- app_assoc.
Qed.

End PageLemmas.

(** X18. The result list of the second file: when the store answers and
    every row has a str name, the section never raises; it shows the
    subheader and then, for each row in order, the title-cased name and
    one summary, which is the stripped answer of the model to that row's
    call or, when that call raises, the error text; one call of the model
    is made per row, and a failing call leaves the other rows' summaries
    as they are.  With no row, a warning is shown and the model is not
    called. *)
Theorem summaries_are_isolated (str_of : pyval -> string) (exn_text : exn -> string)
    (E : env) (input : string) (p : page) :
  store_up E (store_calls (session p)) = true ->
  WordSearch.parse_skills input <> [] ->
  let w := session p in
  let rows := WordSearch.multi_skill_rows (WordSearch.parse_skills input) (graph w) in
  Forall (fun res => is_Some (row_name res)) rows ->
  word_search_page str_of exn_text E input p
  = (Ok tt,
     mkPage (mkWorld (graph w) (processed_files w)
                     (List.length rows + llm_calls w) (S (store_calls w)))
            (screen p
             ++ Subheader ("Candidates matching skills: "
                           ++ String.concat ", " (WordSearch.parse_skills input))%string
             :: match rows with
                | [] => [Warning "No candidates found for the selected skills."]
                | _ => shown_candidates str_of exn_text E (llm_calls w) rows
                end)).
Proof.
  intros Hup Hne w rows Hall. unfold word_search_page.
  destruct (WordSearch.parse_skills input) as [|y ys] eqn:Hparse; [done|].
  erewrite ui_bind_ok; cycle 1.
  { apply run_result. by apply store_request_up. }
  erewrite ui_bind_ok by reflexivity.
  cbn [fst snd]. fold w. fold rows.
  destruct rows as [|res rows'] eqn:Hrows.
  - unfold show. cbn [session screen]. by rewrite <- app_assoc.
  - rewrite (show_candidates_named str_of exn_text E (res :: rows') _ Hall).
    cbn [session screen llm_calls]. unfold after_llm_calls. cbn.
    by rewrite <- app_assoc.
Qed.

(** X19. A row whose name is null or not a str stops the result list of
    the second file with [AttributeError] at [.title()]: the rows before
    it have been shown, the model is called neither for it nor for the
    rows after it.  The list of [main4.py] formats the name and never
    raises. *)
Theorem unnamed_row_stops_the_list (str_of : pyval -> string) (exn_text : exn -> string)
    (E : env) (before after : list row) (res : row) (p : page) :
  Forall (fun res => is_Some (row_name res)) before ->
  row_name res = None ->
  for_each_shown (before ++ res :: after) (show_candidate str_of exn_text E) p
  = (Raise AttributeError,
     mkPage (after_llm_calls (List.length before) (session p))
            (screen p
             ++ shown_candidates str_of exn_text E (llm_calls (session p)) before))
  /\ for_each_shown (before ++ res :: after) (fun res =>
       show (Markdown ("**" ++ format_value str_of (fst res) ++ "**" ++ newline)%string)) p
     = (Ok tt,
        mkPage (session p)
               (screen p
                ++ map (fun res => Markdown ("**" ++ format_value str_of (fst res)
                                             ++ "**" ++ newline)%string)
                       (before ++ res :: after))).
Proof.
  intros Hall Hn. split.
  - by apply show_candidates_stop.
  - apply main4_rows_shown.
Qed.

(** ** Names written by the second file *)

Section StrNames.

Lemma merge_node_names n l k g :
  label n = l ->
  (l = "Candidate" -> exists s, assoc "name" (props n) = Some (PStr s)) ->
  names_are_str g -> names_are_str (fst (merge_node n l k g)).
Proof.
  intros Hl Hn Hg. unfold merge_node.
  destruct (list_find (same_key l k n) (nodes g)) as [[i m]|] eqn:Hf; simpl.
  - intros j nj Hj Hlab. simpl in Hj.
    apply list_lookup_insert_Some in Hj as [(-> & <- & _)|[_ Hj]].
    + apply Hn. congruence.
    + by eapply Hg.
  - intros j nj Hj Hlab. simpl in Hj.
    apply lookup_app_Some in Hj as [Hj|[_ Hj]]; [by eapply Hg|].
    apply list_lookup_singleton_Some in Hj as [_ <-]. apply Hn. congruence.
Qed.

Lemma merge_rel_names r g : names_are_str g -> names_are_str (fst (merge_rel r g)).
Proof. unfold names_are_str. by rewrite merge_rel_nodes. Qed.

Lemma keeps_names_refl w : keeps_names w w.
Proof. by intros H. Qed.

Lemma keeps_names_trans w1 w2 w3 :
  keeps_names w1 w2 -> keeps_names w2 w3 -> keeps_names w1 w3.
Proof. unfold keeps_names. auto. Qed.

Lemma keeps_names_request (E : env) {A : Type} (op : Graph -> Graph * A) :
  (forall g, names_are_str g -> names_are_str (fst (op g))) ->
  respects keeps_names (store_request E op).
Proof.
  intros Hop w Hg. unfold store_request. destruct (store_up E (store_calls w)).
  - pose proof (Hop (graph w) Hg). by destruct (op (graph w)).
  - done.
Qed.

Lemma respects_bind_lift (R : world -> world -> Prop) {A B : Type}
    (r : result A) (f : A -> M B) :
  (forall w, R w w) ->
  (forall a, r = Ok a -> respects R (f a)) -> respects R (lift r ≫= f).
Proof.
  intros Hrefl Hf w. unfold mbind, M_bind, lift. destruct r as [a|e]; simpl.
  - by apply Hf.
  - apply Hrefl.
Qed.

Lemma respects_for_each_Forall (R : world -> world -> Prop) {A : Type}
    (xs : list A) (body : A -> M unit) :
  (forall w, R w w) -> (forall w1 w2 w3, R w1 w2 -> R w2 w3 -> R w1 w3) ->
  Forall (fun x => respects R (body x)) xs -> respects R (for_each xs body).
Proof.
  intros Hrefl Htrans. induction 1 as [|x xs Hx _ IH]; cbn [for_each].
  - by apply respects_ret.
  - apply respects_bind; [done|done|]. intros _. exact IH.
Qed.

Lemma category_fields_labels (data : pyval) fields :
  comprehension (fun '(l, r, f) => items ← py_get data f (PList []); mret (l, r, items))
                categories = Ok fields ->
  Forall (fun t => t.1.1 <> "Candidate") fields.
Proof.
  unfold categories. destruct data; try done.
  cbn. intros [= <-]. by repeat constructor.
Qed.

Lemma word_add_keeps_names (E : env) data resume_text :
  respects keeps_names (WordSearch.add_candidate_to_neo4j E data resume_text).
Proof.
  unfold WordSearch.add_candidate_to_neo4j.
  apply respects_bind_lift; [apply keeps_names_refl|]. intros name Hname.
  assert (exists s, name = PStr s) as [s ->].
  { destruct (py_get data "name" (PStr "Unknown")) as [v|]; [|done].
    cbn in Hname. destruct v; try done. injection Hname as <-. eauto. }
  apply respects_bind; [apply keeps_names_trans| |].
  { apply keeps_names_request. intros g. apply merge_node_names; [done|]. eauto. }
  intros c.
  apply respects_bind_lift; [apply keeps_names_refl|]. intros fields Hfields.
  apply category_fields_labels in Hfields.
  apply respects_for_each_Forall; [apply keeps_names_refl|apply keeps_names_trans|].
  eapply Forall_impl; [exact Hfields|]. intros [[l rt] items] Hl. simpl in Hl.
  apply respects_bind_lift; [apply keeps_names_refl|]. intros its _.
  apply respects_for_each; [apply keeps_names_refl|apply keeps_names_trans|].
  intros item.
  apply respects_bind_lift; [apply keeps_names_refl|]. intros lowered _.
  apply respects_bind; [apply keeps_names_trans| |].
  - apply keeps_names_request. intros g. by apply merge_node_names.
  - intros n. apply keeps_names_request. intros g. apply merge_rel_names.
Qed.

Lemma word_process_file_keeps_names (E : env) file :
  respects keeps_names (WordSearch.process_file E file).
Proof.
  intros w. destruct (decide (file_name file ∈ processed_files w)) as [Hin|Hin].
  { unfold WordSearch.process_file. rewrite process_file_skip by done.
    apply keeps_names_refl. }
  destruct (word_extract_bump E (extract_text_from_pdf file) w) as [d He].
  destruct (py_truthy d) eqn:Ht.
  - unfold WordSearch.process_file.
    rewrite (process_file_truthy _ _ _ _ _ _ Hin He Ht).
    pose proof (word_add_keeps_names E d (extract_text_from_pdf file) (bump_llm w)) as Hk.
    unfold keeps_names in *. unfold mbind, M_bind.
    destruct (WordSearch.add_candidate_to_neo4j E d _ (bump_llm w)) as [[[]|e] w1];
      simpl in *; exact Hk.
  - unfold WordSearch.process_file.
    rewrite (process_file_falsy _ _ _ _ _ _ Hin He Ht). by intros H.
Qed.

Lemma word_upload_keeps_names (E : env) files :
  respects keeps_names (WordSearch.upload_section E files).
Proof.
  unfold WordSearch.upload_section, upload_section. destruct files as [|file files].
  { by apply respects_ret, keeps_names_refl. }
  apply respects_bind; [apply keeps_names_trans| |].
  - apply respects_for_each; [apply keeps_names_refl|apply keeps_names_trans|].
    apply word_process_file_keeps_names.
  - intros _. intros w. apply keeps_names_refl.
Qed.

Lemma rows_are_named g skills :
  names_are_str g ->
  Forall (fun res => is_Some (row_name res)) (WordSearch.multi_skill_rows skills g).
Proof.
  intros Hg. apply Forall_forall. intros res Hres.
  unfold WordSearch.multi_skill_rows in Hres.
  apply (proj1 (elem_of_remove_dups _ _)) in Hres.
  apply list_elem_of_fmap in Hres as (c & -> & Hc).
  apply list_elem_of_filter in Hc as [_ Hc].
  apply (proj1 (elem_of_remove_dups _ _)) in Hc.
  apply list_elem_of_fmap in Hc as ([c' s] & -> & Hm). simpl.
  apply matched_elem in Hm as [Hm _]. apply match_has_skill_candidate in Hm.
  unfold label_of in Hm. destruct (nodes g !! c') as [n|] eqn:Hn; [|done].
  injection Hm as Hl. destruct (Hg c' n Hn Hl) as [nm Hnm].
  unfold row_name, candidate_row, prop. simpl. rewrite Hn. simpl. rewrite Hnm. by eexists.
Qed.

End StrNames.

(** X20. The second file writes only str names: an upload run, whatever
    the files and the answers, keeps every Candidate node with a str name,
    so that every row of its search has a name the result list can
    title-case. *)
Theorem variant_rows_have_names (E : env) (files : list UploadedFile) (w : world)
    (skills : list string) :
  names_are_str (graph w) ->
  let w' := snd (WordSearch.upload_section E files w) in
  names_are_str (graph w')
  /\ Forall (fun res => is_Some (row_name res)) (WordSearch.multi_skill_rows skills (graph w')).
Proof.
  intros Hg w'.
  assert (names_are_str (graph w')) as Hg' by (by apply word_upload_keeps_names).
  split; [done|by apply rows_are_named].
Qed.

(** ** Title case *)

Lemma title_from_lower b s : lower (title_from b s) = lower s.
Proof.
  revert b. induction s as [|c s IH]; intros b; [done|].
  cbn [title_from].
  destruct (is_lower_ascii c || is_upper_ascii c) eqn:Hc; cbn [lower]; rewrite IH; f_equal.
  destruct b; [apply lower_ascii_idempotent|].
  clear. destruct c as [[] [] [] [] [] [] [] []]; reflexivity.
Qed.

Lemma title_from_length b s : String.length (title_from b s) = String.length s.
Proof.
  revert b. induction s as [|c s IH]; intros b; [done|].
  cbn [title_from]. destruct (is_lower_ascii c || is_upper_ascii c); simpl; by rewrite IH.
Qed.

(** X21. The title-casing of the names shown changes the case of letters
    and nothing else: lower-casing the title gives the lower-cased name,
    and the length is kept; the title of a name stored by the second file
    lower-cases back to the stored name. *)
Theorem title_only_changes_case (s : string) :
  lower (title s) = lower s
  /\ String.length (title s) = String.length s
  /\ (lower s = s -> lower (title s) = s).
Proof.
  split_and!.
  - apply title_from_lower.
  - apply title_from_length.
  - intros Hs. unfold title. by rewrite title_from_lower.
Qed.

(** ** The further properties at the scenario *)

Example title_example :
  title "alice o'neil, 3d artist" = "Alice O'Neil, 3D Artist"
  /\ title "JOHN SMITH" = "John Smith".
Proof. vm_compute. done. Qed.

(** The two rows of [world_AB] on the page: the first summary is the
    stripped answer, the second call raises and gives the error text. *)
Example result_list_example :
  snd (word_search_page plain_str_of plain_exn_text summary_env "python"
         (mkPage world_AB []))
  = mkPage (mkWorld (graph world_AB) (processed_files world_AB) 4 9)
      [ Subheader "Candidates matching skills: python";
        Markdown "### Alice"; Write "Seasoned data engineer.";
        Markdown "### Bob"; Write "Error generating summary: connection lost" ].
Proof. vm_compute. reflexivity. Qed.

Lemma rerun_of_processed_files_is_noop_witness :
  Main4.upload_section demo_env [mkFile "a.pdf" ["another resume"]] seen_world
  = (Ok (Some 1%nat), seen_world).
Proof.
  assert (Forall (fun f => file_name f ∈ processed_files seen_world)
            [mkFile "a.pdf" ["another resume"]]) as Hall.
  { constructor; [|constructor].
    change ("a.pdf" ∈ ({[ "a.pdf" ]} : gset string)). apply elem_of_singleton_2.
    reflexivity. }
  rewrite (proj1 (rerun_of_processed_files_is_noop demo_env _ _ seen_world Hall)).
  vm_compute. reflexivity.
Defined.

Lemma model_failure_skipped_witness :
  Main4.get_structured_data_from_llm (scripted_env [None] demo_table (fun _ => true))
    "resume A" fresh_world
  = (Ok (PDict []), bump_llm fresh_world).
Proof.
  exact (proj1 (proj1 (model_failure_skipped
                         (scripted_env [None] demo_table (fun _ => true))
                         file_A [file_B] fresh_world
                         (not_elem_of_empty (C := gset string) "a.pdf") eq_refl))).
Defined.

Lemma skipped_document_is_retried_witness :
  Main4.process_file (answer_env "{}") file_A fresh_world = (Ok tt, bump_llm fresh_world)
  /\ llm_calls (snd (Main4.process_file (answer_env "{}") file_A (bump_llm fresh_world)))
     = 2%nat.
Proof.
  apply (proj1 (skipped_document_is_retried (answer_env "{}") file_A fresh_world (PDict [])
                  (not_elem_of_empty (C := gset string) "a.pdf") eq_refl)).
  vm_compute. reflexivity.
Defined.

Lemma non_object_answer_aborts_base_witness :
  Main4.process_file (answer_env "1") file_A fresh_world
    = (Raise AttributeError, bump_llm fresh_world)
  /\ Main4.upload_section (answer_env "1") [file_A; file_B] fresh_world
     = (Raise AttributeError, bump_llm fresh_world)
  /\ WordSearch.process_file (answer_env "1") file_A fresh_world
     = (Ok tt, bump_llm fresh_world).
Proof.
  apply (non_object_answer_aborts_base (answer_env "1") file_A [file_B] fresh_world
           "1" (PInt 1)).
  - apply not_elem_of_empty.
  - reflexivity.
  - reflexivity.
  - intros d. discriminate.
  - reflexivity.
Defined.

Lemma non_iterable_skills_partial_write_witness :
  Main4.add_candidate_to_neo4j demo_env (PDict [("skills", PInt 5)]) "resume A" fresh_world
  = (Raise TypeError,
     mkWorld (mkGraph [candidate_node (PStr "Unknown") "resume A"] []) ∅ 0 1).
Proof.
  destruct (non_iterable_skills_partial_write demo_env [("skills", PInt 5)] "resume A"
              fresh_world (PInt 5) eq_refl eq_refl I) as [H _].
  exact H.
Defined.

Lemma clear_button_wipes_or_keeps_witness :
  WordSearch.clear_button demo_env world_AB
    = (Ok tt, mkWorld empty_graph ∅ (llm_calls world_AB) (S (store_calls world_AB)))
  /\ WordSearch.clear_button outage_env world_AB
     = (Raise StoreWriteError,
        mkWorld (graph world_AB) (processed_files world_AB) (llm_calls world_AB)
                (S (store_calls world_AB))).
Proof.
  split.
  - exact (proj1 (proj2 (proj1 (clear_button_wipes_or_keeps demo_env world_AB) eq_refl))).
  - exact (proj2 (proj2 (clear_button_wipes_or_keeps outage_env world_AB) eq_refl)).
Defined.

Lemma repeated_skill_finds_nobody_witness :
  WordSearch.multi_skill_rows ["python"; "python"] (graph world_AB) = [].
Proof.
  apply (repeated_skill_finds_nobody (graph world_AB) ["python"; "python"]).
  intros H. apply NoDup_cons in H as [H _]. apply H, list_elem_of_here.
Defined.

Lemma ingested_candidate_is_found_witness :
  exists w',
    Main4.add_candidate_to_neo4j demo_env (profile_data alice) "resume A" fresh_world
      = (Ok tt, w')
    /\ (Some (PStr "Alice"), Some (PStr "resume A")) ∈ Main4.skill_rows "SQL" (graph w').
Proof.
  apply (ingested_candidate_is_found demo_env alice "resume A" "SQL" fresh_world
           demo_always_up).
  apply list_elem_of_further, list_elem_of_here.
Defined.

Lemma search_finds_ingested_candidate_witness :
  exists w' rows w'',
    WordSearch.add_candidate_to_neo4j demo_env (profile_data alice) "resume A" fresh_world
      = (Ok tt, w')
    /\ WordSearch.search_section demo_env "SQL , PYTHON" w' = (Ok (Some rows), w'')
    /\ (Some (PStr "alice"), Some (PStr "resume A")) ∈ rows.
Proof.
  apply (search_finds_ingested_candidate demo_env alice "resume A" "SQL , PYTHON"
           fresh_world demo_always_up).
  - vm_compute. discriminate.
  - vm_compute. apply NoDup_cons. split; [|apply NoDup_singleton].
    intros H. apply list_elem_of_singleton in H. discriminate H.
  - vm_compute. intros y Hy.
    apply elem_of_cons in Hy as [->|Hy]; [apply list_elem_of_further, list_elem_of_here|].
    apply list_elem_of_singleton in Hy as ->. apply list_elem_of_here.
Defined.


Lemma search_tokens_are_clean_witness :
  ~ clean_token "python "
  /\ WordSearch.name_in
       (mkGraph [attribute_node "Skill" (PStr "python ")] [])
       (WordSearch.parse_skills "python , sql") 0 = false.
Proof.
  assert (~ clean_token "python ") as Hn.
  { intros (_ & _ & Hs & _). vm_compute in Hs. discriminate Hs. }
  split; [exact Hn|].
  exact (proj2 (search_tokens_are_clean "python , sql")
           (mkGraph [attribute_node "Skill" (PStr "python ")] []) 0%nat "python "
           eq_refl Hn).
Defined.

Lemma summaries_are_isolated_witness :
  word_search_page plain_str_of plain_exn_text summary_env "python" (mkPage world_AB [])
  = (Ok tt,
     mkPage (mkWorld (graph world_AB) (processed_files world_AB) 4 9)
       [ Subheader "Candidates matching skills: python";
         Markdown "### Alice"; Write "Seasoned data engineer.";
         Markdown "### Bob"; Write "Error generating summary: connection lost" ]).
Proof.
  rewrite (summaries_are_isolated plain_str_of plain_exn_text summary_env "python"
             (mkPage world_AB [])).
  - vm_compute. reflexivity.
  - reflexivity.
  - vm_compute. discriminate.
  - vm_compute. repeat constructor; by eexists.
Defined.

Lemma unnamed_row_stops_the_list_witness :
  for_each_shown [row_A; (None, Some (PStr "resume X")); row_B]
    (show_candidate plain_str_of plain_exn_text summary_env) (mkPage world_AB [])
  = (Raise AttributeError,
     mkPage (after_llm_calls 1 world_AB)
       [Markdown "### Alice"; Write "Seasoned data engineer."]).
Proof.
  destruct (unnamed_row_stops_the_list plain_str_of plain_exn_text summary_env
              [row_A] [row_B] (None, Some (PStr "resume X")) (mkPage world_AB []))
    as [H _].
  - repeat constructor. by eexists.
  - reflexivity.
  - etrans; [exact H|]. vm_compute. reflexivity.
Defined.

Lemma empty_graph_names : names_are_str empty_graph.
Proof. intros i n Hi. simpl in Hi. by rewrite lookup_nil in Hi. Qed.

Lemma variant_rows_have_names_witness :
  names_are_str (graph world_AB)
  /\ Forall (fun res => is_Some (row_name res))
            (WordSearch.multi_skill_rows ["python"] (graph world_AB)).
Proof.
  exact (variant_rows_have_names demo_env [file_A; file_B] fresh_world ["python"]
           empty_graph_names).
Defined.

Lemma title_only_changes_case_witness : lower (title "alice smith") = "alice smith".
Proof.
  exact (proj2 (proj2 (title_only_changes_case "alice smith")) eq_refl).
Defined.
